(** * yt2radarr: the job tracking and live log console of the control panel

    A shallow embedding of the browser script of the panel and the proofs of
    the properties stated about it.  Two revisions of the script are covered:
    [static/script.js] (module [StaticScript]) and the later revision with
    cancellation and log filtering (modules [LogText] and [Panel]) and with
    the two search flows (modules [YouTubeSearch] and [AddMovieSearch]); that
    revision is called the panel script below, and line numbers given with a
    function are lines of it.

    Conventions of the embedding:
    - a JavaScript string is a [string], one [ascii] per UTF-16 code unit, so
      code units above 255 are outside the model;
    - a [Date] object holding a valid time is its [getTime()] value in [Z];
    - an object property that may be missing or [undefined] is an [option];
    - a function that mutates the module state and may throw is a function
      from the state to the new state and a [Completion]: the mutations made
      before a [throw] stay in the state;
    - an [async] function is cut at its [await]s: one definition for the
      synchronous start, one for the continuation that runs when the awaited
      answer arrives. *)

From Stdlib Require Import ZArith List String Ascii Bool Lia.
From stdpp Require Import base option list gmap strings pretty sorting.

Local Open Scope string_scope.
Local Open Scope Z_scope.

(** ** JavaScript string primitives *)

Module Js.

Definition code (c : ascii) : N := N_of_ascii c.

(** [WhiteSpace] and [LineTerminator] of ECMAScript, restricted to code units
    below 256: TAB, LF, VT, FF, CR, SP and NBSP.  [String.prototype.trim] and
    the regular expression class [\s] both use this set. *)
Definition isWhiteSpace (c : ascii) : bool :=
  let n := code c in
  ((9 <=? n) && (n <=? 13) || (n =? 32) || (n =? 160))%N.

(** The characters that [.] refuses in a regular expression without the [s]
    flag: LF and CR (U+2028 and U+2029 are above 255). *)
Definition isLineTerminator (c : ascii) : bool :=
  let n := code c in ((n =? 10) || (n =? 13))%N.

Fixpoint trimStart (s : string) : string :=
  match s with
  | String c r => if isWhiteSpace c then trimStart r else s
  | EmptyString => EmptyString
  end.

Fixpoint trimEnd (s : string) : string :=
  match s with
  | String c r =>
      match trimEnd r with
      | EmptyString => if isWhiteSpace c then EmptyString else String c EmptyString
      | r' => String c r'
      end
  | EmptyString => EmptyString
  end.

Definition trim (s : string) : string := trimEnd (trimStart s).

(** [String.prototype.toLowerCase] on code units below 256: A-Z and the
    Latin-1 capitals U+00C0..U+00DE (U+00D7, the multiplication sign, apart). *)
Definition lowerChar (c : ascii) : ascii :=
  let n := code c in
  if ((65 <=? n) && (n <=? 90)
      || (192 <=? n) && (n <=? 222) && negb (n =? 215))%N
  then ascii_of_N (n + 32) else c.

Fixpoint toLowerCase (s : string) : string :=
  match s with
  | String c r => String (lowerChar c) (toLowerCase r)
  | EmptyString => EmptyString
  end.

(** [s.startsWith(p)] *)
Fixpoint startsWith (s p : string) : bool :=
  match p, s with
  | EmptyString, _ => true
  | String a p', String b s' => if Ascii.eqb a b then startsWith s' p' else false
  | String _ _, EmptyString => false
  end.

(** [s.includes(p)] *)
Fixpoint includes (s p : string) : bool :=
  startsWith s p ||
  match s with
  | String _ r => includes r p
  | EmptyString => false
  end.

(** Truthiness of a string value: the empty string is falsy. *)
Definition truthy (s : string) : bool :=
  match s with EmptyString => false | _ => true end.

(** [a || b] on strings. *)
Definition orElse (a b : string) : string := if truthy a then a else b.

(** Truthiness of a property holding a string, [undefined] or [null]. *)
Definition truthyOpt (o : option string) : bool :=
  match o with Some s => truthy s | None => false end.

(** [o || b] where [o] is a string, [undefined] or [null]. *)
Definition optOr (o : option string) (b : string) : string :=
  match o with Some s => orElse s b | None => b end.

(** Case folding of a regular expression with the [i] flag (and without [u]),
    as far as it matters against a pattern made of ASCII capitals and
    punctuation: [a]-[z] fold to [A]-[Z]; no code unit above 127 folds into
    ASCII. *)
Definition foldCase (c : ascii) : ascii :=
  let n := code c in
  if ((97 <=? n) && (n <=? 122))%N then ascii_of_N (n - 32) else c.

(** The pattern [/^TAG/i] at the start of [s], for a [tag] of ASCII capitals
    and punctuation: what follows the tag when it matches. *)
Fixpoint stripTag (tag s : string) : option string :=
  match tag, s with
  | EmptyString, _ => Some s
  | String a tag', String b s' =>
      if Ascii.eqb a (foldCase b) then stripTag tag' s' else None
  | String _ _, EmptyString => None
  end.

(** The group [( .* )] followed by [$]: the greedy dot-star runs to the first
    line terminator, and [$] (without the [m] flag) wants the end of the
    input there. *)
Fixpoint noLineTerminator (s : string) : bool :=
  match s with
  | String c r => negb (isLineTerminator c) && noLineTerminator r
  | EmptyString => true
  end.

Definition dotStarEnd (s : string) : option string :=
  if noLineTerminator s then Some s else None.

(** [\s*] followed by [( .* )$], with the backtracking order of the matcher:
    [\s*] is greedy, so the longest run of white space is tried first and
    given back one character at a time. *)
Fixpoint spacesDotStarEnd (s : string) : option string :=
  match s with
  | String c r =>
      if isWhiteSpace c then
        match spacesDotStarEnd r with
        | Some captured => Some captured
        | None => dotStarEnd s
        end
      else dotStarEnd s
  | EmptyString => dotStarEnd s
  end.

(** [s.match(re)] for [re] the pattern [^TAG\s*( .* )$] with the [i] flag
    (written here with spaces around the dot-star): the first capture group
    of the match. *)
Definition matchTagged (tag s : string) : option string :=
  match stripTag tag s with
  | Some rest => spacesDotStarEnd rest
  | None => None
  end.

(** [s.replace(/^TAG\s*/i, '')] *)
Definition removeTag (tag s : string) : string :=
  match stripTag tag s with
  | Some rest => trimStart rest
  | None => s
  end.

(** [list.some(p)] *)
Definition some {A} (p : A -> bool) (l : list A) : bool := existsb p l.

End Js.

(** ** The log classifier and the visibility filter *)

Module LogText.
Import Js.

Definition IMPORTANT_LINE_SNIPPETS : list string :=
  [ "success! video saved";
    "renaming downloaded file";
    "treating video as main video file";
    "storing video in subfolder";
    "created movie folder";
    "fetching radarr details";
    "resolved youtube format" ].

Definition NOISY_WARNING_SNIPPETS : list string :=
  [ "[youtube]";
    "sabr streaming";
    "web client https formats have been skipped";
    "web_safari client https formats have been skipped";
    "tv client https formats have been skipped" ].

(** [shouldDisplayLogLine(line)], lines 1125-1145. *)
Definition shouldDisplayLogLine (line : string) : bool :=
  let original := line in
  let trimmed := trim original in
  if negb (truthy trimmed) then false else
  let lowered := toLowerCase trimmed in
  if startsWith lowered "debug:" then false else
  if startsWith lowered "warning:" then
    negb (some (fun snippet => includes lowered snippet) NOISY_WARNING_SNIPPETS)
  else if startsWith lowered "error:" then true
  else if startsWith lowered "[download]" || startsWith lowered "[ffmpeg]"
          || startsWith lowered "[merger]" then true
  else some (fun snippet => includes lowered snippet) IMPORTANT_LINE_SNIPPETS.

(** The object [{ text, type }] that [interpretLogLine] returns. *)
Record Interpreted := { text : string; type : string }.

(** The end of [interpretLogLine] (lines 1184-1194), after the block that
    detects a category: only a forced type of [muted], [error] or [warning]
    changes anything. *)
Definition interpretForced (original trimmed : string) (forcedType : option string)
  : Interpreted :=
  let type := optOr forcedType "info" in
  let text := original in
  match forcedType with
  | Some forced =>
      if String.eqb forced "muted" then {| text := text; type := "muted" |}
      else if String.eqb forced "error" then
        {| text := orElse (removeTag "ERROR:" trimmed) text; type := "error" |}
      else if String.eqb forced "warning" then
        {| text := orElse (removeTag "WARNING:" trimmed) text; type := "warning" |}
      else {| text := text; type := type |}
  | None => {| text := text; type := type |}
  end.

(** [interpretLogLine(rawText, forcedType)], lines 1147-1195. *)
Definition interpretLogLine (rawText : string) (forcedType : option string)
  : Interpreted :=
  let original := rawText in
  let trimmed := trim original in
  if negb (truthyOpt forcedType) then
    match matchTagged "ERROR:" trimmed with
    | Some errorMatch => {| text := orElse errorMatch "Error"; type := "error" |}
    | None =>
    match matchTagged "WARNING:" trimmed with
    | Some warningMatch => {| text := orElse warningMatch "Warning"; type := "warning" |}
    | None =>
    match matchTagged "DEBUG:" trimmed with
    | Some debugMatch => {| text := orElse debugMatch "Debug"; type := "debug" |}
    | None =>
    if startsWith trimmed "[download]" then {| text := trimmed; type := "progress" |}
    else if startsWith trimmed "[ffmpeg]" then {| text := trimmed; type := "ffmpeg" |}
    else interpretForced original trimmed forcedType
    end end end
  else interpretForced original trimmed forcedType.

End LogText.

(** ** Exceptions and the state-and-exception monad of the script *)

Module Effects.

(** A thrown value: the [name] and the [message] of the error object. *)
Record Thrown := { name : string; message : string }.

(** [new Error(message)] *)
Definition mkError (msg : string) : Thrown := {| name := "Error"; message := msg |}.

(** The [TypeError] of calling [method] on [undefined].  The wording of the
    message is V8's; no property below depends on it. *)
Definition undefinedDeref (method : string) : Thrown :=
  {| name := "TypeError";
     message := "Cannot read properties of undefined (reading '" ++ method ++ "')" |}.

(** [err && err.message ? err.message : err] inside a template string. *)
Definition describe (err : Thrown) : string :=
  if Js.truthy (message err) then message err
  else name err.

Inductive Completion (A : Type) : Type :=
| Returned (a : A)
| Threw (e : Thrown).
Arguments Returned {A} a.
Arguments Threw {A} e.

Section Monad.
Context {S : Type}.

(** A JavaScript computation over the module state [S]. *)
Definition M (A : Type) : Type := S -> S * Completion A.

Definition ret {A} (a : A) : M A := fun st => (st, Returned a).

Definition bind {A B} (m : M A) (k : A -> M B) : M B :=
  fun st =>
    match m st with
    | (st', Returned a) => k a st'
    | (st', Threw e) => (st', Threw e)
    end.

Definition throw {A} (e : Thrown) : M A := fun st => (st, Threw e).

Definition getState : M S := fun st => (st, Returned st).

Definition modify (f : S -> S) : M unit := fun st => (f st, Returned tt).

(** [try { body } catch (err) { handler }] *)
Definition tryCatch {A} (body : M A) (handler : Thrown -> M A) : M A :=
  fun st =>
    match body st with
    | (st', Returned a) => (st', Returned a)
    | (st', Threw e) => handler e st'
    end.

(** [try { body } finally { final }] *)
Definition tryFinally {A} (body : M A) (final : M unit) : M A :=
  fun st =>
    match body st with
    | (st', c) =>
        match final st' with
        | (st'', Returned _) => (st'', c)
        | (st'', Threw e) => (st'', Threw e)
        end
    end.

(** [list.forEach(f)]: a throw inside [f] ends the loop. *)
Fixpoint forEach {A} (f : A -> M unit) (l : list A) : M unit :=
  match l with
  | [] => ret tt
  | x :: l' => bind (f x) (fun _ => forEach f l')
  end.

Definition when (b : bool) (m : M unit) : M unit := if b then m else ret tt.

(** The state after running [m]. *)
Definition exec {A} (m : M A) (st : S) : S := fst (m st).

(** How [m] completes. *)
Definition outcome {A} (m : M A) (st : S) : Completion A := snd (m st).
End Monad.

Arguments M S A : clear implicits.

Declare Scope js_scope.
Delimit Scope js_scope with js.
Notation "x <- m ;; k" := (bind m (fun x => k))
  (at level 20, m at level 99, k at level 200, only parsing) : js_scope.
Notation "m ;; k" := (bind m (fun _ => k))
  (at level 100, k at level 200, right associativity, only parsing) : js_scope.

(** [Array.prototype.sort(cmp)]: the sort is stable, and for a comparator that
    orders by a key the stable result is unique; insertion from the right
    computes it. *)
Fixpoint insertSorted {A} (cmp : A -> A -> Z) (x : A) (l : list A) : list A :=
  match l with
  | [] => [x]
  | y :: l' => if cmp x y <=? 0 then x :: l else y :: insertSorted cmp x l'
  end.

Definition sort {A} (cmp : A -> A -> Z) (l : list A) : list A :=
  foldr (insertSorted cmp) [] l.

(** [index = list.findIndex(p)] together with [list[index]]; [None] for the
    [-1] of JavaScript. *)
Fixpoint findEntry {A} (p : A -> bool) (l : list A) : option (nat * A) :=
  match l with
  | [] => None
  | x :: l' =>
      if p x then Some (0%nat, x)
      else match findEntry p l' with
           | Some (i, y) => Some (S i, y)
           | None => None
           end
  end.

(** [o === s] for a property [o] that holds a string or [null]. *)
Definition isString (o : option string) (s : string) : bool :=
  match o with Some x => String.eqb x s | None => false end.

(** [a || b] for properties that hold a string, [null] or [undefined]. *)
Definition orOpt (a b : option string) : option string :=
  if Js.truthyOpt a then a else b.

(** What comes back from [fetch] and [response.json()]: the [fetch] promise
    rejects, or a response arrives with [ok], [status] and a body that
    decodes or does not. *)
Inductive Fetched (D : Type) : Type :=
| FetchRejected (e : Thrown)
| Responded (ok : bool) (status : Z) (body : Thrown + D).
Arguments FetchRejected {D} e.
Arguments Responded {D} ok status body.

(** [m] keeps the state in relation [R] with the state it started from,
    however it completes. *)
Definition frames {S A} (R : S -> S -> Prop) (m : M S A) : Prop :=
  forall st, R st (exec m st).

(** [m] never throws. *)
Definition returns {S A} (m : M S A) : Prop :=
  forall st, exists a, outcome m st = Returned a.

End Effects.

(** ** The panel script: job store, pollers, console, cancellation *)

Module Panel.
Import Js LogText Effects.
Local Open Scope js_scope.

(** A valid [Date], as its [getTime()]. *)
Definition Date := Z.

(** The own keys of [STATUS_LABELS]. *)
Definition STATUS_LABELS : list string :=
  [ "queued"; "processing"; "complete"; "failed"; "cancelled" ].

(** [STATUS_LABELS] is an object literal, so [STATUS_LABELS[status]] also finds
    what it inherits from [Object.prototype], all of it truthy. *)
Definition OBJECT_PROTOTYPE_KEYS : list string :=
  [ "constructor"; "hasOwnProperty"; "isPrototypeOf"; "propertyIsEnumerable";
    "toLocaleString"; "toString"; "valueOf"; "__proto__";
    "__defineGetter__"; "__defineSetter__"; "__lookupGetter__"; "__lookupSetter__" ].

(** Truthiness of [STATUS_LABELS[status]]. *)
Definition hasStatusLabel (status : string) : bool :=
  existsb (String.eqb status) STATUS_LABELS
  || existsb (String.eqb status) OBJECT_PROTOTYPE_KEYS.

Definition CANCELLABLE_STATUSES : list string := [ "queued"; "processing" ].

(** [CANCELLABLE_STATUSES.has(status)] *)
Definition isCancellable (status : option string) : bool :=
  match status with
  | Some s => existsb (String.eqb s) CANCELLABLE_STATUSES
  | None => false
  end.

Definition MAX_DOWNLOAD_ENTRIES : nat := 8.

(** The job object of a response, as decoded from JSON. *)
Record RawJob := {
  job_id : option string;
  job_status : option string;
  job_progress : option Z;
  job_label : option string;
  job_subtitle : option string;
  job_metadata : option (list string);
  job_message : option string;
  job_logs : option (list string);
  job_started_at : option string;
  job_created_at : option string;
  job_updated_at : option string;
  job_completed_at : option string }.

(** The argument of [upsertDownload]: a partial record; [None] is a property
    that is absent. *)
Record JobUpdate := {
  u_id : option string;
  u_label : option string;
  u_subtitle : option string;
  u_status : option string;
  u_progress : option Z;
  u_metadata : option (list string);
  u_message : option string;
  u_startedAt : option Date;
  u_updatedAt : option Date }.

(** A record of [state.downloads]. *)
Record Entry := {
  e_id : string;
  e_label : option string;
  e_subtitle : string;
  e_status : option string;
  e_progress : Z;
  e_metadata : list string;
  e_message : string;
  e_startedAt : Date;
  e_updatedAt : Date }.

(** The [options] of [pollJob] and [startJobPolling]. *)
Record PollOptions := { showConsole : bool; notifyNotFound : bool }.

Definition noOptions : PollOptions :=
  {| showConsole := false; notifyNotFound := false |}.

(** A child of the console element: its text and its [log-<type>] class. *)
Record ConsoleLine := { line_text : string; line_type : string }.

(** The cancel button of a card.  (Texts of the page that hold an ellipsis,
    U+2026, are written in UTF-8; they are shown and never read back.) *)
Record CancelButton := {
  button_jobId : string;
  button_text : string;
  button_disabled : bool }.

(** What [buildDownloadItem] builds, as far as the store and the cancellation
    protocol show in it. *)
Record Card := {
  card_status : option string;
  card_jobId : option string;
  card_selected : bool;
  card_title : option string;
  card_progress : Z;
  card_message : option string;
  card_cancel : option CancelButton }.

(** A child of the downloads list element. *)
Inductive ListChild :=
| EmptyState
| DownloadItem (card : Card).

(** A request handed to [fetch]. *)
Inductive Request :=
| GetJob (jobId : string)
| PostCancel (jobId : string).

(** The decoded body of [/jobs/<id>] and of [/jobs/<id>/cancel]. *)
Record JobData := {
  data_debug_mode : option bool;
  data_job : option RawJob;
  data_message : option string;
  data_error : option string }.

(** The module state: the [state] object (lines 181-209), the two elements of
    the page that the functions below write to, and the timers and requests
    of the browser.  [pendingCancellations] is [None] while [state] has no
    such property. *)
Record State := {
  downloads : list Entry;
  pollers : gmap string positive;
  pendingCancellations : option (gset string);
  debugMode : bool;
  lastLogs : list string;
  selectedJobId : option string;
  activeConsoleJobId : option string;
  consoleDiv : option (list ConsoleLine);
  downloadsList : option (list ListChild);
  timers : gmap positive (string * PollOptions);
  nextTimer : positive;
  requests : list Request }.

Definition set_downloads (v : list Entry) (st : State) : State :=
  {| downloads := v; pollers := pollers st;
     pendingCancellations := pendingCancellations st; debugMode := debugMode st;
     lastLogs := lastLogs st; selectedJobId := selectedJobId st;
     activeConsoleJobId := activeConsoleJobId st; consoleDiv := consoleDiv st;
     downloadsList := downloadsList st; timers := timers st;
     nextTimer := nextTimer st; requests := requests st |}.

Definition set_pollers (v : gmap string positive) (st : State) : State :=
  {| downloads := downloads st; pollers := v;
     pendingCancellations := pendingCancellations st; debugMode := debugMode st;
     lastLogs := lastLogs st; selectedJobId := selectedJobId st;
     activeConsoleJobId := activeConsoleJobId st; consoleDiv := consoleDiv st;
     downloadsList := downloadsList st; timers := timers st;
     nextTimer := nextTimer st; requests := requests st |}.

Definition set_pendingCancellations (v : option (gset string)) (st : State) : State :=
  {| downloads := downloads st; pollers := pollers st;
     pendingCancellations := v; debugMode := debugMode st;
     lastLogs := lastLogs st; selectedJobId := selectedJobId st;
     activeConsoleJobId := activeConsoleJobId st; consoleDiv := consoleDiv st;
     downloadsList := downloadsList st; timers := timers st;
     nextTimer := nextTimer st; requests := requests st |}.

Definition set_debugMode (v : bool) (st : State) : State :=
  {| downloads := downloads st; pollers := pollers st;
     pendingCancellations := pendingCancellations st; debugMode := v;
     lastLogs := lastLogs st; selectedJobId := selectedJobId st;
     activeConsoleJobId := activeConsoleJobId st; consoleDiv := consoleDiv st;
     downloadsList := downloadsList st; timers := timers st;
     nextTimer := nextTimer st; requests := requests st |}.

Definition set_lastLogs (v : list string) (st : State) : State :=
  {| downloads := downloads st; pollers := pollers st;
     pendingCancellations := pendingCancellations st; debugMode := debugMode st;
     lastLogs := v; selectedJobId := selectedJobId st;
     activeConsoleJobId := activeConsoleJobId st; consoleDiv := consoleDiv st;
     downloadsList := downloadsList st; timers := timers st;
     nextTimer := nextTimer st; requests := requests st |}.

Definition set_selectedJobId (v : option string) (st : State) : State :=
  {| downloads := downloads st; pollers := pollers st;
     pendingCancellations := pendingCancellations st; debugMode := debugMode st;
     lastLogs := lastLogs st; selectedJobId := v;
     activeConsoleJobId := activeConsoleJobId st; consoleDiv := consoleDiv st;
     downloadsList := downloadsList st; timers := timers st;
     nextTimer := nextTimer st; requests := requests st |}.

Definition set_activeConsoleJobId (v : option string) (st : State) : State :=
  {| downloads := downloads st; pollers := pollers st;
     pendingCancellations := pendingCancellations st; debugMode := debugMode st;
     lastLogs := lastLogs st; selectedJobId := selectedJobId st;
     activeConsoleJobId := v; consoleDiv := consoleDiv st;
     downloadsList := downloadsList st; timers := timers st;
     nextTimer := nextTimer st; requests := requests st |}.

Definition set_consoleDiv (v : option (list ConsoleLine)) (st : State) : State :=
  {| downloads := downloads st; pollers := pollers st;
     pendingCancellations := pendingCancellations st; debugMode := debugMode st;
     lastLogs := lastLogs st; selectedJobId := selectedJobId st;
     activeConsoleJobId := activeConsoleJobId st; consoleDiv := v;
     downloadsList := downloadsList st; timers := timers st;
     nextTimer := nextTimer st; requests := requests st |}.

Definition set_downloadsList (v : option (list ListChild)) (st : State) : State :=
  {| downloads := downloads st; pollers := pollers st;
     pendingCancellations := pendingCancellations st; debugMode := debugMode st;
     lastLogs := lastLogs st; selectedJobId := selectedJobId st;
     activeConsoleJobId := activeConsoleJobId st; consoleDiv := consoleDiv st;
     downloadsList := v; timers := timers st;
     nextTimer := nextTimer st; requests := requests st |}.

Definition set_timers (v : gmap positive (string * PollOptions)) (st : State) : State :=
  {| downloads := downloads st; pollers := pollers st;
     pendingCancellations := pendingCancellations st; debugMode := debugMode st;
     lastLogs := lastLogs st; selectedJobId := selectedJobId st;
     activeConsoleJobId := activeConsoleJobId st; consoleDiv := consoleDiv st;
     downloadsList := downloadsList st; timers := v;
     nextTimer := nextTimer st; requests := requests st |}.

Definition set_nextTimer (v : positive) (st : State) : State :=
  {| downloads := downloads st; pollers := pollers st;
     pendingCancellations := pendingCancellations st; debugMode := debugMode st;
     lastLogs := lastLogs st; selectedJobId := selectedJobId st;
     activeConsoleJobId := activeConsoleJobId st; consoleDiv := consoleDiv st;
     downloadsList := downloadsList st; timers := timers st;
     nextTimer := v; requests := requests st |}.

Definition set_requests (v : list Request) (st : State) : State :=
  {| downloads := downloads st; pollers := pollers st;
     pendingCancellations := pendingCancellations st; debugMode := debugMode st;
     lastLogs := lastLogs st; selectedJobId := selectedJobId st;
     activeConsoleJobId := activeConsoleJobId st; consoleDiv := consoleDiv st;
     downloadsList := downloadsList st; timers := timers st;
     nextTimer := nextTimer st; requests := v |}.

(** The [state] literal on a page that has both elements: nothing
    tracked, no poller, and no [pendingCancellations] property. *)
Definition initialState (initialDebugMode : bool) : State :=
  {| downloads := []; pollers := ∅;
     pendingCancellations := None; debugMode := initialDebugMode;
     lastLogs := []; selectedJobId := None;
     activeConsoleJobId := None; consoleDiv := Some [];
     downloadsList := Some []; timers := ∅;
     nextTimer := 1%positive; requests := [] |}.

(** *** The pending-cancellation set

    [state.pendingCancellations.has], [.add] and [.delete]: a method call on
    [undefined] throws a [TypeError]. *)

Definition pendingHas (jobId : string) : M State bool :=
  fun st =>
    match pendingCancellations st with
    | Some pending => (st, Returned (bool_decide (jobId ∈ pending)))
    | None => (st, Threw (undefinedDeref "has"))
    end.

Definition pendingAdd (jobId : string) : M State unit :=
  fun st =>
    match pendingCancellations st with
    | Some pending =>
        (set_pendingCancellations (Some ({[jobId]} ∪ pending)) st, Returned tt)
    | None => (st, Threw (undefinedDeref "add"))
    end.

Definition pendingDelete (jobId : string) : M State unit :=
  fun st =>
    match pendingCancellations st with
    | Some pending =>
        (set_pendingCancellations (Some (pending ∖ {[jobId]})) st, Returned tt)
    | None => (st, Threw (undefinedDeref "delete"))
    end.

(** *** The console *)

(** [appendConsoleLine(text, typeOverride)], lines 1197-1207: the new line
    goes in front. *)
Definition appendConsoleLine (rawText : string) (typeOverride : option string)
  : M State unit :=
  modify (fun st =>
    match consoleDiv st with
    | None => st
    | Some children =>
        let line := interpretLogLine rawText typeOverride in
        set_consoleDiv
          (Some ({| line_text := text line; line_type := type line |} :: children)) st
    end).

Definition VERBOSE_HIDDEN : string :=
  "Verbose output hidden. Enable debug mode in Settings to view full yt-dlp logs.".

Definition NO_OUTPUT_YET : string := "No output yet.".

(** [renderLogLines(lines)], lines 1220-1247. *)
Definition renderLogLines (lines : list string) : M State unit :=
  st <- getState ;;
  match consoleDiv st with
  | None => ret tt
  | Some _ =>
      modify (set_consoleDiv (Some [])) ;;
      let entries := lines in
      modify (set_lastLogs entries) ;;
      let filtered :=
        List.filter
          (fun line => if debugMode st then true else shouldDisplayLogLine line)
          entries in
      if (length filtered =? 0)%nat then
        if negb (length entries =? 0)%nat && negb (debugMode st) then
          appendConsoleLine VERBOSE_HIDDEN (Some "muted")
        else appendConsoleLine NO_OUTPUT_YET (Some "muted")
      else forEach (fun line => appendConsoleLine line None) filtered
  end.

(** [resetConsole(message)], lines 1209-1218. *)
Definition resetConsole (message : string) : M State unit :=
  st <- getState ;;
  match consoleDiv st with
  | None => ret tt
  | Some _ =>
      modify (set_consoleDiv (Some [])) ;;
      modify (set_lastLogs []) ;;
      when (truthy message) (appendConsoleLine message None)
  end.

(** [setDebugMode(enabled)], lines 521-532; the copy button that it also
    shows or hides is not part of the state. *)
Definition setDebugMode (enabled : bool) : M State unit :=
  st <- getState ;;
  let changed := negb (Bool.eqb (debugMode st) enabled) in
  modify (set_debugMode enabled) ;;
  when (changed && negb (length (lastLogs st) =? 0)%nat)
       (renderLogLines (lastLogs st)).

(** *** The downloads list *)

(** [buildDownloadItem(entry, { isSelected })], lines 1328-1424. *)
Definition buildDownloadItem (entry : Entry) (isSelected : bool) : M State Card :=
  let progressValue := Z.max 0 (Z.min 100 (e_progress entry)) in
  let message :=
    if truthy (e_message entry)
       && (isString (e_status entry) "failed" || isString (e_status entry) "cancelled")
    then Some (e_message entry) else None in
  cancelButton <-
    (if truthy (e_id entry) && isCancellable (e_status entry) then
       isCancelling <- pendingHas (e_id entry) ;;
       ret (Some {| button_jobId := e_id entry;
                    button_text := if isCancelling then "Cancelling…" else "Cancel";
                    button_disabled := isCancelling |})
     else ret None) ;;
  ret {| card_status := e_status entry;
         card_jobId := if truthy (e_id entry) then Some (e_id entry) else None;
         card_selected := isSelected;
         card_title := e_label entry;
         card_progress := progressValue;
         card_message := message;
         card_cancel := cancelButton |}.

(** [elements.downloadsList.appendChild(child)] *)
Definition appendListChild (child : ListChild) : M State unit :=
  modify (fun st =>
    match downloadsList st with
    | Some children => set_downloadsList (Some (children ++ [child])%list) st
    | None => st
    end).

(** [renderDownloads()], lines 1426-1454. *)
Definition renderDownloads : M State unit :=
  st <- getState ;;
  match downloadsList st with
  | None => ret tt
  | Some _ =>
      modify (set_downloadsList (Some [])) ;;
      when (truthyOpt (selectedJobId st)
            && negb (some (fun item => isString (selectedJobId st) (e_id item))
                          (downloads st)))
           (when (bool_decide (activeConsoleJobId st = selectedJobId st))
                 (modify (set_activeConsoleJobId None)) ;;
            modify (set_selectedJobId None)) ;;
      st <- getState ;;
      if (length (downloads st) =? 0)%nat then appendListChild EmptyState
      else
        forEach (fun entry =>
                   let isSelected := isString (selectedJobId st) (e_id entry) in
                   card <- buildDownloadItem entry isSelected ;;
                   appendListChild (DownloadItem card))
                (downloads st)
  end.

(** *** Pollers *)

(** [stopJobPolling(jobId)], lines 1456-1465. *)
Definition stopJobPolling (jobId : string) : M State unit :=
  if negb (truthy jobId) then ret tt else
  st <- getState ;;
  match pollers st !! jobId with
  | Some timer =>
      (* clearInterval(timer) *)
      modify (fun st => set_timers (delete timer (timers st)) st) ;;
      modify (fun st => set_pollers (delete jobId (pollers st)) st)
  | None => ret tt
  end.

(** *** The store *)

(** The comparator given to [sort].  [startedAt] is a [Date] here, so the
    [parseDate] and [new Date(0)] fallbacks of the comparator are not taken. *)
Definition compareStartedAt (a b : Entry) : Z :=
  let left := e_startedAt a in
  let right := e_startedAt b in
  right - left.

(** The object put at [state.downloads[index]] when the id is known. *)
Definition mergeEntry (existing : Entry) (id : string) (update : JobUpdate)
    (now : Date) : Entry :=
  {| e_id := id;
     e_label := match u_label update with Some l => Some l | None => e_label existing end;
     e_status := match u_status update with Some s => Some s | None => e_status existing end;
     e_metadata := default (e_metadata existing) (u_metadata update);
     e_subtitle := default (e_subtitle existing) (u_subtitle update);
     e_message := default (e_message existing) (u_message update);
     e_progress := default (e_progress existing) (u_progress update);
     e_startedAt := default (e_startedAt existing) (u_startedAt update);
     e_updatedAt := default now (u_updatedAt update) |}.

(** The object pushed when the id is new. *)
Definition newEntry (id : string) (update : JobUpdate) (now : Date) : Entry :=
  {| e_id := id;
     e_label := u_label update;
     e_status := u_status update;
     e_metadata := default [] (u_metadata update);
     e_subtitle := default "" (u_subtitle update);
     e_message := default "" (u_message update);
     e_progress := default 0 (u_progress update);
     e_startedAt := default now (u_startedAt update);
     e_updatedAt := default now (u_updatedAt update) |}.

(** [upsertDownload(update)], lines 1572-1626, with [now] the reading of the
    clock, in the five steps of its body. *)

(** The entry with the id of the update is merged in place, or a new entry
    is pushed; [updatedEntry] is what was written. *)
Definition writeEntry (id : string) (update : JobUpdate) (now : Date)
  : M State Entry :=
  st <- getState ;;
  match findEntry (fun item => String.eqb (e_id item) id) (downloads st) with
  | Some (index, existing) =>
      let merged := mergeEntry existing id update now in
      modify (set_downloads (<[index := merged]> (downloads st))) ;;
      ret merged
  | None =>
      let fresh := newEntry id update now in
      modify (set_downloads (downloads st ++ [fresh])%list) ;;
      ret fresh
  end.

(** An entry that cannot be cancelled loses its pending flag. *)
Definition forgetFinished (updatedEntry : Entry) : M State unit :=
  when (truthy (e_id updatedEntry) && negb (isCancellable (e_status updatedEntry)))
       (pendingDelete (e_id updatedEntry)).

Definition sortDownloads : M State unit :=
  modify (fun st => set_downloads (sort compareStartedAt (downloads st)) st).

(** [splice(MAX_DOWNLOAD_ENTRIES)] and the loop over what it removed. *)
Definition evictOverflow : M State unit :=
  st <- getState ;;
  when (MAX_DOWNLOAD_ENTRIES <? length (downloads st))%nat
       (let removed := drop MAX_DOWNLOAD_ENTRIES (downloads st) in
        modify (set_downloads (take MAX_DOWNLOAD_ENTRIES (downloads st))) ;;
        forEach (fun entry =>
                   stopJobPolling (e_id entry) ;;
                   when (truthy (e_id entry)) (pendingDelete (e_id entry)))
                removed).

Definition upsertDownload (now : Date) (update : JobUpdate) : M State unit :=
  match u_id update with
  | None => ret tt
  | Some id =>
      if negb (truthy id) then ret tt else
      updatedEntry <- writeEntry id update now ;;
      forgetFinished updatedEntry ;;
      sortDownloads ;;
      evictOverflow ;;
      renderDownloads
  end.

(** *** Job snapshots, polling and cancellation *)

Section WithDateParser.

(** [new Date(value).getTime()] for a string [value]: the platform's date
    parser, [None] for an invalid date. *)
Variable Date_parse : string -> option Date.

Definition parseDate (value : option string) : option Date :=
  match value with
  | Some v => if truthy v then Date_parse v else None
  | None => None
  end.

(** [normaliseJob(job)], lines 1628-1653, with [now] the reading of the
    clock. *)
Definition normaliseJob (now : Date) (job : RawJob) : option JobUpdate :=
  match job_id job with
  | None => None
  | Some id =>
      if negb (truthy id) then None else
      let status := optOr (job_status job) "queued" in
      let status := if String.eqb status "completed" then "complete" else status in
      let status := if negb (hasStatusLabel status) then "queued" else status in
      let startedAt :=
        default now (parseDate (orOpt (job_started_at job) (job_created_at job))) in
      let updatedAt :=
        default startedAt
          (parseDate (orOpt (orOpt (orOpt (job_updated_at job) (job_completed_at job))
                                   (job_started_at job))
                            (job_created_at job))) in
      let metadata := default [] (job_metadata job) in
      Some {| u_id := Some id;
              u_label := Some (optOr (job_label job) "Radarr Download");
              u_subtitle := Some (optOr (job_subtitle job) "");
              u_status := Some status;
              u_progress :=
                Some (match job_progress job with
                      | Some progress => Z.max 0 (Z.min 100 progress)
                      | None => 0
                      end);
              u_metadata := Some metadata;
              u_message := Some (optOr (job_message job) "");
              u_startedAt := Some startedAt;
              u_updatedAt := Some updatedAt |}
  end.

(** [pollJob(jobId, options)], lines 1467-1517, up to its first [await]: the
    request is handed to [fetch].  Returns whether a continuation is left
    waiting. *)
Definition pollJob_start (jobId : string) : M State bool :=
  if negb (truthy jobId) then ret false else
  modify (fun st => set_requests (requests st ++ [GetJob jobId])%list st) ;;
  ret true.

(** The rest of [pollJob(jobId, options)], run when the answer is there.
    Nothing touches the state between the two [await]s, so one continuation
    stands for both.  [now] is the reading of the clock; the reading inside
    [upsertDownload] goes unused, the normalised entry carrying both
    dates. *)
Definition pollJob_resume (now : Date) (jobId : string) (options : PollOptions)
    (fetched : Fetched JobData) : M State unit :=
  let shouldNotifyNotFound := notifyNotFound options in
  tryCatch
    (match fetched with
     | FetchRejected err => throw err
     | Responded ok status body =>
         if negb ok then throw (mkError ("HTTP " ++ pretty status)) else
         match body with
         | inl err => throw err
         | inr data =>
             match data_debug_mode data with
             | Some enabled => setDebugMode enabled
             | None => ret tt
             end ;;
             match data_job data with
             | None =>
                 st <- getState ;;
                 when ((showConsole options || isString (activeConsoleJobId st) jobId)
                       && shouldNotifyNotFound)
                      (renderLogLines ["ERROR: Job not found or has expired."]) ;;
                 when (isString (activeConsoleJobId st) jobId)
                      (modify (set_activeConsoleJobId None)) ;;
                 when (isString (selectedJobId st) jobId)
                      (modify (set_selectedJobId None) ;; renderDownloads) ;;
                 stopJobPolling jobId ;;
                 pendingDelete jobId
             | Some job =>
                 match normaliseJob now job with
                 | Some entry => upsertDownload now entry
                 | None => ret tt
                 end ;;
                 st <- getState ;;
                 let show :=
                   showConsole options || isString (activeConsoleJobId st) jobId in
                 match job_logs job with
                 | Some logs => when show (renderLogLines logs)
                 | None => ret tt
                 end ;;
                 when (isString (job_status job) "complete"
                       || isString (job_status job) "failed"
                       || isString (job_status job) "cancelled")
                      (pendingDelete jobId ;; stopJobPolling jobId)
             end
         end
     end)
    (fun err =>
       appendConsoleLine
         ("ERROR: Failed to poll job " ++ jobId ++ ": " ++ describe err)
         (Some "error") ;;
       stopJobPolling jobId ;;
       pendingDelete jobId).

(** [setInterval(() => pollJob(jobId, options), POLL_INTERVAL)]: a fresh
    handle, greater than zero, for a timer that holds [jobId] and
    [options]. *)
Definition setInterval (jobId : string) (options : PollOptions) : M State positive :=
  fun st =>
    let timer := nextTimer st in
    (set_nextTimer (Pos.succ timer)
       (set_timers (<[timer := (jobId, options)]> (timers st)) st),
     Returned timer).

(** [startJobPolling(jobId, options)], lines 1519-1526. *)
Definition startJobPolling (jobId : string) (options : PollOptions) : M State unit :=
  st <- getState ;;
  if negb (truthy jobId) || bool_decide (is_Some (pollers st !! jobId)) then ret tt
  else
    pollJob_start jobId ;;
    timer <- setInterval jobId options ;;
    modify (fun st => set_pollers (<[jobId := timer]> (pollers st)) st).

(** The callback of the interval [timer] runs: a cleared timer has none. *)
Definition timerFires (timer : positive) : M State unit :=
  st <- getState ;;
  match timers st !! timer with
  | Some (jobId, _) => pollJob_start jobId ;; ret tt
  | None => ret tt
  end.

(** [cancelJob(jobId)], lines 1528-1570, up to its first [await].  Returns
    whether the cancel request went out. *)
Definition cancelJob_start (jobId : string) : M State bool :=
  if negb (truthy jobId) then ret false else
  pending <- pendingHas jobId ;;
  if pending then ret false else
  pendingAdd jobId ;;
  renderDownloads ;;
  modify (fun st => set_requests (requests st ++ [PostCancel jobId])%list st) ;;
  ret true.

(** The rest of [cancelJob(jobId)], run when the answer is there. *)
Definition cancelJob_resume (now : Date) (jobId : string)
    (fetched : Fetched JobData) : M State unit :=
  tryCatch
    (match fetched with
     | FetchRejected err => throw err
     | Responded ok status body =>
         let data := match body with inr d => Some d | inl _ => None end in
         if negb ok then
           let message :=
             match data with
             | Some d =>
                 if truthyOpt (data_message d) then default "" (data_message d)
                 else if truthyOpt (data_error d) then default "" (data_error d)
                 else "HTTP " ++ pretty status
             | None => "HTTP " ++ pretty status
             end in
           appendConsoleLine
             ("ERROR: Failed to cancel job " ++ jobId ++ ": " ++ message)
             (Some "error") ;;
           pendingDelete jobId ;;
           renderDownloads
         else
           match data with
           | Some d =>
               when (truthyOpt (data_message d))
                    (appendConsoleLine (default "" (data_message d)) None)
           | None => ret tt
           end ;;
           let job :=
             match data with
             | Some d =>
                 match data_job d with
                 | Some raw => normaliseJob now raw
                 | None => None
                 end
             | None => None
             end in
           match job with
           | Some entry => upsertDownload now entry
           | None => renderDownloads
           end ;;
           startJobPolling jobId noOptions
     end)
    (fun err =>
       appendConsoleLine
         ("ERROR: Failed to cancel job " ++ jobId ++ ": " ++ describe err)
         (Some "error") ;;
       pendingDelete jobId ;;
       renderDownloads).

End WithDateParser.

End Panel.

(** ** The first script: [static/script.js] *)

Module StaticScript.
Import Js Effects.
Import Panel (Date, Entry, JobUpdate, MAX_DOWNLOAD_ENTRIES).

(** The object kept in [jobPollers] for a job: its flag and its timer. *)
Record PollerInfo := { showConsole : bool; timer : option positive }.

(** The module variables [downloadEntries] and [jobPollers], the list element
    of the page with the entries it shows (no entry: the empty-state line),
    and the timers and requests of the browser.  A timer holds the job id of
    its [tick]; a request holds the job id and the [showConsole] argument of
    the [pollJob] call that made it. *)
Record State := {
  downloadEntries : list Entry;
  jobPollers : gmap string PollerInfo;
  downloadsList : option (list Entry);
  timers : gmap positive string;
  nextTimer : positive;
  requests : list (string * bool) }.

Definition set_downloadEntries (v : list Entry) (st : State) : State :=
  {| downloadEntries := v; jobPollers := jobPollers st;
     downloadsList := downloadsList st; timers := timers st;
     nextTimer := nextTimer st; requests := requests st |}.

Definition set_jobPollers (v : gmap string PollerInfo) (st : State) : State :=
  {| downloadEntries := downloadEntries st; jobPollers := v;
     downloadsList := downloadsList st; timers := timers st;
     nextTimer := nextTimer st; requests := requests st |}.

Definition set_downloadsList (v : option (list Entry)) (st : State) : State :=
  {| downloadEntries := downloadEntries st; jobPollers := jobPollers st;
     downloadsList := v; timers := timers st; nextTimer := nextTimer st;
     requests := requests st |}.

Definition set_timers (v : gmap positive string) (st : State) : State :=
  {| downloadEntries := downloadEntries st; jobPollers := jobPollers st;
     downloadsList := downloadsList st; timers := v;
     nextTimer := nextTimer st; requests := requests st |}.

Definition set_nextTimer (v : positive) (st : State) : State :=
  {| downloadEntries := downloadEntries st; jobPollers := jobPollers st;
     downloadsList := downloadsList st; timers := timers st; nextTimer := v;
     requests := requests st |}.

Definition set_requests (v : list (string * bool)) (st : State) : State :=
  {| downloadEntries := downloadEntries st; jobPollers := jobPollers st;
     downloadsList := downloadsList st; timers := timers st;
     nextTimer := nextTimer st; requests := v |}.

Definition initialState : State :=
  {| downloadEntries := []; jobPollers := ∅; downloadsList := Some [];
     timers := ∅; nextTimer := 1%positive; requests := [] |}.

Definition renderDownloads (st : State) : State :=
  match downloadsList st with
  | None => st
  | Some _ => set_downloadsList (Some (downloadEntries st)) st
  end.

(** [options.position] *)
Inductive Position := AtStart | AtEnd.

Definition mergeEntry (existing : Entry) (id : string) (update : JobUpdate)
    (now : Date) : Entry :=
  {| Panel.e_id := id;
     Panel.e_label :=
       match Panel.u_label update with Some l => Some l | None => Panel.e_label existing end;
     Panel.e_status :=
       match Panel.u_status update with Some x => Some x | None => Panel.e_status existing end;
     Panel.e_progress := default (Panel.e_progress existing) (Panel.u_progress update);
     Panel.e_metadata := default (Panel.e_metadata existing) (Panel.u_metadata update);
     Panel.e_subtitle := default (Panel.e_subtitle existing) (Panel.u_subtitle update);
     Panel.e_message := default (Panel.e_message existing) (Panel.u_message update);
     Panel.e_startedAt := Panel.e_startedAt existing;
     Panel.e_updatedAt := default now (Panel.u_updatedAt update) |}.

Definition newEntry (id : string) (update : JobUpdate) (now : Date) : Entry :=
  {| Panel.e_id := id;
     Panel.e_label := Panel.u_label update;
     Panel.e_status := Panel.u_status update;
     Panel.e_metadata := default [] (Panel.u_metadata update);
     Panel.e_subtitle := default "" (Panel.u_subtitle update);
     Panel.e_message := default "" (Panel.u_message update);
     Panel.e_progress := default 0 (Panel.u_progress update);
     Panel.e_startedAt := default now (Panel.u_startedAt update);
     Panel.e_updatedAt := default now (Panel.u_updatedAt update) |}.

(** [upsertDownload(update, options)], lines 173-212 of [static/script.js],
    with [now] the reading of the clock. *)
Definition upsertDownload (now : Date) (update : JobUpdate) (position : Position)
    (st : State) : State :=
  match downloadsList st, Panel.u_id update with
  | Some _, Some id =>
      if negb (truthy id) then st else
      match findEntry (fun item => String.eqb (Panel.e_id item) id) (downloadEntries st) with
      | Some (index, existing) =>
          let nextEntry := mergeEntry existing id update now in
          renderDownloads
            (set_downloadEntries (<[index := nextEntry]> (downloadEntries st)) st)
      | None =>
          let entry := newEntry id update now in
          let entries :=
            match position with
            | AtEnd => (downloadEntries st ++ [entry])%list
            | AtStart => entry :: downloadEntries st
            end in
          let entries :=
            if (MAX_DOWNLOAD_ENTRIES <? length entries)%nat
            then take MAX_DOWNLOAD_ENTRIES entries else entries in
          renderDownloads (set_downloadEntries entries st)
      end
  | _, _ => st
  end.

(** [stopJobPolling(jobId)], lines 230-236 of [static/script.js]. *)
Definition stopJobPolling (jobId : string) (st : State) : State :=
  let st :=
    match jobPollers st !! jobId with
    | Some {| timer := Some t |} => set_timers (delete t (timers st)) st
    | _ => st
    end in
  set_jobPollers (delete jobId (jobPollers st)) st.

(** [pollJob(jobId, showConsole)] up to the call of [fetch]. *)
Definition pollJob_start (jobId : string) (showConsole : bool) (st : State) : State :=
  if negb (truthy jobId) then st
  else set_requests (requests st ++ [(jobId, showConsole)])%list st.

(** [beginJobPolling(jobId, showConsole)], lines 298-321 of
    [static/script.js]. *)
Definition beginJobPolling (jobId : string) (showConsole : bool) (st : State) : State :=
  if negb (truthy jobId) then st else
  match jobPollers st !! jobId with
  | Some existing =>
      if showConsole then
        set_jobPollers
          (<[jobId := {| showConsole := true; timer := timer existing |}]> (jobPollers st)) st
      else st
  | None =>
      let t := nextTimer st in
      let info := {| showConsole := showConsole; timer := Some t |} in
      let st := set_nextTimer (Pos.succ t) (set_timers (<[t := jobId]> (timers st)) st) in
      let st := set_jobPollers (<[jobId := info]> (jobPollers st)) st in
      pollJob_start jobId showConsole st
  end.

(** The [tick] of the interval [t] runs: a cleared timer has none. *)
Definition timerFires (t : positive) (st : State) : State :=
  match timers st !! t with
  | Some jobId =>
      let shouldShow :=
        match jobPollers st !! jobId with
        | Some current => showConsole current
        | None => false
        end in
      pollJob_start jobId shouldShow st
  | None => st
  end.

End StaticScript.

(** ** The search flows *)

(** *** The YouTube video search *)

Module YouTubeSearch.
Import Js Effects.
Local Open Scope js_scope.

Definition YT_SEARCH_MIN_QUERY_LENGTH : nat := 3.

(** A result of [/youtube/search], as far as the script reads it here. *)
Record Video := { url : option string; video_title : option string }.

(** The decoded body of [/youtube/search]. *)
Record SearchData := { data_results : option (list Video); data_cached : bool }.

(** The feedback element: its text, its [hidden] flag, its [data-state]. *)
Record Feedback := { fb_text : string; fb_hidden : bool; fb_state : option string }.

(** [state.youtubeSearch]; the elements of the page the flow reads and writes
    (the input with its value, the button with its [disabled] flag, the
    feedback line, the result list with the results it shows); and the
    browser: whether it has [AbortController], the controllers made and
    aborted, the pending debounce timeouts with the query each holds, and the
    requests made, each with its query and its signal. *)
Record State := {
  timeout : option positive;
  token : Z;
  controller : option positive;
  loading : bool;
  results : list Video;
  ytSearchInput : option string;
  ytSearchButton : option bool;
  ytSearchFeedback : option Feedback;
  ytSearchResults : option (list Video);
  abortSupported : bool;
  nextController : positive;
  aborted : gset positive;
  timeouts : gmap positive string;
  nextTimer : positive;
  requests : list (string * option positive) }.

Definition set_timeout (v : option positive) (st : State) : State :=
  {| timeout := v; token := token st; controller := controller st;
     loading := loading st; results := results st;
     ytSearchInput := ytSearchInput st; ytSearchButton := ytSearchButton st;
     ytSearchFeedback := ytSearchFeedback st;
     ytSearchResults := ytSearchResults st;
     abortSupported := abortSupported st;
     nextController := nextController st; aborted := aborted st;
     timeouts := timeouts st; nextTimer := nextTimer st;
     requests := requests st |}.

Definition set_token (v : Z) (st : State) : State :=
  {| timeout := timeout st; token := v; controller := controller st;
     loading := loading st; results := results st;
     ytSearchInput := ytSearchInput st; ytSearchButton := ytSearchButton st;
     ytSearchFeedback := ytSearchFeedback st;
     ytSearchResults := ytSearchResults st;
     abortSupported := abortSupported st;
     nextController := nextController st; aborted := aborted st;
     timeouts := timeouts st; nextTimer := nextTimer st;
     requests := requests st |}.

Definition set_controller (v : option positive) (st : State) : State :=
  {| timeout := timeout st; token := token st; controller := v;
     loading := loading st; results := results st;
     ytSearchInput := ytSearchInput st; ytSearchButton := ytSearchButton st;
     ytSearchFeedback := ytSearchFeedback st;
     ytSearchResults := ytSearchResults st;
     abortSupported := abortSupported st;
     nextController := nextController st; aborted := aborted st;
     timeouts := timeouts st; nextTimer := nextTimer st;
     requests := requests st |}.

Definition set_loading (v : bool) (st : State) : State :=
  {| timeout := timeout st; token := token st; controller := controller st;
     loading := v; results := results st; ytSearchInput := ytSearchInput st;
     ytSearchButton := ytSearchButton st;
     ytSearchFeedback := ytSearchFeedback st;
     ytSearchResults := ytSearchResults st;
     abortSupported := abortSupported st;
     nextController := nextController st; aborted := aborted st;
     timeouts := timeouts st; nextTimer := nextTimer st;
     requests := requests st |}.

Definition set_results (v : list Video) (st : State) : State :=
  {| timeout := timeout st; token := token st; controller := controller st;
     loading := loading st; results := v; ytSearchInput := ytSearchInput st;
     ytSearchButton := ytSearchButton st;
     ytSearchFeedback := ytSearchFeedback st;
     ytSearchResults := ytSearchResults st;
     abortSupported := abortSupported st;
     nextController := nextController st; aborted := aborted st;
     timeouts := timeouts st; nextTimer := nextTimer st;
     requests := requests st |}.

Definition set_ytSearchInput (v : option string) (st : State) : State :=
  {| timeout := timeout st; token := token st; controller := controller st;
     loading := loading st; results := results st; ytSearchInput := v;
     ytSearchButton := ytSearchButton st;
     ytSearchFeedback := ytSearchFeedback st;
     ytSearchResults := ytSearchResults st;
     abortSupported := abortSupported st;
     nextController := nextController st; aborted := aborted st;
     timeouts := timeouts st; nextTimer := nextTimer st;
     requests := requests st |}.

Definition set_ytSearchButton (v : option bool) (st : State) : State :=
  {| timeout := timeout st; token := token st; controller := controller st;
     loading := loading st; results := results st;
     ytSearchInput := ytSearchInput st; ytSearchButton := v;
     ytSearchFeedback := ytSearchFeedback st;
     ytSearchResults := ytSearchResults st;
     abortSupported := abortSupported st;
     nextController := nextController st; aborted := aborted st;
     timeouts := timeouts st; nextTimer := nextTimer st;
     requests := requests st |}.

Definition set_ytSearchFeedback (v : option Feedback) (st : State) : State :=
  {| timeout := timeout st; token := token st; controller := controller st;
     loading := loading st; results := results st;
     ytSearchInput := ytSearchInput st; ytSearchButton := ytSearchButton st;
     ytSearchFeedback := v; ytSearchResults := ytSearchResults st;
     abortSupported := abortSupported st;
     nextController := nextController st; aborted := aborted st;
     timeouts := timeouts st; nextTimer := nextTimer st;
     requests := requests st |}.

Definition set_ytSearchResults (v : option (list Video)) (st : State) : State :=
  {| timeout := timeout st; token := token st; controller := controller st;
     loading := loading st; results := results st;
     ytSearchInput := ytSearchInput st; ytSearchButton := ytSearchButton st;
     ytSearchFeedback := ytSearchFeedback st; ytSearchResults := v;
     abortSupported := abortSupported st;
     nextController := nextController st; aborted := aborted st;
     timeouts := timeouts st; nextTimer := nextTimer st;
     requests := requests st |}.

Definition set_abortSupported (v : bool) (st : State) : State :=
  {| timeout := timeout st; token := token st; controller := controller st;
     loading := loading st; results := results st;
     ytSearchInput := ytSearchInput st; ytSearchButton := ytSearchButton st;
     ytSearchFeedback := ytSearchFeedback st;
     ytSearchResults := ytSearchResults st; abortSupported := v;
     nextController := nextController st; aborted := aborted st;
     timeouts := timeouts st; nextTimer := nextTimer st;
     requests := requests st |}.

Definition set_nextController (v : positive) (st : State) : State :=
  {| timeout := timeout st; token := token st; controller := controller st;
     loading := loading st; results := results st;
     ytSearchInput := ytSearchInput st; ytSearchButton := ytSearchButton st;
     ytSearchFeedback := ytSearchFeedback st;
     ytSearchResults := ytSearchResults st;
     abortSupported := abortSupported st; nextController := v;
     aborted := aborted st; timeouts := timeouts st;
     nextTimer := nextTimer st; requests := requests st |}.

Definition set_aborted (v : gset positive) (st : State) : State :=
  {| timeout := timeout st; token := token st; controller := controller st;
     loading := loading st; results := results st;
     ytSearchInput := ytSearchInput st; ytSearchButton := ytSearchButton st;
     ytSearchFeedback := ytSearchFeedback st;
     ytSearchResults := ytSearchResults st;
     abortSupported := abortSupported st;
     nextController := nextController st; aborted := v;
     timeouts := timeouts st; nextTimer := nextTimer st;
     requests := requests st |}.

Definition set_timeouts (v : gmap positive string) (st : State) : State :=
  {| timeout := timeout st; token := token st; controller := controller st;
     loading := loading st; results := results st;
     ytSearchInput := ytSearchInput st; ytSearchButton := ytSearchButton st;
     ytSearchFeedback := ytSearchFeedback st;
     ytSearchResults := ytSearchResults st;
     abortSupported := abortSupported st;
     nextController := nextController st; aborted := aborted st;
     timeouts := v; nextTimer := nextTimer st; requests := requests st |}.

Definition set_nextTimer (v : positive) (st : State) : State :=
  {| timeout := timeout st; token := token st; controller := controller st;
     loading := loading st; results := results st;
     ytSearchInput := ytSearchInput st; ytSearchButton := ytSearchButton st;
     ytSearchFeedback := ytSearchFeedback st;
     ytSearchResults := ytSearchResults st;
     abortSupported := abortSupported st;
     nextController := nextController st; aborted := aborted st;
     timeouts := timeouts st; nextTimer := v; requests := requests st |}.

Definition set_requests (v : list (string * option positive)) (st : State) : State :=
  {| timeout := timeout st; token := token st; controller := controller st;
     loading := loading st; results := results st;
     ytSearchInput := ytSearchInput st; ytSearchButton := ytSearchButton st;
     ytSearchFeedback := ytSearchFeedback st;
     ytSearchResults := ytSearchResults st;
     abortSupported := abortSupported st;
     nextController := nextController st; aborted := aborted st;
     timeouts := timeouts st; nextTimer := nextTimer st; requests := v |}.

Definition initialState (abortSupported : bool) : State :=
  {| timeout := None; token := 0; controller := None; loading := false;
     results := []; ytSearchInput := Some ""; ytSearchButton := Some false;
     ytSearchFeedback := Some {| fb_text := ""; fb_hidden := true; fb_state := None |};
     ytSearchResults := Some []; abortSupported := abortSupported;
     nextController := 1%positive; aborted := ∅; timeouts := ∅;
     nextTimer := 1%positive; requests := [] |}.

Definition clearYouTubeSearchTimer : M State unit :=
  st <- getState ;;
  match timeout st with
  | Some t =>
      modify (fun st => set_timeouts (delete t (timeouts st)) st) ;;
      modify (set_timeout None)
  | None => ret tt
  end.

Definition abortYouTubeSearch : M State unit :=
  st <- getState ;;
  match controller st with
  | Some c => modify (fun st => set_aborted ({[c]} ∪ aborted st) st)
  | None => ret tt
  end ;;
  modify (set_controller None).

Definition setYouTubeSearchLoading (isLoading : bool) : M State unit :=
  modify (set_loading isLoading) ;;
  modify (fun st =>
    match ytSearchButton st with
    | Some _ => set_ytSearchButton (Some isLoading) st
    | None => st
    end).

Definition setYouTubeSearchFeedback (message : string) (type : option string)
  : M State unit :=
  modify (fun st =>
    match ytSearchFeedback st with
    | None => st
    | Some _ =>
        if negb (truthy message) then
          set_ytSearchFeedback
            (Some {| fb_text := ""; fb_hidden := true; fb_state := None |}) st
        else
          set_ytSearchFeedback
            (Some {| fb_text := message; fb_hidden := false;
                     fb_state := if truthyOpt type then type else None |}) st
    end).

(** The children of the result list: one per result that has a [url]. *)
Definition renderYouTubeSearchResults : M State unit :=
  modify (fun st =>
    match ytSearchResults st with
    | None => st
    | Some _ =>
        set_ytSearchResults
          (Some (List.filter (fun result => truthyOpt (url result)) (results st))) st
    end).

Definition clearYouTubeSearchResults : M State unit :=
  modify (set_results []) ;;
  renderYouTubeSearchResults.

(** What an unfinished [performYouTubeSearch] waits for. *)
Inductive Waiting := Done | AwaitFetch | AwaitJson.

(** [catch (err) { ... }] of [performYouTubeSearch] *)
Definition searchCatch (token' : Z) (err : Thrown) : M State unit :=
  st <- getState ;;
  if negb (token' =? token st) then ret tt else
  let isAbort := String.eqb (name err) "AbortError" in
  when (negb isAbort)
       (setYouTubeSearchFeedback ("Failed to search YouTube: " ++ describe err)
                                 (Some "error") ;;
        clearYouTubeSearchResults).

(** [finally { ... }] of [performYouTubeSearch] *)
Definition searchFinally (token' : Z) : M State unit :=
  st <- getState ;;
  when (token' =? token st)
       (setYouTubeSearchLoading false ;; modify (set_controller None)).

(** [performYouTubeSearch(query, token)], lines 404-464, up to the [await]
    of [fetch]. *)
Definition performYouTubeSearch_start (query : string) (token' : Z)
  : M State Waiting :=
  if negb (truthy query) || (String.length query <? YT_SEARCH_MIN_QUERY_LENGTH)%nat then
    clearYouTubeSearchResults ;;
    setYouTubeSearchFeedback "Enter at least 3 characters to search YouTube."
                             (Some "info") ;;
    ret Done
  else
    abortYouTubeSearch ;;
    setYouTubeSearchLoading true ;;
    setYouTubeSearchFeedback "Searching YouTube…" None ;;
    st <- getState ;;
    let made := if abortSupported st then Some (nextController st) else None in
    when (abortSupported st)
         (modify (fun st => set_nextController (Pos.succ (nextController st)) st)) ;;
    modify (set_controller made) ;;
    modify (fun st => set_requests (requests st ++ [(query, made)])%list st) ;;
    ret AwaitFetch.

(** From the answer of [fetch] to the [await] of [response.json()], or to the
    end when the function returns or throws before it.  [answer] is the
    rejection of [fetch], or [ok] and [status] of the response. *)
Definition performYouTubeSearch_afterFetch (token' : Z)
    (answer : Thrown + bool * Z) : M State Waiting :=
  st <- getState ;;
  match answer with
  | inl err =>
      tryFinally (searchCatch token' err) (searchFinally token') ;; ret Done
  | inr (ok, status) =>
      if negb (token' =? token st) then searchFinally token' ;; ret Done
      else if negb ok then
        tryFinally (searchCatch token' (mkError ("HTTP " ++ pretty status)))
                   (searchFinally token') ;;
        ret Done
      else ret AwaitJson
  end.

(** From the answer of [response.json()] to the end. *)
Definition performYouTubeSearch_afterJson (token' : Z)
    (body : Thrown + SearchData) : M State unit :=
  tryFinally
    (tryCatch
       (match body with
        | inl err => throw err
        | inr data =>
            let found := default [] (data_results data) in
            modify (set_results found) ;;
            (if (length found =? 0)%nat then
               setYouTubeSearchFeedback "No results found for that query."
                                        (Some "warning")
             else if data_cached data then
               setYouTubeSearchFeedback "Showing cached results." (Some "success")
             else setYouTubeSearchFeedback "Search complete." (Some "success")) ;;
            renderYouTubeSearchResults
        end)
       (searchCatch token'))
    (searchFinally token').

(** [scheduleYouTubeSearch(options)], lines 466-483; returns the token of
    the search it started at once, if it did. *)
Definition scheduleYouTubeSearch (immediate : bool) : M State (option Z) :=
  st <- getState ;;
  match ytSearchInput st with
  | None => ret None
  | Some value =>
      clearYouTubeSearchTimer ;;
      let query := trim value in
      if immediate then
        modify (fun st => set_token (token st + 1) st) ;;
        st <- getState ;;
        performYouTubeSearch_start query (token st) ;;
        ret (Some (token st))
      else
        st <- getState ;;
        let t := nextTimer st in
        modify (fun st => set_nextTimer (Pos.succ t)
                            (set_timeouts (<[t := query]> (timeouts st)) st)) ;;
        modify (set_timeout (Some t)) ;;
        ret None
  end.

(** The callback of the debounce timeout [t] runs. *)
Definition timeoutFires (t : positive) : M State (option Z) :=
  st <- getState ;;
  match timeouts st !! t with
  | None => ret None
  | Some query =>
      modify (fun st => set_timeouts (delete t (timeouts st)) st) ;;
      modify (set_timeout None) ;;
      modify (fun st => set_token (token st + 1) st) ;;
      st <- getState ;;
      performYouTubeSearch_start query (token st) ;;
      ret (Some (token st))
  end.

End YouTubeSearch.

(** *** The Radarr catalog search of the add-movie dialog *)

Module AddMovieSearch.
Import Js Effects.
Local Open Scope js_scope.

(** A result of [/radarr/search], as far as the script reads it here. *)
Record Movie := { tmdbId : option Z; movie_title : option string }.

(** The decoded body of [/radarr/search]. *)
Record SearchData := { data_results : option (list Movie); data_error : option string }.

(** The status line: its text and its [is-<type>] class. *)
Record Status := { status_text : string; status_class : option string }.

(** [state.addMovie] (the element that had the focus apart); the elements of
    the page: the dialog with its [hidden] flag, the search input with its
    value, the status line, the result list with the movies it shows, the
    confirm button with its [disabled] flag; and the browser: the pending
    debounce timeouts with the query each holds, and the queries sent. *)
Record State := {
  modalOpen : bool;
  searchTimeout : option positive;
  searchToken : Z;
  loading : bool;
  results : list Movie;
  selectedIndex : Z;
  selectedMovie : option Movie;
  adding : bool;
  query : string;
  addMovieModal : option bool;
  addMovieSearchInput : option string;
  addMovieStatus : option Status;
  addMovieResults : option (list Movie);
  addMovieConfirmButton : option bool;
  timeouts : gmap positive string;
  nextTimer : positive;
  requests : list string }.

Definition set_modalOpen (v : bool) (st : State) : State :=
  {| modalOpen := v; searchTimeout := searchTimeout st;
     searchToken := searchToken st; loading := loading st;
     results := results st; selectedIndex := selectedIndex st;
     selectedMovie := selectedMovie st; adding := adding st;
     query := query st; addMovieModal := addMovieModal st;
     addMovieSearchInput := addMovieSearchInput st;
     addMovieStatus := addMovieStatus st;
     addMovieResults := addMovieResults st;
     addMovieConfirmButton := addMovieConfirmButton st;
     timeouts := timeouts st; nextTimer := nextTimer st;
     requests := requests st |}.

Definition set_searchTimeout (v : option positive) (st : State) : State :=
  {| modalOpen := modalOpen st; searchTimeout := v;
     searchToken := searchToken st; loading := loading st;
     results := results st; selectedIndex := selectedIndex st;
     selectedMovie := selectedMovie st; adding := adding st;
     query := query st; addMovieModal := addMovieModal st;
     addMovieSearchInput := addMovieSearchInput st;
     addMovieStatus := addMovieStatus st;
     addMovieResults := addMovieResults st;
     addMovieConfirmButton := addMovieConfirmButton st;
     timeouts := timeouts st; nextTimer := nextTimer st;
     requests := requests st |}.

Definition set_searchToken (v : Z) (st : State) : State :=
  {| modalOpen := modalOpen st; searchTimeout := searchTimeout st;
     searchToken := v; loading := loading st; results := results st;
     selectedIndex := selectedIndex st; selectedMovie := selectedMovie st;
     adding := adding st; query := query st;
     addMovieModal := addMovieModal st;
     addMovieSearchInput := addMovieSearchInput st;
     addMovieStatus := addMovieStatus st;
     addMovieResults := addMovieResults st;
     addMovieConfirmButton := addMovieConfirmButton st;
     timeouts := timeouts st; nextTimer := nextTimer st;
     requests := requests st |}.

Definition set_loading (v : bool) (st : State) : State :=
  {| modalOpen := modalOpen st; searchTimeout := searchTimeout st;
     searchToken := searchToken st; loading := v; results := results st;
     selectedIndex := selectedIndex st; selectedMovie := selectedMovie st;
     adding := adding st; query := query st;
     addMovieModal := addMovieModal st;
     addMovieSearchInput := addMovieSearchInput st;
     addMovieStatus := addMovieStatus st;
     addMovieResults := addMovieResults st;
     addMovieConfirmButton := addMovieConfirmButton st;
     timeouts := timeouts st; nextTimer := nextTimer st;
     requests := requests st |}.

Definition set_results (v : list Movie) (st : State) : State :=
  {| modalOpen := modalOpen st; searchTimeout := searchTimeout st;
     searchToken := searchToken st; loading := loading st; results := v;
     selectedIndex := selectedIndex st; selectedMovie := selectedMovie st;
     adding := adding st; query := query st;
     addMovieModal := addMovieModal st;
     addMovieSearchInput := addMovieSearchInput st;
     addMovieStatus := addMovieStatus st;
     addMovieResults := addMovieResults st;
     addMovieConfirmButton := addMovieConfirmButton st;
     timeouts := timeouts st; nextTimer := nextTimer st;
     requests := requests st |}.

Definition set_selectedIndex (v : Z) (st : State) : State :=
  {| modalOpen := modalOpen st; searchTimeout := searchTimeout st;
     searchToken := searchToken st; loading := loading st;
     results := results st; selectedIndex := v;
     selectedMovie := selectedMovie st; adding := adding st;
     query := query st; addMovieModal := addMovieModal st;
     addMovieSearchInput := addMovieSearchInput st;
     addMovieStatus := addMovieStatus st;
     addMovieResults := addMovieResults st;
     addMovieConfirmButton := addMovieConfirmButton st;
     timeouts := timeouts st; nextTimer := nextTimer st;
     requests := requests st |}.

Definition set_selectedMovie (v : option Movie) (st : State) : State :=
  {| modalOpen := modalOpen st; searchTimeout := searchTimeout st;
     searchToken := searchToken st; loading := loading st;
     results := results st; selectedIndex := selectedIndex st;
     selectedMovie := v; adding := adding st; query := query st;
     addMovieModal := addMovieModal st;
     addMovieSearchInput := addMovieSearchInput st;
     addMovieStatus := addMovieStatus st;
     addMovieResults := addMovieResults st;
     addMovieConfirmButton := addMovieConfirmButton st;
     timeouts := timeouts st; nextTimer := nextTimer st;
     requests := requests st |}.

Definition set_adding (v : bool) (st : State) : State :=
  {| modalOpen := modalOpen st; searchTimeout := searchTimeout st;
     searchToken := searchToken st; loading := loading st;
     results := results st; selectedIndex := selectedIndex st;
     selectedMovie := selectedMovie st; adding := v; query := query st;
     addMovieModal := addMovieModal st;
     addMovieSearchInput := addMovieSearchInput st;
     addMovieStatus := addMovieStatus st;
     addMovieResults := addMovieResults st;
     addMovieConfirmButton := addMovieConfirmButton st;
     timeouts := timeouts st; nextTimer := nextTimer st;
     requests := requests st |}.

Definition set_query (v : string) (st : State) : State :=
  {| modalOpen := modalOpen st; searchTimeout := searchTimeout st;
     searchToken := searchToken st; loading := loading st;
     results := results st; selectedIndex := selectedIndex st;
     selectedMovie := selectedMovie st; adding := adding st; query := v;
     addMovieModal := addMovieModal st;
     addMovieSearchInput := addMovieSearchInput st;
     addMovieStatus := addMovieStatus st;
     addMovieResults := addMovieResults st;
     addMovieConfirmButton := addMovieConfirmButton st;
     timeouts := timeouts st; nextTimer := nextTimer st;
     requests := requests st |}.

Definition set_addMovieModal (v : option bool) (st : State) : State :=
  {| modalOpen := modalOpen st; searchTimeout := searchTimeout st;
     searchToken := searchToken st; loading := loading st;
     results := results st; selectedIndex := selectedIndex st;
     selectedMovie := selectedMovie st; adding := adding st;
     query := query st; addMovieModal := v;
     addMovieSearchInput := addMovieSearchInput st;
     addMovieStatus := addMovieStatus st;
     addMovieResults := addMovieResults st;
     addMovieConfirmButton := addMovieConfirmButton st;
     timeouts := timeouts st; nextTimer := nextTimer st;
     requests := requests st |}.

Definition set_addMovieSearchInput (v : option string) (st : State) : State :=
  {| modalOpen := modalOpen st; searchTimeout := searchTimeout st;
     searchToken := searchToken st; loading := loading st;
     results := results st; selectedIndex := selectedIndex st;
     selectedMovie := selectedMovie st; adding := adding st;
     query := query st; addMovieModal := addMovieModal st;
     addMovieSearchInput := v; addMovieStatus := addMovieStatus st;
     addMovieResults := addMovieResults st;
     addMovieConfirmButton := addMovieConfirmButton st;
     timeouts := timeouts st; nextTimer := nextTimer st;
     requests := requests st |}.

Definition set_addMovieStatus (v : option Status) (st : State) : State :=
  {| modalOpen := modalOpen st; searchTimeout := searchTimeout st;
     searchToken := searchToken st; loading := loading st;
     results := results st; selectedIndex := selectedIndex st;
     selectedMovie := selectedMovie st; adding := adding st;
     query := query st; addMovieModal := addMovieModal st;
     addMovieSearchInput := addMovieSearchInput st; addMovieStatus := v;
     addMovieResults := addMovieResults st;
     addMovieConfirmButton := addMovieConfirmButton st;
     timeouts := timeouts st; nextTimer := nextTimer st;
     requests := requests st |}.

Definition set_addMovieResults (v : option (list Movie)) (st : State) : State :=
  {| modalOpen := modalOpen st; searchTimeout := searchTimeout st;
     searchToken := searchToken st; loading := loading st;
     results := results st; selectedIndex := selectedIndex st;
     selectedMovie := selectedMovie st; adding := adding st;
     query := query st; addMovieModal := addMovieModal st;
     addMovieSearchInput := addMovieSearchInput st;
     addMovieStatus := addMovieStatus st; addMovieResults := v;
     addMovieConfirmButton := addMovieConfirmButton st;
     timeouts := timeouts st; nextTimer := nextTimer st;
     requests := requests st |}.

Definition set_addMovieConfirmButton (v : option bool) (st : State) : State :=
  {| modalOpen := modalOpen st; searchTimeout := searchTimeout st;
     searchToken := searchToken st; loading := loading st;
     results := results st; selectedIndex := selectedIndex st;
     selectedMovie := selectedMovie st; adding := adding st;
     query := query st; addMovieModal := addMovieModal st;
     addMovieSearchInput := addMovieSearchInput st;
     addMovieStatus := addMovieStatus st;
     addMovieResults := addMovieResults st; addMovieConfirmButton := v;
     timeouts := timeouts st; nextTimer := nextTimer st;
     requests := requests st |}.

Definition set_timeouts (v : gmap positive string) (st : State) : State :=
  {| modalOpen := modalOpen st; searchTimeout := searchTimeout st;
     searchToken := searchToken st; loading := loading st;
     results := results st; selectedIndex := selectedIndex st;
     selectedMovie := selectedMovie st; adding := adding st;
     query := query st; addMovieModal := addMovieModal st;
     addMovieSearchInput := addMovieSearchInput st;
     addMovieStatus := addMovieStatus st;
     addMovieResults := addMovieResults st;
     addMovieConfirmButton := addMovieConfirmButton st; timeouts := v;
     nextTimer := nextTimer st; requests := requests st |}.

Definition set_nextTimer (v : positive) (st : State) : State :=
  {| modalOpen := modalOpen st; searchTimeout := searchTimeout st;
     searchToken := searchToken st; loading := loading st;
     results := results st; selectedIndex := selectedIndex st;
     selectedMovie := selectedMovie st; adding := adding st;
     query := query st; addMovieModal := addMovieModal st;
     addMovieSearchInput := addMovieSearchInput st;
     addMovieStatus := addMovieStatus st;
     addMovieResults := addMovieResults st;
     addMovieConfirmButton := addMovieConfirmButton st;
     timeouts := timeouts st; nextTimer := v; requests := requests st |}.

Definition set_requests (v : list string) (st : State) : State :=
  {| modalOpen := modalOpen st; searchTimeout := searchTimeout st;
     searchToken := searchToken st; loading := loading st;
     results := results st; selectedIndex := selectedIndex st;
     selectedMovie := selectedMovie st; adding := adding st;
     query := query st; addMovieModal := addMovieModal st;
     addMovieSearchInput := addMovieSearchInput st;
     addMovieStatus := addMovieStatus st;
     addMovieResults := addMovieResults st;
     addMovieConfirmButton := addMovieConfirmButton st;
     timeouts := timeouts st; nextTimer := nextTimer st; requests := v |}.

Definition initialState : State :=
  {| modalOpen := false; searchTimeout := None; searchToken := 0;
     loading := false; results := []; selectedIndex := -1;
     selectedMovie := None; adding := false; query := "";
     addMovieModal := Some true; addMovieSearchInput := Some "";
     addMovieStatus := Some {| status_text := ""; status_class := None |};
     addMovieResults := Some []; addMovieConfirmButton := Some true;
     timeouts := ∅; nextTimer := 1%positive; requests := [] |}.

Definition clearAddMovieSearchTimer : M State unit :=
  st <- getState ;;
  match searchTimeout st with
  | Some t =>
      modify (fun st => set_timeouts (delete t (timeouts st)) st) ;;
      modify (set_searchTimeout None)
  | None => ret tt
  end.

Definition setAddMovieStatus (message : string) (type : string) : M State unit :=
  modify (fun st =>
    match addMovieStatus st with
    | None => st
    | Some _ =>
        let text := if truthy message then trim message else "" in
        if negb (truthy text) then
          set_addMovieStatus (Some {| status_text := text; status_class := None |}) st
        else
          let className :=
            if String.eqb type "success" then "is-success"
            else if String.eqb type "error" then "is-error"
            else if String.eqb type "warning" then "is-warning"
            else "is-info" in
          set_addMovieStatus
            (Some {| status_text := text; status_class := Some className |}) st
    end).

(** The preview pane is not part of the state; the confirm button is. *)
Definition clearAddMoviePreview : M State unit :=
  modify (set_selectedMovie None) ;;
  modify (fun st =>
    match addMovieConfirmButton st with
    | Some _ => set_addMovieConfirmButton (Some true) st
    | None => st
    end).

Definition renderAddMovieResults : M State unit :=
  modify (fun st =>
    match addMovieResults st with
    | None => st
    | Some _ => set_addMovieResults (Some (results st)) st
    end).

Definition resetAddMovieState : M State unit :=
  clearAddMovieSearchTimer ;;
  modify (set_loading false) ;;
  modify (set_results []) ;;
  modify (set_selectedIndex (-1)) ;;
  modify (set_selectedMovie None) ;;
  modify (set_adding false) ;;
  modify (set_query "") ;;
  setAddMovieStatus "" "info" ;;
  renderAddMovieResults ;;
  clearAddMoviePreview.

(** [performAddMovieSearch(query)], lines 954-1003, up to the [await] of
    [fetch]; returns the token it took. *)
Definition performAddMovieSearch_start (query' : string) : M State Z :=
  modify (fun st => set_searchToken (searchToken st + 1) st) ;;
  st <- getState ;;
  let token := searchToken st in
  modify (set_loading true) ;;
  setAddMovieStatus "Searching Radarr…" "info" ;;
  modify (fun st =>
    match addMovieConfirmButton st with
    | Some _ => set_addMovieConfirmButton (Some true) st
    | None => st
    end) ;;
  modify (fun st => set_requests (requests st ++ [query'])%list st) ;;
  ret token.

(** What the guarded branches do to the results: empty them on a failure. *)
Definition showFailure (message : string) : M State unit :=
  modify (set_results []) ;;
  modify (set_selectedIndex (-1)) ;;
  modify (set_selectedMovie None) ;;
  renderAddMovieResults ;;
  clearAddMoviePreview ;;
  setAddMovieStatus message "error".

(** The rest of [performAddMovieSearch(query)], run when the answer is
    there: the token is read after both [await]s. *)
Definition performAddMovieSearch_resume (token : Z) (fetched : Fetched SearchData)
  : M State unit :=
  tryFinally
    (tryCatch
       (match fetched with
        | FetchRejected err => throw err
        | Responded ok status body =>
            let data :=
              match body with
              | inr d => d
              | inl _ => {| data_results := None; data_error := None |}
              end in
            st <- getState ;;
            if negb (token =? searchToken st) then ret tt
            else if negb ok then
              showFailure
                (if truthyOpt (data_error data) then default "" (data_error data)
                 else "Search failed (HTTP " ++ pretty status ++ ").")
            else
              let found :=
                List.filter
                  (fun item => match tmdbId item with
                               | Some n => negb (n =? 0)
                               | None => false
                               end)
                  (default [] (data_results data)) in
              modify (set_results found) ;;
              modify (set_selectedIndex (-1)) ;;
              modify (set_selectedMovie None) ;;
              renderAddMovieResults ;;
              clearAddMoviePreview ;;
              if (length found =? 0)%nat then
                setAddMovieStatus "No matches found in Radarr for that search." "warning"
              else setAddMovieStatus "Select a movie below to add it to Radarr." "info"
        end)
       (fun err =>
          st <- getState ;;
          if negb (token =? searchToken st) then ret tt
          else showFailure ("Failed to search Radarr: " ++ describe err)))
    (st <- getState ;;
     when (token =? searchToken st) (modify (set_loading false))).

(** [scheduleAddMovieSearch(options)], lines 933-952; returns the token of
    the search it started at once, if it did. *)
Definition scheduleAddMovieSearch (immediate : bool) : M State (option Z) :=
  st <- getState ;;
  match addMovieSearchInput st with
  | None => ret None
  | Some value =>
      let query' := trim value in
      modify (set_query query') ;;
      clearAddMovieSearchTimer ;;
      if negb (truthy query') || (String.length query' <? 2)%nat then
        resetAddMovieState ;;
        setAddMovieStatus "Enter at least 2 characters to search Radarr." "info" ;;
        ret None
      else if immediate then
        token <- performAddMovieSearch_start query' ;;
        ret (Some token)
      else
        st <- getState ;;
        let t := nextTimer st in
        modify (fun st => set_nextTimer (Pos.succ t)
                            (set_timeouts (<[t := query']> (timeouts st)) st)) ;;
        modify (set_searchTimeout (Some t)) ;;
        ret None
  end.

(** The callback of the debounce timeout [t] runs. *)
Definition timeoutFires (t : positive) : M State (option Z) :=
  st <- getState ;;
  match timeouts st !! t with
  | None => ret None
  | Some query' =>
      modify (fun st => set_timeouts (delete t (timeouts st)) st) ;;
      token <- performAddMovieSearch_start query' ;;
      ret (Some token)
  end.

(** [openAddMovieModal(initialQuery)], lines 880-903; returns the token of
    the search it started, if it did. *)
Definition openAddMovieModal (initialQuery : string) : M State (option Z) :=
  st <- getState ;;
  match addMovieModal st with
  | None => ret None
  | Some _ =>
      modify (set_modalOpen true) ;;
      modify (set_searchToken 0) ;;
      modify (set_addMovieModal (Some false)) ;;
      resetAddMovieState ;;
      let query' := trim initialQuery in
      match addMovieSearchInput st with
      | Some _ =>
          modify (set_addMovieSearchInput (Some query')) ;;
          if (2 <=? String.length query')%nat then scheduleAddMovieSearch true
          else
            setAddMovieStatus "Enter at least 2 characters to search Radarr." "info" ;;
            ret None
      | None =>
          setAddMovieStatus "Enter at least 2 characters to search Radarr." "info" ;;
          ret None
      end
  end.

(** [closeAddMovieModal()], lines 905-919 (the focus it restores apart). *)
Definition closeAddMovieModal : M State unit :=
  st <- getState ;;
  match addMovieModal st with
  | None => ret tt
  | Some _ =>
      if negb (modalOpen st) then ret tt else
      modify (set_addMovieModal (Some true)) ;;
      resetAddMovieState ;;
      modify (set_modalOpen false)
  end.

End AddMovieSearch.

(** ** Statements: what the properties are measured against *)

Module Spec.
Import Js LogText Effects.

(** [s] with its letters [a]-[z] in capitals. *)
Fixpoint upperAscii (s : string) : string :=
  match s with
  | String c r => String (foldCase c) (upperAscii r)
  | EmptyString => EmptyString
  end.

Fixpoint dropString (n : nat) (s : string) : string :=
  match n, s with
  | O, _ => s
  | S n', String _ r => dropString n' r
  | S _, EmptyString => EmptyString
  end.

Fixpoint allWhiteSpace (s : string) : bool :=
  match s with
  | String c r => isWhiteSpace c && allWhiteSpace r
  | EmptyString => true
  end.

(** The line starts with [tag], whatever the case of its letters, and what
    follows the tag and the white space after it holds no line break: that
    remainder. *)
Definition remainderAfter (tag line : string) : option string :=
  if startsWith (upperAscii line) tag then
    let rest := trimStart (dropString (String.length tag) line) in
    if noLineTerminator rest then Some rest else None
  else None.

(** The classification of a raw line with no forced category, rule by rule on
    the trimmed line. *)
Definition classify (raw : string) : Interpreted :=
  let line := trim raw in
  match remainderAfter "ERROR:" line with
  | Some rest => {| text := if truthy rest then rest else "Error"; type := "error" |}
  | None =>
  match remainderAfter "WARNING:" line with
  | Some rest => {| text := if truthy rest then rest else "Warning"; type := "warning" |}
  | None =>
  match remainderAfter "DEBUG:" line with
  | Some rest => {| text := if truthy rest then rest else "Debug"; type := "debug" |}
  | None =>
  if startsWith line "[download]" then {| text := line; type := "progress" |}
  else if startsWith line "[ffmpeg]" then {| text := line; type := "ffmpeg" |}
  else {| text := raw; type := "info" |}
  end end end.

(** The line as the visibility filter reads it. *)
Definition lowered (line : string) : string := toLowerCase (trim line).

End Spec.

(** Notions about the job store and the pollers that the statements use. *)

Module JobSpec.
Import Js Effects Panel.

(** [downloads.find(item => item.id === id)] *)
Definition lookupJob (id : string) (ds : list Entry) : option Entry :=
  snd <$> findEntry (fun item => String.eqb (e_id item) id) ds.

(** The list that the first step of [upsertDownload] leaves in the store:
    the entry with that id merged in place, or a new entry at the end. *)
Definition storeUpsert (id : string) (update : JobUpdate) (now : Date)
    (ds : list Entry) : list Entry :=
  match findEntry (fun item => String.eqb (e_id item) id) ds with
  | Some (index, existing) => <[index := mergeEntry existing id update now]> ds
  | None => (ds ++ [newEntry id update now])%list
  end.

(** The entry that this step writes for [id]. *)
Definition upserted (id : string) (update : JobUpdate) (now : Date) (ds : list Entry)
  : Entry :=
  match lookupJob id ds with
  | Some existing => mergeEntry existing id update now
  | None => newEntry id update now
  end.

(** A sequence of [upsertDownload] calls, each with its reading of the
    clock, whatever way each call completes. *)
Definition upsertAll (calls : list (Date * JobUpdate)) (st : State) : State :=
  foldl (fun st call => exec (upsertDownload call.1 call.2) st) st calls.

(** The [startedAt] that a sequence of upserts for one id leaves, from the
    stored [startedAt] (if the id is known): each update that carries a
    [startedAt] replaces it, an update that carries none keeps it, and the
    clock fills in when there is nothing to keep. *)
Definition startedAtAfter (stored : option Date) (calls : list (Date * JobUpdate))
  : option Date :=
  foldl (fun stored call => Some (default (default call.1 stored) (u_startedAt call.2)))
        stored calls.

(** The same for [static/script.js]: the first value stays. *)
Definition startedAtPinned (stored : option Date) (calls : list (Date * JobUpdate))
  : option Date :=
  foldl (fun stored call =>
           match stored with
           | Some started => Some started
           | None => Some (default call.1 (u_startedAt call.2))
           end)
        stored calls.

Definition upsertAllStatic (calls : list (Date * JobUpdate)) (st : StaticScript.State)
  : StaticScript.State :=
  foldl (fun st call => StaticScript.upsertDownload call.1 call.2 StaticScript.AtStart st)
        st calls.




(** Every running interval timer is the one that the poller map holds for
    its job: so no job has two. *)
Definition timersRegistered (st : State) : Prop :=
  forall t jobId options,
    timers st !! t = Some (jobId, options) -> pollers st !! jobId = Some t.

(** The same for [static/script.js]. *)
Definition timersRegisteredStatic (st : StaticScript.State) : Prop :=
  forall t jobId,
    StaticScript.timers st !! t = Some jobId ->
    exists info, StaticScript.jobPollers st !! jobId = Some info
                 /\ StaticScript.timer info = Some t.

(** What can happen on the page, as far as the store, the pollers and the
    console go: a call of one of the functions, the firing of an interval
    timer, the arrival of an answer. *)
Inductive Step :=
| Upsert (now : Date) (update : JobUpdate)
| StartPolling (jobId : string) (options : PollOptions)
| StopPolling (jobId : string)
| TimerFires (t : positive)
| PollAnswer (now : Date) (jobId : string) (options : PollOptions)
             (fetched : Fetched JobData)
| CancelClick (jobId : string)
| CancelAnswer (now : Date) (jobId : string) (fetched : Fetched JobData)
| RenderLogLines (lines : list string)
| SetDebugMode (enabled : bool).

Definition step (Date_parse : string -> option Date) (s : Step) (st : State) : State :=
  match s with
  | Upsert now update => exec (upsertDownload now update) st
  | StartPolling jobId options => exec (startJobPolling jobId options) st
  | StopPolling jobId => exec (stopJobPolling jobId) st
  | TimerFires t => exec (timerFires t) st
  | PollAnswer now jobId options fetched =>
      exec (pollJob_resume Date_parse now jobId options fetched) st
  | CancelClick jobId => exec (cancelJob_start jobId) st
  | CancelAnswer now jobId fetched =>
      exec (cancelJob_resume Date_parse now jobId fetched) st
  | RenderLogLines lines => exec (renderLogLines lines) st
  | SetDebugMode enabled => exec (setDebugMode enabled) st
  end.

(** The state after a sequence of steps, each run to its end or to its
    throw. *)
Definition run (Date_parse : string -> option Date) (steps : list Step) (st : State)
  : State :=
  foldl (fun st s => step Date_parse s st) st steps.

(** A step keeps every timer registered if they were. *)
Definition keepsRegistered (st st' : State) : Prop :=
  timersRegistered st -> timersRegistered st'.

Inductive StaticPollerCall :=
| BeginPolling (jobId : string) (showConsole : bool)
| EndPolling (jobId : string).

Definition staticPollerCalls (calls : list StaticPollerCall) (st : StaticScript.State)
  : StaticScript.State :=
  foldl (fun st call =>
           match call with
           | BeginPolling jobId showConsole =>
               StaticScript.beginJobPolling jobId showConsole st
           | EndPolling jobId => StaticScript.stopJobPolling jobId st
           end)
        st calls.

(** The request, if any, that the firing of timer [t] adds. *)
Definition fetchedBy (t : positive) (st : State) : list Request :=
  drop (length (requests st)) (requests (exec (timerFires t) st)).

Definition fetchedByStatic (t : positive) (st : StaticScript.State)
  : list (string * bool) :=
  drop (length (StaticScript.requests st))
       (StaticScript.requests (StaticScript.timerFires t st)).

(** The show-console flag of the poller of [jobId]: in the panel script it is
    held by the options that the running timer was made with. *)
Definition pollerShowsConsole (st : State) (jobId : string) : option bool :=
  match pollers st !! jobId with
  | Some t => (fun held => showConsole held.2) <$> timers st !! t
  | None => None
  end.

(** The store is left as it was. *)
Definition keepsDownloads (st st' : State) : Prop := downloads st' = downloads st.

(** The store has no id twice, and room for the id that is followed: either
    a free place, or the id is in it already. *)
Definition roomFor (id : string) (ds : list Entry) : Prop :=
  NoDup (map e_id ds)
  /\ ((length ds < MAX_DOWNLOAD_ENTRIES)%nat
      \/ ((length ds <= MAX_DOWNLOAD_ENTRIES)%nat /\ is_Some (lookupJob id ds))).

(** The entry that an upsert of [static/script.js] writes for [id]. *)
Definition upsertedStatic (id : string) (update : JobUpdate) (now : Date)
    (ds : list Entry) : Entry :=
  match lookupJob id ds with
  | Some existing => StaticScript.mergeEntry existing id update now
  | None => StaticScript.newEntry id update now
  end.

(** Nothing gives [state.pendingCancellations] a value. *)
Definition staysUndefined (st st' : State) : Prop :=
  pendingCancellations st = None -> pendingCancellations st' = None.






(** A step keeps the ids of the store distinct if they were. *)
Definition keepsDistinct (st st' : State) : Prop :=
  NoDup (map e_id (downloads st)) -> NoDup (map e_id (downloads st')).

(** The parts of the state that the console functions leave alone. *)
Definition sameJobs (st st' : State) : Prop :=
  downloads st' = downloads st
  /\ pollers st' = pollers st
  /\ pendingCancellations st' = pendingCancellations st
  /\ selectedJobId st' = selectedJobId st
  /\ activeConsoleJobId st' = activeConsoleJobId st
  /\ downloadsList st' = downloadsList st
  /\ timers st' = timers st
  /\ nextTimer st' = nextTimer st
  /\ requests st' = requests st.

End JobSpec.

(** Inputs for the examples. *)

Module Samples.
Import Js Effects Panel.
Local Open Scope js_scope.

(** A date parser that finds no date: the sample jobs carry none. *)
Definition noDates : string -> option Date := fun _ => None.

(** A job snapshot with an id, a status and a progress, and nothing else. *)
Definition snapshot (id status : string) (progress : Z) : RawJob :=
  {| job_id := Some id; job_status := Some status; job_progress := Some progress;
     job_label := None; job_subtitle := None; job_metadata := None;
     job_message := None; job_logs := None; job_started_at := None;
     job_created_at := None; job_updated_at := None; job_completed_at := None |}.

(** [entry = normaliseJob(job); if (entry) upsertDownload(entry)], as the
    callers of [upsertDownload] do. *)
Definition trackJob (now : Date) (job : RawJob) : M State unit :=
  match normaliseJob noDates now job with
  | Some entry => upsertDownload now entry
  | None => ret tt
  end.

(** An update that carries an id and a [startedAt] and nothing else. *)
Definition startedUpdate (id : string) (startedAt : option Date) : JobUpdate :=
  {| u_id := Some id; u_label := None; u_subtitle := None; u_status := None;
     u_progress := None; u_metadata := None; u_message := None;
     u_startedAt := startedAt; u_updatedAt := None |}.

(** The upsert that a poll at clock reading [now] makes for [job]. *)
Definition polled (now : Date) (job : RawJob) : list (Date * JobUpdate) :=
  match normaliseJob noDates now job with
  | Some entry => [(now, entry)]
  | None => []
  end.

(** The body that [/jobs/<id>] answers with for a job. *)
Definition jobBody (job : RawJob) : JobData :=
  {| data_debug_mode := None; data_job := Some job;
     data_message := None; data_error := None |}.

(** Nine finished jobs, as a job history would list them. *)
Definition nineFinished : list RawJob :=
  map (fun id => snapshot id "complete" 100)
      [ "j1"; "j2"; "j3"; "j4"; "j5"; "j6"; "j7"; "j8"; "j9" ].

(** One call of [trackJob] per job, at clock readings [1], [2], ...; a call
    that throws does not stop the next one (each is a callback of its own). *)
Definition trackAll (jobs : list RawJob) (st : State) : State :=
  foldl (fun st numbered => exec (trackJob (Z.of_nat numbered.1) numbered.2) st)
        st (imap (fun i job => (S i, job)) jobs).

(** The body that [/jobs/<id>] answers with when it knows no such job. *)
Definition noJobBody : JobData :=
  {| data_debug_mode := None; data_job := None;
     data_message := None; data_error := None |}.

(** The freshly loaded page after the first snapshot of a running job. *)
Definition tracking : State :=
  exec (trackJob 1 (snapshot "j1" "processing" 40)) (initialState false).

(** A stored record of a queued job. *)
Definition queuedEntry : Entry :=
  {| e_id := "j1"; e_label := Some "Radarr Download"; e_subtitle := "";
     e_status := Some "queued"; e_progress := 0; e_metadata := [];
     e_message := ""; e_startedAt := 1; e_updatedAt := 1 |}.

(** The page as it would load if [state] were created with an empty
    [pendingCancellations] set, and that page after the first snapshot of a
    running job and the start of its poller. *)
Definition withSet : State :=
  set_pendingCancellations (Some ∅) (initialState false).

Definition trackingWithSet : State :=
  exec (startJobPolling "j1" noOptions)
       (exec (trackJob 1 (snapshot "j1" "processing" 40)) withSet).

(** The cancel buttons that the downloads list shows. *)
Definition cancelButtons (st : State) : list CancelButton :=
  match downloadsList st with
  | Some children =>
      omap (fun child => match child with
                         | DownloadItem card => card_cancel card
                         | EmptyState => None
                         end) children
  | None => []
  end.

(** A catalog result and a video result, and the answers that carry them. *)
Definition movie (id : Z) : AddMovieSearch.Movie :=
  {| AddMovieSearch.tmdbId := Some id; AddMovieSearch.movie_title := None |}.

Definition catalogAnswer (movies : list AddMovieSearch.Movie)
  : Fetched AddMovieSearch.SearchData :=
  Responded true 200
    (inr {| AddMovieSearch.data_results := Some movies;
            AddMovieSearch.data_error := None |}).

Definition video (address : string) : YouTubeSearch.Video :=
  {| YouTubeSearch.url := Some address; YouTubeSearch.video_title := None |}.

Definition videoAnswer (videos : list YouTubeSearch.Video)
  : Thrown + YouTubeSearch.SearchData :=
  inr {| YouTubeSearch.data_results := Some videos;
         YouTubeSearch.data_cached := false |}.

(** The add-movie dialog is opened on the query [ab], which starts a search;
    it is closed and opened again on [abc] while that search is under way,
    which starts another. *)
Definition reopened : AddMovieSearch.State :=
  exec (AddMovieSearch.openAddMovieModal "abc")
    (exec AddMovieSearch.closeAddMovieModal
       (exec (AddMovieSearch.openAddMovieModal "ab") AddMovieSearch.initialState)).

(** In a browser without [AbortController]: a search for [cats] is started
    and its response arrives; while its body is read, a search for [dogs] is
    started and its response arrives. *)
Definition overlapped : YouTubeSearch.State :=
  let typed value st := YouTubeSearch.set_ytSearchInput (Some value) st in
  let st := typed "cats" (YouTubeSearch.initialState false) in
  let st := exec (YouTubeSearch.scheduleYouTubeSearch true) st in
  let st := exec (YouTubeSearch.performYouTubeSearch_afterFetch 1 (inr (true, 200))) st in
  let st := typed "dogs" st in
  let st := exec (YouTubeSearch.scheduleYouTubeSearch true) st in
  exec (YouTubeSearch.performYouTubeSearch_afterFetch 2 (inr (true, 200))) st.

End Samples.

(** ** The panel script: the form, the job history and the cards *)

(** *** The check of the YouTube address *)

Module UrlPattern.
Import Js.

(** A pattern as the backtracking matcher of regular expressions runs it:
    from the input left to read and the continuation that has to succeed on
    what the pattern leaves. *)
Definition Matcher : Type := string -> (string -> bool) -> bool.

(** How two code units compare: as they are, or canonicalised with the [i]
    flag. *)
Definition exactly (a b : ascii) : bool := Ascii.eqb a b.

Definition ignoringCase (a b : ascii) : bool := Ascii.eqb (foldCase a) (foldCase b).

(** The characters of [p] in a row: what is left of [s] behind them. *)
Fixpoint literal (same : ascii -> ascii -> bool) (p s : string) : option string :=
  match p, s with
  | EmptyString, _ => Some s
  | String a p', String b s' => if same a b then literal same p' s' else None
  | String _ _, EmptyString => None
  end.

Definition lit (same : ascii -> ascii -> bool) (p : string) : Matcher :=
  fun s k => match literal same p s with Some rest => k rest | None => false end.

(** One pattern after the other. *)
Definition seq (a b : Matcher) : Matcher := fun s k => a s (fun rest => b rest k).

(** One pattern or, when the match cannot be completed, the other. *)
Definition alt (a b : Matcher) : Matcher := fun s k => a s k || b s k.

(** An optional group: greedy, so the group is tried first. *)
Definition opt (a : Matcher) : Matcher := fun s k => a s k || k s.

(** [pattern.test(s)] for a pattern that starts with [^]: only a match at the
    start of [s] counts, and anything may follow it. *)
Definition test (pattern : Matcher) (s : string) : bool := pattern s (fun _ => true).

(** The pattern that both scripts call [ytPattern]: an optional [http://] or
    [https://], an optional [www.], then [youtube.com/] or [youtu.be/].  The
    panel script gives it the [i] flag (line 1922), [static/script.js] does
    not (line 417). *)
Definition ytPattern (same : ascii -> ascii -> bool) : Matcher :=
  seq (opt (seq (lit same "http") (seq (opt (lit same "s")) (lit same "://"))))
      (seq (opt (lit same "www."))
           (seq (alt (lit same "youtube.com") (lit same "youtu.be"))
                (lit same "/"))).

End UrlPattern.

(** *** The callers of the job functions in the panel script *)

Module PanelPage.
Import Js LogText Effects Panel JobSpec.
Local Open Scope js_scope.

(** [cleanErrorText(text)], lines 1295-1300. *)
Definition cleanErrorText (text : string) : string :=
  if negb (truthy text) then "" else trim (removeTag "ERROR:" text).

(** The elements of the form that the submit handler reads: the value of
    each (for the check box, whether it is checked), [None] for an element
    that the page does not have. *)
Record Form := {
  ytInput : option string;
  movieNameInput : option string;
  movieIdInput : option string;
  titleInput : option string;
  yearInput : option string;
  tmdbInput : option string;
  extraCheckbox : option bool;
  extraTypeSelect : option string;
  extraNameInput : option string;
  playlistModeSelect : option string }.

(** The [payload] object of the submit handler, lines 1903-1914. *)
Record Payload := {
  yturl : string;
  movieName : string;
  movieId : string;
  title : string;
  year : string;
  tmdb : string;
  extra : bool;
  extraType : string;
  extra_name : string;
  playlist_mode : string }.

(** [element ? element.value.trim() : ''] *)
Definition trimmedValue (element : option string) : string :=
  match element with Some value => trim value | None => "" end.

Definition readPayload (form : Form) : Payload :=
  {| yturl := trimmedValue (ytInput form);
     movieName := trimmedValue (movieNameInput form);
     movieId := trimmedValue (movieIdInput form);
     title := trimmedValue (titleInput form);
     year := trimmedValue (yearInput form);
     tmdb := trimmedValue (tmdbInput form);
     extra := default false (extraCheckbox form);
     extraType := default "trailer" (extraTypeSelect form);
     extra_name := trimmedValue (extraNameInput form);
     playlist_mode := default "single" (playlistModeSelect form) |}.

(** The [errors] array of the submit handler, lines 1918-1932. *)
Definition validationErrors (payload : Payload) : list string :=
  ((if negb (truthy (yturl payload)) then [ "YouTube URL is required." ]
    else if negb (UrlPattern.test (UrlPattern.ytPattern UrlPattern.ignoringCase)
                                  (yturl payload))
         then [ "Please enter a valid YouTube URL." ]
         else [])
   ++ (if negb (truthy (movieId payload))
       then [ "Please select a valid movie from the list." ] else [])
   ++ (if extra payload && negb (truthy (extra_name payload))
       then [ "Please provide an extra name." ] else []))%list.

(** The submit handler of the form, lines 1900-1977, up to its first
    [await]: returns the payload that it posts to [/create], if it does. *)
Definition submit_start (form : Form) : M State (option Payload) :=
  let payload := readPayload form in
  resetConsole "Submitting request..." ;;
  let errors := validationErrors payload in
  if negb (length errors =? 0)%nat then
    forEach (fun message => appendConsoleLine ("ERROR: " ++ message) (Some "error"))
            errors ;;
    ret None
  else ret (Some payload).

(** The decoded body of [/create], and of [/jobs]. *)
Record CreateData := {
  create_debug_mode : option bool;
  create_logs : option (list string);
  create_job : option RawJob }.

Record JobsData := {
  jobs_debug_mode : option bool;
  jobs : option (list RawJob) }.

(** A click or key press that opens a card: [activateDownloadItem(jobId)],
    lines 1831-1845.  Returns whether the poll that it ends with left a
    continuation waiting; that poll has the options [showConsole] and
    [notifyNotFound]. *)
Definition activateDownloadItem (jobId : string) : M State bool :=
  if negb (truthy jobId) then ret false else
  st <- getState ;;
  let previousActive := activeConsoleJobId st in
  modify (set_selectedJobId (Some jobId)) ;;
  modify (set_activeConsoleJobId (Some jobId)) ;;
  renderDownloads ;;
  st <- getState ;;
  let entry := lookupJob jobId (downloads st) in
  let label :=
    match entry with
    | Some found => optOr (e_label found) "job"
    | None => "job"
    end in
  when (negb (isString previousActive jobId))
       (resetConsole ("Loading logs for " ++ label ++ "...")) ;;
  pollJob_start jobId.

Definition activateOptions : PollOptions :=
  {| showConsole := true; notifyNotFound := true |}.

Section WithDateParser.
Variable Date_parse : string -> option Date.

(** The rest of the submit handler, run when the answer of [/create] is
    there; a body that does not decode counts as an empty object.  [now] is
    the reading of the clock. *)
Definition submit_resume (now : Date) (fetched : Fetched CreateData) : M State unit :=
  tryCatch
    (match fetched with
     | FetchRejected err => throw err
     | Responded ok status body =>
         let data :=
           match body with
           | inr decoded => decoded
           | inl _ => {| create_debug_mode := None; create_logs := None;
                         create_job := None |}
           end in
         match create_debug_mode data with
         | Some enabled => setDebugMode enabled
         | None => ret tt
         end ;;
         if negb ok then
           let logs := default [] (create_logs data) in
           (if negb (length logs =? 0)%nat then renderLogLines logs
            else renderLogLines [ "ERROR: Request failed." ]) ;;
           throw (mkError (cleanErrorText
                             (orElse (default "" (head logs)) "Request failed.")))
         else
           match create_job data with
           | Some job =>
               if truthyOpt (job_id job) then
                 let logs := default [ "Job queued." ] (job_logs job) in
                 renderLogLines logs ;;
                 match normaliseJob Date_parse now job with
                 | Some entry => upsertDownload now entry
                 | None => ret tt
                 end ;;
                 startJobPolling (default "" (job_id job))
                                 {| showConsole := true; notifyNotFound := false |}
               else
                 renderLogLines [ "ERROR: No job information returned." ] ;;
                 throw (mkError "No job information returned.")
           | None =>
               renderLogLines [ "ERROR: No job information returned." ] ;;
               throw (mkError "No job information returned.")
           end
     end)
    (fun err => appendConsoleLine ("ERROR: " ++ describe err) (Some "error")).

(** [loadInitialJobs()], lines 1684-1707, from the answer of [/jobs] on.
    [clock i] is the reading of the clock when the job at index [i] is
    normalised. *)
Definition loadInitialJobs_resume (clock : nat -> Date) (fetched : Fetched JobsData)
  : M State unit :=
  tryCatch
    (match fetched with
     | FetchRejected err => throw err
     | Responded ok status body =>
         if negb ok then throw (mkError ("HTTP " ++ pretty status)) else
         match body with
         | inl err => throw err
         | inr data =>
             match jobs_debug_mode data with
             | Some enabled => setDebugMode enabled
             | None => ret tt
             end ;;
             forEach
               (fun numbered : nat * RawJob =>
                  let entry := normaliseJob Date_parse (clock numbered.1) numbered.2 in
                  match entry with
                  | Some update => upsertDownload (clock numbered.1) update
                  | None => ret tt
                  end ;;
                  match entry with
                  | Some update =>
                      when (isCancellable (u_status update))
                           (startJobPolling (default "" (u_id update)) noOptions)
                  | None => ret tt
                  end)
               (imap pair (default [] (jobs data)))
         end
     end)
    (fun err =>
       appendConsoleLine ("ERROR: Failed to load job history: " ++ describe err)
                         (Some "error")).

(** The page when the script has run to its end (lines 1979-1983, the
    console switch and the extra fields apart): the debug mode is set and
    the empty list is rendered; the request for [/jobs] is under way. *)
Definition pageLoaded (initialDebugMode : bool) : State :=
  exec (setDebugMode initialDebugMode ;; renderDownloads) (initialState initialDebugMode).

(** The states that the page can get into: by the answer of [/jobs], by a
    submit and the answer to it, by opening a card, by a click on a cancel
    button, by the firing of an interval timer, and by an answer to a
    request that was made before. *)
Inductive reachable : State -> Prop :=
| page_loaded (initialDebugMode : bool) : reachable (pageLoaded initialDebugMode)
| jobs_answer (st : State) (clock : nat -> Date) (fetched : Fetched JobsData) :
    reachable st -> reachable (exec (loadInitialJobs_resume clock fetched) st)
| form_submit (st : State) (form : Form) :
    reachable st -> reachable (exec (submit_start form) st)
| create_answer (st : State) (now : Date) (fetched : Fetched CreateData) :
    reachable st -> reachable (exec (submit_resume now fetched) st)
| card_opened (st : State) (jobId : string) :
    reachable st -> reachable (exec (activateDownloadItem jobId) st)
| cancel_click (st : State) (jobId : string) :
    reachable st -> reachable (exec (cancelJob_start jobId) st)
| timer_fires (st : State) (t : positive) :
    reachable st -> reachable (exec (timerFires t) st)
| poll_answer (st : State) (now : Date) (jobId : string) (options : PollOptions)
              (fetched : Fetched JobData) :
    reachable st -> In (GetJob jobId) (requests st) ->
    reachable (exec (pollJob_resume Date_parse now jobId options fetched) st)
| cancel_answer (st : State) (now : Date) (jobId : string)
                (fetched : Fetched JobData) :
    reachable st -> In (PostCancel jobId) (requests st) ->
    reachable (exec (cancelJob_resume Date_parse now jobId fetched) st).

End WithDateParser.

End PanelPage.

(** Notions about the page that the statements use. *)

Module PageSpec.
Import Js Effects Panel JobSpec PanelPage.

(** Nothing watches a job: the page has its list element,
    [state.pendingCancellations] is undefined, the poller map is empty, no
    interval timer runs, and no cancel request has been made. *)
Definition unwatched (st : State) : Prop :=
  pendingCancellations st = None
  /\ is_Some (downloadsList st)
  /\ pollers st = ∅
  /\ timers st = ∅
  /\ forall jobId, ~ In (PostCancel jobId) (requests st).

(** A step leaves the page unwatched if it was. *)
Definition keepsUnwatched (st st' : State) : Prop := unwatched st -> unwatched st'.

(** The list element is left as it was. *)
Definition sameList (st st' : State) : Prop := downloadsList st' = downloadsList st.

(** No poller is added, no interval timer is created, no request is made. *)
Definition startsNothing (st st' : State) : Prop :=
  (forall jobId, pollers st !! jobId = None -> pollers st' !! jobId = None)
  /\ (forall t, timers st !! t = None -> timers st' !! t = None)
  /\ requests st' = requests st.

(** The console and the list stay on the page. *)
Definition keepsElements (st st' : State) : Prop :=
  (is_Some (consoleDiv st) -> is_Some (consoleDiv st'))
  /\ (is_Some (downloadsList st) -> is_Some (downloadsList st')).

(** The beginnings of an address that the submit handler takes for a
    YouTube address, in small letters. *)
Definition ACCEPTED_ADDRESSES : list string :=
  [ "https://www.youtube.com/"; "https://www.youtu.be/";
    "https://youtube.com/"; "https://youtu.be/";
    "http://www.youtube.com/"; "http://www.youtu.be/";
    "http://youtube.com/"; "http://youtu.be/";
    "www.youtube.com/"; "www.youtu.be/";
    "youtube.com/"; "youtu.be/" ].

(** A pattern accepts the inputs that begin, as [view] shows them, with one
    of [prefixes], and goes on behind that beginning. *)
Definition recognises (view : string -> string) (pattern : UrlPattern.Matcher)
    (prefixes : list string) : Prop :=
  forall s k,
    pattern s k
    = existsb (fun p => startsWith (view s) p
                        && k (Spec.dropString (String.length p) s))
              prefixes.

(** The line that the console shows for an error. *)
Definition errorLine (text : string) : ConsoleLine :=
  {| line_text := text; line_type := "error" |}.

Definition infoLine (text : string) : ConsoleLine :=
  {| line_text := text; line_type := "info" |}.

End PageSpec.

(** ** The panel script: the movie list and the selection *)

Module MovieLibrary.
Import Js.

(** A property of a decoded JSON object that the script turns into a
    string: missing, [null], a number or a string.  Numbers are integers
    here, and [String(n)] is their decimal notation. *)
Inductive Value :=
| Undefined
| Null
| Num (n : Z)
| Str (s : string).

(** [String(v)] *)
Definition toString (v : Value) : string :=
  match v with
  | Undefined => "undefined"
  | Null => "null"
  | Num n => pretty n
  | Str s => s
  end.

(** Truthiness of [v]. *)
Definition truthyValue (v : Value) : bool :=
  match v with
  | Undefined | Null => false
  | Num n => negb (n =? 0)
  | Str s => truthy s
  end.

(** [v != null] *)
Definition notNull (v : Value) : bool :=
  match v with
  | Undefined | Null => false
  | Num _ | Str _ => true
  end.

(** A movie as Radarr describes it, as far as the script reads it here; the
    title is a string when it is there. *)
Record Movie := {
  movie_id : Value;
  movie_tmdbId : Value;
  movie_title : option string;
  movie_year : Value }.

(** An [option] element of the data list: its value and the attributes that
    the script reads; an option that the server rendered may lack some. *)
Record MovieOption := {
  value : string;
  data_id : option string;
  data_title : option string;
  data_year : option string;
  data_tmdb : option string }.

(** The feedback line under the movie field: its text, its [is-<type>] class
    and whether it is hidden. *)
Record Feedback := {
  feedback_text : string;
  feedback_class : option string;
  feedback_hidden : bool }.

(** The elements of the page that the movie functions read and write, each
    [None] when the page does not have it: the data list with its options,
    the movie name field and the four hidden fields with their values, the
    prompt that offers to add a movie with its [hidden] flag, and the
    feedback line.  A field holds the string that was written to it. *)
Record State := {
  movieOptions : option (list MovieOption);
  movieNameInput : option string;
  movieIdInput : option string;
  titleInput : option string;
  yearInput : option string;
  tmdbInput : option string;
  movieNotFoundPrompt : option bool;
  movieFeedback : option Feedback }.

Definition set_movieOptions (v : option (list MovieOption)) (st : State) : State :=
  {| movieOptions := v; movieNameInput := movieNameInput st;
     movieIdInput := movieIdInput st; titleInput := titleInput st;
     yearInput := yearInput st; tmdbInput := tmdbInput st;
     movieNotFoundPrompt := movieNotFoundPrompt st; movieFeedback := movieFeedback st |}.

Definition set_movieNameInput (v : option string) (st : State) : State :=
  {| movieOptions := movieOptions st; movieNameInput := v;
     movieIdInput := movieIdInput st; titleInput := titleInput st;
     yearInput := yearInput st; tmdbInput := tmdbInput st;
     movieNotFoundPrompt := movieNotFoundPrompt st; movieFeedback := movieFeedback st |}.

Definition set_movieNotFoundPrompt (v : option bool) (st : State) : State :=
  {| movieOptions := movieOptions st; movieNameInput := movieNameInput st;
     movieIdInput := movieIdInput st; titleInput := titleInput st;
     yearInput := yearInput st; tmdbInput := tmdbInput st;
     movieNotFoundPrompt := v; movieFeedback := movieFeedback st |}.

Definition set_movieFeedback (v : option Feedback) (st : State) : State :=
  {| movieOptions := movieOptions st; movieNameInput := movieNameInput st;
     movieIdInput := movieIdInput st; titleInput := titleInput st;
     yearInput := yearInput st; tmdbInput := tmdbInput st;
     movieNotFoundPrompt := movieNotFoundPrompt st; movieFeedback := v |}.

(** [if (element) element.value = v] *)
Definition writeValue (element : option string) (v : string) : option string :=
  match element with Some _ => Some v | None => None end.

(** The four hidden fields are written, each if the page has it. *)
Definition writeSelection (id title year tmdb : string) (st : State) : State :=
  {| movieOptions := movieOptions st; movieNameInput := movieNameInput st;
     movieIdInput := writeValue (movieIdInput st) id;
     titleInput := writeValue (titleInput st) title;
     yearInput := writeValue (yearInput st) year;
     tmdbInput := writeValue (tmdbInput st) tmdb;
     movieNotFoundPrompt := movieNotFoundPrompt st; movieFeedback := movieFeedback st |}.

(** [getMovieOptions()], lines 534-539. *)
Definition getMovieOptions (st : State) : list MovieOption :=
  default [] (movieOptions st).

(** [findMatchingMovieOption(value)], lines 541-550. *)
Definition findMatchingMovieOption (v : string) (st : State) : option MovieOption :=
  if negb (truthy v) then None else
  let target := trim v in
  if negb (truthy target) then None else
  List.find (fun option => String.eqb (trim (value option)) target) (getMovieOptions st).

(** [buildMovieOptionValue(movie)], lines 552-556, from the [title] and the
    [year] of its argument. *)
Definition buildMovieOptionValue (title : option string) (year : Value) : string :=
  let title := orElse (trim (if truthyOpt title then default "" title else "")) "Movie" in
  let year := if truthyValue year then trim (toString year) else "" in
  if truthy year then title ++ " (" ++ year ++ ")" else title.

(** What [upsertMovieOption] and [replaceMovieOptions] write for a movie:
    its id as a string, and the option with its label and attributes. *)
Definition movieIdOf (movie : Movie) : string :=
  if notNull (movie_id movie) then toString (movie_id movie) else "".

Definition optionFor (movie : Movie) : MovieOption :=
  let movieId := movieIdOf movie in
  let tmdbId := if notNull (movie_tmdbId movie) then toString (movie_tmdbId movie) else "" in
  let title := trim (optOr (movie_title movie) "") in
  let year := if notNull (movie_year movie) then trim (toString (movie_year movie)) else "" in
  {| value := buildMovieOptionValue (Some title) (Str year);
     data_id := Some movieId;
     data_title := Some title;
     data_year := Some year;
     data_tmdb := Some tmdbId |}.

(** [upsertMovieOption(movie)], lines 558-582: the first option with the id
    of the movie is rewritten, or a new option is appended. *)
Definition upsertMovieOption (movie : Movie) (st : State) : State :=
  match movieOptions st with
  | None => st
  | Some options =>
      let movieId := movieIdOf movie in
      if negb (truthy movieId) then st else
      match Effects.findEntry
              (fun option => Effects.isString (data_id option) movieId) options with
      | Some (index, _) =>
          set_movieOptions (Some (<[index := optionFor movie]> options)) st
      | None => set_movieOptions (Some (options ++ [ optionFor movie ])%list) st
      end
  end.

(** [replaceMovieOptions(movies)], lines 584-613; an entry of [movies] that
    is not an object is [None]. *)
Definition replaceMovieOptions (movies : list (option Movie)) (st : State) : State :=
  match movieOptions st with
  | None => st
  | Some _ =>
      set_movieOptions
        (Some (omap (fun entry =>
                       match entry with
                       | Some movie =>
                           if truthy (movieIdOf movie) then Some (optionFor movie) else None
                       | None => None
                       end)
                    movies))
        st
  end.

(** [setMovieFeedback(message, type)], lines 615-636. *)
Definition setMovieFeedback (message type : string) (st : State) : State :=
  match movieFeedback st with
  | None => st
  | Some _ =>
      let text := if truthy message then trim message else "" in
      if negb (truthy text) then
        set_movieFeedback
          (Some {| feedback_text := text; feedback_class := None;
                   feedback_hidden := true |}) st
      else
        let className :=
          if String.eqb type "success" then "is-success"
          else if String.eqb type "error" then "is-error"
          else if String.eqb type "warning" then "is-warning"
          else "is-info" in
        set_movieFeedback
          (Some {| feedback_text := text; feedback_class := Some className;
                   feedback_hidden := false |}) st
  end.

(** [clearMovieFeedback()] *)
Definition clearMovieFeedback (st : State) : State := setMovieFeedback "" "info" st.

(** [updateMovieNotFoundPrompt()], lines 642-654. *)
Definition updateMovieNotFoundPrompt (st : State) : State :=
  match movieNotFoundPrompt st, movieNameInput st with
  | Some _, Some typed =>
      let v := if truthy typed then trim typed else "" in
      let hasValue := truthy v in
      let option := if hasValue then findMatchingMovieOption v st else None in
      if negb hasValue || bool_decide (is_Some option)
      then set_movieNotFoundPrompt (Some true) st
      else set_movieNotFoundPrompt (Some false) st
  | _, _ => st
  end.

(** [clearMovieSelection()], lines 656-661. *)
Definition clearMovieSelection (st : State) : State := writeSelection "" "" "" "" st.

(** [applyMovieOption(option)], lines 663-680. *)
Definition applyMovieOption (option : option MovieOption) (st : State) : State :=
  match option with
  | None => clearMovieSelection st
  | Some found =>
      writeSelection (optOr (data_id found) "") (optOr (data_title found) "")
                     (optOr (data_year found) "") (optOr (data_tmdb found) "") st
  end.

(** [syncMovieSelection()], lines 1655-1667 (the same as lines 682-694). *)
Definition syncMovieSelection (st : State) : State :=
  match movieNameInput st with
  | None => st
  | Some typed =>
      let v := if truthy typed then trim typed else "" in
      let option := findMatchingMovieOption v st in
      let st :=
        match option with
        | Some found => applyMovieOption (Some found) st
        | None => clearMovieSelection st
        end in
      updateMovieNotFoundPrompt st
  end.

(** [handleMovieNameInput()], lines 1109-1112. *)
Definition handleMovieNameInput (st : State) : State :=
  clearMovieFeedback (syncMovieSelection st).

(** [handleMovieAdded(movie)], lines 1005-1017: the new state, and the line
    that it hands to [appendConsoleLine], if any. *)
Definition handleMovieAdded (movie : Movie) (st : State) : State * option string :=
  let label := buildMovieOptionValue (movie_title movie) (movie_year movie) in
  let st := upsertMovieOption movie st in
  let st := set_movieNameInput (writeValue (movieNameInput st) label) st in
  let st := syncMovieSelection st in
  let st := updateMovieNotFoundPrompt st in
  (st, if truthyOpt (movie_title movie)
       then Some ("Added movie to Radarr: " ++ label) else None).

End MovieLibrary.

(** Notions about the movie list that the statements use. *)

Module MovieSpec.
Import Js MovieLibrary.

(** The ids that the options of the data list carry. *)
Definition optionIds (st : State) : list string := omap data_id (getMovieOptions st).

(** The first option of the data list that carries the id [movieId]. *)
Definition optionOf (movieId : string) (st : State) : option MovieOption :=
  List.find (fun option => Effects.isString (data_id option) movieId) (getMovieOptions st).

(** The name that [handleMovieAdded] types into the movie field. *)
Definition typedLabel (movie : Movie) : string :=
  buildMovieOptionValue (movie_title movie) (movie_year movie).

(** The option carries the label [typed], white space around either apart. *)
Definition labelled (typed : string) (option : MovieOption) : Prop :=
  trim (value option) = trim typed.

(** The first option of the data list that carries the label [typed], when
    [typed] is not blank. *)
Definition listedAs (typed : string) (st : State) : option MovieOption :=
  if truthy (trim typed)
  then List.find (fun option => String.eqb (trim (value option)) (trim typed))
                 (getMovieOptions st)
  else None.

(** The hidden fields hold nothing. *)
Definition nothingSelected (st : State) : Prop :=
  movieIdInput st = writeValue (movieIdInput st) ""
  /\ titleInput st = writeValue (titleInput st) ""
  /\ yearInput st = writeValue (yearInput st) ""
  /\ tmdbInput st = writeValue (tmdbInput st) "".

End MovieSpec.

(** ** Proofs: the log classifier and the visibility filter *)

Import Js LogText Effects Spec.

Lemma stripTag_startsWith (tag s : string) :
  stripTag tag s =
  if startsWith (upperAscii s) tag then Some (dropString (String.length tag) s) else None.
Proof.
  revert s. induction tag as [|a tag IH]; intros s.
  - destruct s; reflexivity.
  - destruct s as [|b s]; simpl; [reflexivity|].
    destruct (Ascii.eqb a (foldCase b)); [apply IH | reflexivity].
Qed.

Lemma noLineTerminator_trimStart (s : string) :
  noLineTerminator s = true -> noLineTerminator (trimStart s) = true.
Proof.
  induction s as [|c r IH]; simpl; [reflexivity|].
  intros H. apply andb_true_iff in H as [Hc Hr].
  destruct (isWhiteSpace c); [auto|].
  simpl. rewrite Hc, Hr. reflexivity.
Qed.

(** The backtracking of [\s*] never finds more than the greedy attempt. *)
Lemma spacesDotStarEnd_trimStart (s : string) :
  spacesDotStarEnd s = dotStarEnd (trimStart s).
Proof.
  induction s as [|c r IH]; [reflexivity|].
  cbn [spacesDotStarEnd trimStart].
  destruct (isWhiteSpace c) eqn:Hc; [|reflexivity].
  rewrite IH. unfold dotStarEnd at 1.
  destruct (noLineTerminator (trimStart r)) eqn:Hn.
  - unfold dotStarEnd. rewrite Hn. reflexivity.
  - unfold dotStarEnd. rewrite Hn.
    destruct (noLineTerminator (String c r)) eqn:Hs; [|reflexivity].
    apply noLineTerminator_trimStart in Hs. cbn [trimStart] in Hs.
    rewrite Hc in Hs. congruence.
Qed.

Lemma matchTagged_remainderAfter (tag s : string) :
  matchTagged tag s = remainderAfter tag s.
Proof.
  unfold matchTagged, remainderAfter. rewrite stripTag_startsWith.
  destruct (startsWith (upperAscii s) tag); [|reflexivity].
  apply spacesDotStarEnd_trimStart.
Qed.

Lemma interpretLogLine_eq_classify (raw : string) :
  interpretLogLine raw None = classify raw.
Proof.
  unfold interpretLogLine, classify. cbn [truthyOpt negb].
  rewrite !matchTagged_remainderAfter.
  destruct (remainderAfter "ERROR:" (trim raw)); [reflexivity|].
  destruct (remainderAfter "WARNING:" (trim raw)); [reflexivity|].
  destruct (remainderAfter "DEBUG:" (trim raw)); [reflexivity|].
  reflexivity.
Qed.

(** C8, as stated, fails: a line that starts with [[download]] and ends in a
    space is classified as progress, but its text is the trimmed line, not
    the line unchanged. *)
Lemma interpretLogLine_progress_text_is_trimmed :
  startsWith "[download] 42.0% " "[download]" = true
  /\ type (interpretLogLine "[download] 42.0% " None) = "progress"
  /\ text (interpretLogLine "[download] 42.0% " None) <> "[download] 42.0% ".
Proof.
  split; [reflexivity|]. split; [reflexivity|].
  intros H. vm_compute in H. discriminate H.
Qed.

(** C8, amended: with no forced category the classifier works on the trimmed
    line.  [ERROR:], [WARNING:] and [DEBUG:] at its start, in any letter case
    and with no line break in the remainder, give the categories error,
    warning and debug with the remainder after the tag and its white space as
    text (Error, Warning, Debug when that is empty); a line starting with
    [[download]] or [[ffmpeg]] gives progress or ffmpeg with the trimmed line
    as text; any other line gives info with the raw line unchanged.  The
    three examples of the specification hold. *)
Theorem interpretLogLine_rules :
  (forall raw, interpretLogLine raw None = classify raw)
  /\ interpretLogLine "ERROR: disk full" None
     = {| text := "disk full"; type := "error" |}
  /\ interpretLogLine "[download] 42.0%" None
     = {| text := "[download] 42.0%"; type := "progress" |}
  /\ interpretLogLine "plain line" None
     = {| text := "plain line"; type := "info" |}.
Proof.
  split; [exact interpretLogLine_eq_classify|].
  repeat split; reflexivity.
Qed.

Lemma startsWith_cons (s p : string) (a : ascii) :
  startsWith s (String a p) = true -> exists r, s = String a r /\ startsWith r p = true.
Proof.
  destruct s as [|b r]; simpl; [discriminate|].
  destruct (Ascii.eqb a b) eqn:E; [|discriminate].
  apply Ascii.eqb_eq in E. subst. eauto.
Qed.

Lemma trimStart_allWhiteSpace (s : string) :
  allWhiteSpace s = true -> trimStart s = "".
Proof.
  induction s as [|c r IH]; simpl; [reflexivity|].
  intros H. apply andb_true_iff in H as [Hc Hr]. rewrite Hc. auto.
Qed.

Lemma trimStart_not_allWhiteSpace (s : string) :
  allWhiteSpace s = false ->
  exists c r, trimStart s = String c r /\ isWhiteSpace c = false.
Proof.
  induction s as [|c r IH]; simpl; [discriminate|].
  destruct (isWhiteSpace c) eqn:Hc; simpl; eauto.
Qed.

Lemma trimEnd_starts_black (c : ascii) (r : string) :
  isWhiteSpace c = false -> truthy (trimEnd (String c r)) = true.
Proof.
  intros Hc. cbn [trimEnd]. destruct (trimEnd r); [rewrite Hc|]; reflexivity.
Qed.

Lemma trim_truthy (s : string) :
  truthy (trim s) = negb (allWhiteSpace s).
Proof.
  unfold trim. destruct (allWhiteSpace s) eqn:H.
  - rewrite trimStart_allWhiteSpace by assumption. reflexivity.
  - destruct (trimStart_not_allWhiteSpace s H) as (c & r & -> & Hc).
    apply trimEnd_starts_black. assumption.
Qed.

Lemma lowered_empty (line : string) :
  truthy (trim line) = false -> lowered line = "".
Proof. unfold lowered. destruct (trim line); [reflexivity | discriminate]. Qed.

(** Unfolding of the filter on a line that is not blank. *)
Lemma shouldDisplayLogLine_lowered (line : string) :
  truthy (trim line) = true ->
  shouldDisplayLogLine line =
  let l := lowered line in
  if startsWith l "debug:" then false else
  if startsWith l "warning:" then
    negb (some (fun snippet => includes l snippet) NOISY_WARNING_SNIPPETS)
  else if startsWith l "error:" then true
  else if startsWith l "[download]" || startsWith l "[ffmpeg]"
          || startsWith l "[merger]" then true
  else some (fun snippet => includes l snippet) IMPORTANT_LINE_SNIPPETS.
Proof. intros H. unfold shouldDisplayLogLine, lowered. rewrite H. reflexivity. Qed.

Lemma lowered_prefix_truthy (line p : string) (a : ascii) :
  startsWith (lowered line) (String a p) = true -> truthy (trim line) = true.
Proof.
  intros H. destruct (truthy (trim line)) eqn:E; [reflexivity|].
  rewrite (lowered_empty _ E) in H. discriminate.
Qed.

(** C9: with debug mode off (the only case in which the filter is asked), the
    filter drops blank lines and lines prefixed [debug:], keeps a line
    prefixed [warning:] exactly when it holds none of the noisy snippets,
    keeps every line prefixed [error:], [[download]], [[ffmpeg]] or
    [[merger]], and keeps any other line exactly when it holds one of the
    important snippets; prefixes and snippets are looked for in the trimmed,
    lower-cased line.  The four examples of the specification hold. *)
Theorem shouldDisplayLogLine_table :
  (forall line,
      let l := lowered line in
      (allWhiteSpace line = true -> shouldDisplayLogLine line = false)
      /\ (startsWith l "debug:" = true -> shouldDisplayLogLine line = false)
      /\ (startsWith l "warning:" = true ->
          shouldDisplayLogLine line
          = negb (existsb (fun snippet => includes l snippet) NOISY_WARNING_SNIPPETS))
      /\ (startsWith l "error:" = true -> shouldDisplayLogLine line = true)
      /\ (startsWith l "[download]" = true \/ startsWith l "[ffmpeg]" = true
          \/ startsWith l "[merger]" = true -> shouldDisplayLogLine line = true)
      /\ (allWhiteSpace line = false ->
          startsWith l "debug:" = false -> startsWith l "warning:" = false ->
          startsWith l "error:" = false -> startsWith l "[download]" = false ->
          startsWith l "[ffmpeg]" = false -> startsWith l "[merger]" = false ->
          shouldDisplayLogLine line
          = existsb (fun snippet => includes l snippet) IMPORTANT_LINE_SNIPPETS))
  /\ shouldDisplayLogLine "DEBUG: verbose trace" = false
  /\ shouldDisplayLogLine "ERROR: boom" = true
  /\ shouldDisplayLogLine "WARNING: [youtube] cookie notice" = false
  /\ shouldDisplayLogLine "WARNING: disk almost full" = true.
Proof.
  split; [|repeat split; reflexivity].
  intros line l. subst l. repeat split.
  - intros H. unfold shouldDisplayLogLine. rewrite trim_truthy, H. reflexivity.
  - intros H. rewrite shouldDisplayLogLine_lowered by (eapply lowered_prefix_truthy; eauto).
    cbv zeta. rewrite H. reflexivity.
  - intros H. rewrite shouldDisplayLogLine_lowered by (eapply lowered_prefix_truthy; eauto).
    cbv zeta. rewrite H.
    apply startsWith_cons in H as (r & -> & _). reflexivity.
  - intros H. rewrite shouldDisplayLogLine_lowered by (eapply lowered_prefix_truthy; eauto).
    cbv zeta. rewrite H.
    apply startsWith_cons in H as (r & -> & _). reflexivity.
  - intros H.
    assert (Ht : truthy (trim line) = true)
      by (destruct H as [H|[H|H]]; eapply lowered_prefix_truthy; eauto).
    rewrite shouldDisplayLogLine_lowered by assumption. cbv zeta.
    assert (Hb : exists r, lowered line = String "[" r).
    { destruct H as [H|[H|H]]; apply startsWith_cons in H as (r & -> & _); eauto. }
    destruct Hb as (r & Hr). rewrite Hr in *.
    change (startsWith (String "[" r) "debug:") with false.
    change (startsWith (String "[" r) "warning:") with false.
    change (startsWith (String "[" r) "error:") with false.
    cbv iota.
    destruct H as [H|[H|H]]; rewrite H; rewrite ?orb_true_r; reflexivity.
  - intros Hw H1 H2 H3 H4 H5 H6.
    rewrite shouldDisplayLogLine_lowered by (rewrite trim_truthy, Hw; reflexivity).
    cbv zeta. rewrite H1, H2, H3, H4, H5, H6. reflexivity.
Qed.

(** A line to which each rule of the table applies. *)
Lemma shouldDisplayLogLine_table_witness :
  shouldDisplayLogLine "   " = false
  /\ shouldDisplayLogLine "debug: x" = false
  /\ shouldDisplayLogLine "Warning: SABR streaming" = false
  /\ shouldDisplayLogLine " error: boom" = true
  /\ shouldDisplayLogLine "[Merger] merging" = true
  /\ shouldDisplayLogLine "Created movie folder" = true.
Proof.
  pose proof (proj1 shouldDisplayLogLine_table) as T.
  split; [exact (proj1 (T "   ") eq_refl)|].
  split; [exact (proj1 (proj2 (T "debug: x")) eq_refl)|].
  split; [rewrite (proj1 (proj2 (proj2 (T "Warning: SABR streaming"))) eq_refl);
          reflexivity|].
  split; [exact (proj1 (proj2 (proj2 (proj2 (T " error: boom")))) eq_refl)|].
  split; [exact (proj1 (proj2 (proj2 (proj2 (proj2 (T "[Merger] merging")))))
                   (or_intror (or_intror eq_refl)))|].
  rewrite (proj2 (proj2 (proj2 (proj2 (proj2 (T "Created movie folder")))))
             eq_refl eq_refl eq_refl eq_refl eq_refl eq_refl eq_refl).
  reflexivity.
Defined.

(** ** Proofs: the monad *)

Section Frames.
Context {S : Type} (R : S -> S -> Prop).
Local Abbreviation frames := (frames R).
Hypothesis R_refl : forall st, R st st.
Hypothesis R_trans : forall a b c, R a b -> R b c -> R a c.

Lemma frames_ret {A} (a : A) : frames (ret a).
Proof. intros st. apply R_refl. Qed.

Lemma frames_throw {A} (e : Thrown) : frames (@throw S A e).
Proof. intros st. apply R_refl. Qed.

Lemma frames_getState : frames getState.
Proof. intros st. apply R_refl. Qed.

Lemma frames_modify (f : S -> S) : (forall st, R st (f st)) -> frames (modify f).
Proof. intros H st. apply H. Qed.

Lemma frames_bind {A B} (m : M S A) (k : A -> M S B) :
  frames m -> (forall a, frames (k a)) -> frames (bind m k).
Proof.
  intros Hm Hk st. unfold exec, bind. specialize (Hm st). unfold exec in Hm.
  destruct (m st) as [st' [a|e]]; simpl in *; [|assumption].
  eapply R_trans; [eassumption|]. apply Hk.
Qed.

Lemma frames_read {B} (k : S -> M S B) :
  (forall st, frames (k st)) -> frames (bind getState k).
Proof. intros H. apply frames_bind; [apply frames_getState | assumption]. Qed.

Lemma frames_when (b : bool) (m : M S unit) : frames m -> frames (when b m).
Proof. intros H. destruct b; [assumption | apply frames_ret]. Qed.

Lemma frames_forEach {A} (f : A -> M S unit) (l : list A) :
  (forall x, frames (f x)) -> frames (forEach f l).
Proof.
  intros H. induction l as [|x l IH]; simpl.
  - apply frames_ret.
  - apply frames_bind; [apply H | intros _; exact IH].
Qed.

Lemma frames_tryCatch {A} (body : M S A) (handler : Thrown -> M S A) :
  frames body -> (forall e, frames (handler e)) -> frames (tryCatch body handler).
Proof.
  intros Hb Hh st. unfold exec, tryCatch. specialize (Hb st). unfold exec in Hb.
  destruct (body st) as [st' [a|e]]; simpl in *; [assumption|].
  eapply R_trans; [eassumption|]. apply Hh.
Qed.

Lemma frames_tryFinally {A} (body : M S A) (final : M S unit) :
  frames body -> frames final -> frames (tryFinally body final).
Proof.
  intros Hb Hf st. unfold exec, tryFinally. specialize (Hb st). unfold exec in Hb.
  destruct (body st) as [st' c]. simpl in Hb.
  specialize (Hf st'). unfold exec in Hf.
  destruct (final st') as [st'' [u|e]]; simpl in *; eapply R_trans; eassumption.
Qed.
End Frames.

Section Returns.
Context {S : Type}.

Lemma returns_ret {A} (a : A) : returns (@ret S A a).
Proof. intros st. eexists. reflexivity. Qed.

Lemma returns_getState : returns (@getState S).
Proof. intros st. eexists. reflexivity. Qed.

Lemma returns_modify (f : S -> S) : returns (modify f).
Proof. intros st. eexists. reflexivity. Qed.

Lemma returns_bind {A B} (m : M S A) (k : A -> M S B) :
  returns m -> (forall a, returns (k a)) -> returns (bind m k).
Proof.
  intros Hm Hk st. unfold outcome, bind. destruct (Hm st) as [a Ha].
  unfold outcome in Ha. destruct (m st) as [st' c]. simpl in Ha. subst c.
  apply Hk.
Qed.

Lemma returns_when (b : bool) (m : M S unit) : returns m -> returns (when b m).
Proof. intros H. destruct b; [assumption | apply returns_ret]. Qed.

Lemma returns_forEach {A} (f : A -> M S unit) (l : list A) :
  (forall x, returns (f x)) -> returns (forEach f l).
Proof.
  intros H. induction l as [|x l IH]; simpl.
  - apply returns_ret.
  - apply returns_bind; [apply H | intros _; exact IH].
Qed.

End Returns.

(** The steps shared by the frame proofs, chosen by the head of the
    computation. *)
Ltac frame_step R_refl R_trans :=
  lazymatch goal with
  | |- frames _ (ret _) => apply (frames_ret _ R_refl)
  | |- frames _ (throw _) => apply (frames_throw _ R_refl)
  | |- frames _ (when _ _) => apply (frames_when _ R_refl)
  | |- frames _ (forEach _ _) => apply (frames_forEach _ R_refl R_trans); intros ?
  | |- frames _ (tryCatch _ _) => apply (frames_tryCatch _ R_trans); [|intros ?]
  | |- frames _ (tryFinally _ _) => apply (frames_tryFinally _ R_trans)
  | |- frames _ (bind getState _) => apply (frames_read _ R_refl R_trans); intros ?
  | |- frames _ (bind _ _) => apply (frames_bind _ R_trans); [|intros ?]
  end.

Ltac returns_step :=
  lazymatch goal with
  | |- returns (ret _) => apply returns_ret
  | |- returns (modify _) => apply returns_modify
  | |- returns (when _ _) => apply returns_when
  | |- returns (forEach _ _) => apply returns_forEach; intros ?
  | |- returns getState => apply returns_getState
  | |- returns (bind _ _) => apply returns_bind; [|intros ?]
  end.

(** ** Proofs: the console *)

Import Panel JobSpec Samples.

Lemma sameJobs_refl (st : State) : sameJobs st st.
Proof. repeat split. Qed.

Lemma sameJobs_trans (a b c : State) : sameJobs a b -> sameJobs b c -> sameJobs a c.
Proof.
  unfold sameJobs. intros H1 H2.
  destruct H1 as (?&?&?&?&?&?&?&?&?), H2 as (?&?&?&?&?&?&?&?&?).
  repeat split; congruence.
Qed.

Ltac same_jobs := frame_step sameJobs_refl sameJobs_trans.

Lemma appendConsoleLine_sameJobs (rawText : string) (typeOverride : option string) :
  frames sameJobs (appendConsoleLine rawText typeOverride).
Proof.
  apply frames_modify. intros st. destruct (consoleDiv st); repeat split.
Qed.

Lemma appendConsoleLine_returns (rawText : string) (typeOverride : option string) :
  returns (appendConsoleLine rawText typeOverride).
Proof. apply returns_modify. Qed.

Lemma renderLogLines_sameJobs (lines : list string) :
  frames sameJobs (renderLogLines lines).
Proof.
  unfold renderLogLines. same_jobs. destruct (consoleDiv _); [|same_jobs].
  same_jobs; [apply frames_modify; repeat split|].
  same_jobs; [apply frames_modify; repeat split|].
  destruct (length (List.filter _ _) =? 0)%nat.
  - destruct (negb _ && negb _); apply appendConsoleLine_sameJobs.
  - same_jobs. apply appendConsoleLine_sameJobs.
Qed.

Lemma renderLogLines_returns (lines : list string) : returns (renderLogLines lines).
Proof.
  unfold renderLogLines. returns_step; [returns_step|].
  destruct (consoleDiv _); [|returns_step].
  repeat (returns_step; [returns_step|]).
  destruct (length (List.filter _ _) =? 0)%nat.
  - destruct (negb _ && negb _); apply appendConsoleLine_returns.
  - returns_step. apply appendConsoleLine_returns.
Qed.

Lemma setDebugMode_sameJobs (enabled : bool) : frames sameJobs (setDebugMode enabled).
Proof.
  unfold setDebugMode. same_jobs.
  same_jobs; [apply frames_modify; repeat split|].
  same_jobs. apply renderLogLines_sameJobs.
Qed.

Lemma setDebugMode_returns (enabled : bool) : returns (setDebugMode enabled).
Proof.
  unfold setDebugMode. returns_step; [returns_step|].
  returns_step; [returns_step|]. returns_step. apply renderLogLines_returns.
Qed.

Lemma filter_none {A} (p : A -> bool) (l : list A) :
  Forall (fun x => p x = false) l -> List.filter p l = [].
Proof.
  induction 1 as [|x l Hx _ IH]; simpl; [reflexivity|].
  rewrite Hx. exact IH.
Qed.

(** C10: on a page with a console, rendering a log array that is not empty and
    whose lines the filter all drops (debug mode off) leaves exactly one
    line in the console, the muted notice that verbose output is hidden;
    rendering an empty array leaves exactly one line, the muted notice that
    there is no output yet. *)
Theorem renderLogLines_placeholders (st : State) (lines : list string)
    (children : list ConsoleLine) :
  consoleDiv st = Some children ->
  (lines <> [] -> debugMode st = false ->
   Forall (fun line => shouldDisplayLogLine line = false) lines ->
   consoleDiv (exec (renderLogLines lines) st)
   = Some [ {| line_text := VERBOSE_HIDDEN; line_type := "muted" |} ])
  /\ (lines = [] ->
      consoleDiv (exec (renderLogLines lines) st)
      = Some [ {| line_text := NO_OUTPUT_YET; line_type := "muted" |} ]).
Proof.
  intros Hc. split.
  - intros Hne Hd Hall.
    unfold renderLogLines, exec, bind, getState. simpl. rewrite Hc. simpl.
    rewrite Hd. rewrite filter_none by assumption. simpl.
    destruct lines as [|l ls]; [congruence|]. reflexivity.
  - intros ->. unfold renderLogLines, exec, bind, getState. simpl. rewrite Hc.
    reflexivity.
Qed.

(** A console with old lines in it, and a log that the filter drops whole. *)
Lemma renderLogLines_placeholders_witness :
  consoleDiv
    (exec (renderLogLines [ "DEBUG: verbose trace"; "[youtube] abc: Downloading webpage" ])
          (set_consoleDiv (Some [ {| line_text := "old"; line_type := "info" |} ])
                          (initialState false)))
  = Some [ {| line_text := VERBOSE_HIDDEN; line_type := "muted" |} ]
  /\ consoleDiv (exec (renderLogLines []) (initialState true))
     = Some [ {| line_text := NO_OUTPUT_YET; line_type := "muted" |} ].
Proof.
  split.
  - refine (proj1 (renderLogLines_placeholders
                      (set_consoleDiv (Some [ {| line_text := "old"; line_type := "info" |} ])
                                      (initialState false))
                      [ "DEBUG: verbose trace"; "[youtube] abc: Downloading webpage" ]
                      [ {| line_text := "old"; line_type := "info" |} ] eq_refl)
                   _ eq_refl _).
    + discriminate.
    + repeat constructor.
  - exact (proj2 (renderLogLines_placeholders (initialState true) [] [] eq_refl) eq_refl).
Defined.

(** ** Proofs: running the monad *)

Import Panel JobSpec Samples.

Lemma exec_bind {S A B} (m : M S A) (k : A -> M S B) (st : S) :
  exec (bind m k) st =
  match outcome m st with
  | Returned a => exec (k a) (exec m st)
  | Threw _ => exec m st
  end.
Proof. unfold exec, outcome, bind. destruct (m st) as [st' [a|e]]; reflexivity. Qed.

Lemma outcome_bind {S A B} (m : M S A) (k : A -> M S B) (st : S) :
  outcome (bind m k) st =
  match outcome m st with
  | Returned a => outcome (k a) (exec m st)
  | Threw e => Threw e
  end.
Proof. unfold exec, outcome, bind. destruct (m st) as [st' [a|e]]; reflexivity. Qed.

Lemma run_eq {S A} (m : M S A) (st : S) : m st = (exec m st, outcome m st).
Proof. unfold exec, outcome. destruct (m st); reflexivity. Qed.

(** ** Proofs: finding a job in the store *)

Lemma findEntry_Some {A} (p : A -> bool) (l : list A) (i : nat) (x : A) :
  findEntry p l = Some (i, x) -> l !! i = Some x /\ p x = true.
Proof.
  revert i. induction l as [|y l IH]; intros i; simpl; [discriminate|].
  destruct (p y) eqn:Hy.
  - intros [= <- <-]. auto.
  - destruct (findEntry p l) as [[j z]|]; [|discriminate].
    intros [= <- <-]. apply (IH j). reflexivity.
Qed.

Lemma findEntry_None {A} (p : A -> bool) (l : list A) :
  findEntry p l = None -> Forall (fun x => p x = false) l.
Proof.
  induction l as [|y l IH]; simpl; [constructor|].
  destruct (p y) eqn:Hy; [discriminate|].
  destruct (findEntry p l) as [[j z]|]; [discriminate|].
  intros _. constructor; auto.
Qed.

Lemma findEntry_insert {A} (p : A -> bool) (l : list A) (i : nat) (x y : A) :
  findEntry p l = Some (i, x) -> p y = true -> findEntry p (<[i := y]> l) = Some (i, y).
Proof.
  revert i. induction l as [|z l IH]; intros i; simpl; [discriminate|].
  destruct (p z) eqn:Hz.
  - intros [= <- <-] Hy. simpl. rewrite Hy. reflexivity.
  - destruct (findEntry p l) as [[j w]|] eqn:E; [|discriminate].
    intros [= <- <-] Hy. simpl. rewrite Hz. rewrite (IH j) by auto. reflexivity.
Qed.

Lemma findEntry_app {A} (p : A -> bool) (l : list A) (y : A) :
  findEntry p l = None -> p y = true ->
  findEntry p (l ++ [y]) = Some (length l, y).
Proof.
  induction l as [|z l IH]; simpl; intros H Hy.
  - rewrite Hy. reflexivity.
  - destruct (p z); [discriminate|].
    destruct (findEntry p l) as [[j w]|]; [discriminate|].
    rewrite IH by auto. reflexivity.
Qed.

Lemma lookupJob_storeUpsert (id : string) (update : JobUpdate) (now : Date)
    (ds : list Entry) :
  lookupJob id (storeUpsert id update now ds) = Some (upserted id update now ds).
Proof.
  unfold lookupJob, storeUpsert, upserted, lookupJob.
  destruct (findEntry _ ds) as [[i existing]|] eqn:E; simpl.
  - erewrite findEntry_insert; [reflexivity | eassumption |].
    simpl. apply String.eqb_refl.
  - rewrite findEntry_app; [reflexivity | assumption |].
    simpl. apply String.eqb_refl.
Qed.

Lemma writeEntry_run (id : string) (update : JobUpdate) (now : Date) (st : State) :
  writeEntry id update now st
  = (set_downloads (storeUpsert id update now (downloads st)) st,
     Returned (upserted id update now (downloads st))).
Proof.
  unfold writeEntry, storeUpsert, upserted, lookupJob, bind, getState.
  destruct (findEntry _ (downloads st)) as [[i existing]|]; reflexivity.
Qed.


Lemma stopJobPolling_run (jobId : string) (st : State) :
  truthy jobId = true ->
  exists st', stopJobPolling jobId st = (st', Returned tt)
    /\ pollers st' = delete jobId (pollers st)
    /\ timers st' = match pollers st !! jobId with
                    | Some t => delete t (timers st)
                    | None => timers st
                    end
    /\ downloads st' = downloads st
    /\ pendingCancellations st' = pendingCancellations st
    /\ consoleDiv st' = consoleDiv st
    /\ nextTimer st' = nextTimer st
    /\ requests st' = requests st.
Proof.
  intros Ht. unfold stopJobPolling. rewrite Ht. cbn [negb].
  unfold bind, getState. destruct (pollers st !! jobId) as [t|] eqn:E.
  - eexists. split; [reflexivity|]. repeat split.
  - eexists. split; [reflexivity|]. repeat split.
    symmetry. apply delete_id. assumption.
Qed.

(** ** Proofs: a poll that brings a finished job *)

Section PollTick.
Variable Date_parse : string -> option Date.



End PollTick.

(** ** Proofs: what an upsert leaves in the store *)

Lemma keepsDownloads_refl (st : State) : keepsDownloads st st.
Proof. reflexivity. Qed.

Lemma keepsDownloads_trans (a b c : State) :
  keepsDownloads a b -> keepsDownloads b c -> keepsDownloads a c.
Proof. unfold keepsDownloads. congruence. Qed.

Ltac keeps_downloads := frame_step keepsDownloads_refl keepsDownloads_trans.

Lemma pendingHas_keeps (jobId : string) : frames keepsDownloads (pendingHas jobId).
Proof. intros st. unfold exec, pendingHas. destruct (pendingCancellations st); reflexivity. Qed.

Lemma pendingDelete_keeps (jobId : string) : frames keepsDownloads (pendingDelete jobId).
Proof. intros st. unfold exec, pendingDelete. destruct (pendingCancellations st); reflexivity. Qed.

Lemma stopJobPolling_keeps (jobId : string) : frames keepsDownloads (stopJobPolling jobId).
Proof.
  unfold stopJobPolling. destruct (negb (truthy jobId)); [keeps_downloads|].
  keeps_downloads. destruct (pollers _ !! jobId); [|keeps_downloads].
  keeps_downloads; apply frames_modify; reflexivity.
Qed.

Lemma appendListChild_keeps (child : ListChild) :
  frames keepsDownloads (appendListChild child).
Proof. apply frames_modify. intros st. destruct (downloadsList st); reflexivity. Qed.

Lemma buildDownloadItem_keeps (entry : Entry) (isSelected : bool) :
  frames keepsDownloads (buildDownloadItem entry isSelected).
Proof.
  unfold buildDownloadItem. keeps_downloads; [|keeps_downloads].
  destruct (truthy (e_id entry) && isCancellable (e_status entry)); [|keeps_downloads].
  keeps_downloads; [apply pendingHas_keeps | keeps_downloads].
Qed.

Lemma renderDownloads_keeps : frames keepsDownloads renderDownloads.
Proof.
  unfold renderDownloads. keeps_downloads.
  destruct (downloadsList _); [|keeps_downloads].
  keeps_downloads; [apply frames_modify; reflexivity|].
  keeps_downloads.
  { keeps_downloads. keeps_downloads; [|apply frames_modify; reflexivity].
    keeps_downloads. apply frames_modify; reflexivity. }
  keeps_downloads. destruct (_ =? _)%nat; [apply appendListChild_keeps|].
  keeps_downloads. keeps_downloads;
    [apply buildDownloadItem_keeps | apply appendListChild_keeps].
Qed.

Lemma evictOverflow_downloads (st : State) :
  downloads (exec evictOverflow st) = take MAX_DOWNLOAD_ENTRIES (downloads st).
Proof.
  unfold evictOverflow. rewrite exec_bind. cbn [getState outcome exec fst snd].
  destruct (MAX_DOWNLOAD_ENTRIES <? length (downloads st))%nat eqn:E; cbn [when].
  - rewrite exec_bind. cbn [modify outcome exec fst snd].
    match goal with |- downloads (exec (forEach ?f ?l) ?s) = _ =>
      assert (H : frames keepsDownloads (forEach f l)) end.
    { keeps_downloads. keeps_downloads; [apply stopJobPolling_keeps|].
      keeps_downloads. apply pendingDelete_keeps. }
    rewrite H. reflexivity.
  - apply Nat.ltb_ge in E. cbn [ret exec fst]. symmetry. apply take_ge. exact E.
Qed.

Lemma writeEntry_exec (id : string) (update : JobUpdate) (now : Date) (st : State) :
  exec (writeEntry id update now) st
  = set_downloads (storeUpsert id update now (downloads st)) st.
Proof. unfold exec. rewrite writeEntry_run. reflexivity. Qed.

Lemma writeEntry_outcome (id : string) (update : JobUpdate) (now : Date) (st : State) :
  outcome (writeEntry id update now) st
  = Returned (upserted id update now (downloads st)).
Proof. unfold outcome. rewrite writeEntry_run. reflexivity. Qed.

(** The store after [upsertDownload]: what the first step wrote, when the
    call throws in the second; that list sorted and cut, when it goes on. *)
Lemma upsertDownload_downloads (now : Date) (update : JobUpdate) (id : string)
    (st : State) :
  u_id update = Some id -> truthy id = true ->
  let written := storeUpsert id update now (downloads st) in
  downloads (exec (upsertDownload now update) st) = written
  \/ downloads (exec (upsertDownload now update) st)
     = take MAX_DOWNLOAD_ENTRIES (sort compareStartedAt written).
Proof.
  intros Hid Ht written. unfold upsertDownload. rewrite Hid, Ht. cbn [negb].
  rewrite exec_bind, writeEntry_outcome, writeEntry_exec. fold written.
  set (st1 := set_downloads written st).
  set (updatedEntry := upserted id update now (downloads st)).
  rewrite exec_bind.
  pose proof (frames_when _ keepsDownloads_refl
                (truthy (e_id updatedEntry) && negb (isCancellable (e_status updatedEntry)))
                _ (pendingDelete_keeps (e_id updatedEntry)) st1) as Hforget.
  fold (forgetFinished updatedEntry) in Hforget.
  destruct (outcome (forgetFinished updatedEntry) st1) as [[]|e].
  - right. set (st2 := exec (forgetFinished updatedEntry) st1) in *.
    rewrite exec_bind. cbn [sortDownloads modify outcome exec fst snd].
    rewrite exec_bind.
    set (st3 := set_downloads (sort compareStartedAt (downloads st2)) st2).
    assert (H3 : downloads (exec evictOverflow st3)
                 = take MAX_DOWNLOAD_ENTRIES (sort compareStartedAt written)).
    { rewrite evictOverflow_downloads. subst st3. cbn [downloads set_downloads].
      rewrite Hforget. reflexivity. }
    destruct (outcome evictOverflow st3) as [[]|e]; [|exact H3].
    rewrite renderDownloads_keeps. exact H3.
  - left. rewrite Hforget. reflexivity.
Qed.

(** ** Proofs: sorting keeps the records *)

Lemma insertSorted_Permutation {A} (cmp : A -> A -> Z) (x : A) (l : list A) :
  insertSorted cmp x l ≡ₚ x :: l.
Proof.
  induction l as [|y l IH]; simpl; [reflexivity|].
  destruct (cmp x y <=? 0); [reflexivity|].
  rewrite IH. apply Permutation_swap.
Qed.

Lemma sort_Permutation {A} (cmp : A -> A -> Z) (l : list A) : sort cmp l ≡ₚ l.
Proof.
  induction l as [|x l IH]; simpl; [reflexivity|].
  rewrite insertSorted_Permutation. rewrite IH. reflexivity.
Qed.

Lemma lookupJob_elem (id : string) (ds : list Entry) (e : Entry) :
  lookupJob id ds = Some e -> e ∈ ds /\ e_id e = id.
Proof.
  unfold lookupJob. destruct (findEntry _ ds) as [[i x]|] eqn:E; [|discriminate].
  intros [= <-]. apply findEntry_Some in E as [Hl Hp].
  split; [eapply list_elem_of_lookup_2; eassumption|].
  apply String.eqb_eq. exact Hp.
Qed.

Lemma lookupJob_None (id : string) (ds : list Entry) :
  lookupJob id ds = None -> id ∉ map e_id ds.
Proof.
  unfold lookupJob. destruct (findEntry _ ds) as [[i x]|] eqn:E; [discriminate|].
  intros _. apply findEntry_None in E. intros Hin.
  apply list_elem_of_fmap in Hin as (e & -> & He).
  rewrite Forall_forall in E. specialize (E e He). simpl in E.
  rewrite String.eqb_refl in E. discriminate.
Qed.

Lemma lookupJob_unique (ds : list Entry) (e : Entry) :
  NoDup (map e_id ds) -> e ∈ ds -> lookupJob (e_id e) ds = Some e.
Proof.
  unfold lookupJob. induction ds as [|x ds IH]; intros Hnd He.
  - inversion He.
  - simpl in Hnd. apply NoDup_cons in Hnd as [Hx Hnd].
    cbn [findEntry]. destruct (String.eqb (e_id x) (e_id e)) eqn:Eq.
    + apply String.eqb_eq in Eq. apply elem_of_cons in He as [->|He]; [reflexivity|].
      exfalso. apply Hx. rewrite Eq. apply list_elem_of_fmap. eauto.
    + apply elem_of_cons in He as [->|He]; [rewrite String.eqb_refl in Eq; discriminate|].
      specialize (IH Hnd He).
      destruct (findEntry _ ds) as [[i y]|]; [|discriminate].
      simpl in IH. injection IH as ->. reflexivity.
Qed.

Lemma lookupJob_Permutation (id : string) (ds ds' : list Entry) :
  NoDup (map e_id ds) -> ds ≡ₚ ds' -> lookupJob id ds' = lookupJob id ds.
Proof.
  intros Hnd Hperm.
  assert (Hnd' : NoDup (map e_id ds')) by (rewrite <- Hperm; exact Hnd).
  destruct (lookupJob id ds) as [e|] eqn:E.
  - apply lookupJob_elem in E as [He <-].
    apply lookupJob_unique; [exact Hnd'|]. rewrite <- Hperm. exact He.
  - apply lookupJob_None in E.
    destruct (lookupJob id ds') as [e'|] eqn:E'; [|reflexivity].
    apply lookupJob_elem in E' as [He' <-]. exfalso. apply E.
    apply list_elem_of_fmap. exists e'. split; [reflexivity|].
    rewrite Hperm. exact He'.
Qed.

Lemma storeUpsert_ids (id : string) (update : JobUpdate) (now : Date)
    (ds : list Entry) :
  map e_id (storeUpsert id update now ds)
  = match lookupJob id ds with
    | Some _ => map e_id ds
    | None => (map e_id ds ++ [id])%list
    end.
Proof.
  unfold storeUpsert, lookupJob.
  destruct (findEntry _ ds) as [[i existing]|] eqn:E; simpl.
  - apply findEntry_Some in E as [Hl Hp]. apply String.eqb_eq in Hp.
    rewrite list_fmap_insert. cbn [mergeEntry e_id].
    apply list_insert_id. rewrite list_lookup_fmap, Hl. simpl. congruence.
  - rewrite map_app. reflexivity.
Qed.

Lemma storeUpsert_NoDup (id : string) (update : JobUpdate) (now : Date)
    (ds : list Entry) :
  NoDup (map e_id ds) -> NoDup (map e_id (storeUpsert id update now ds)).
Proof.
  intros Hnd. rewrite storeUpsert_ids.
  destruct (lookupJob id ds) eqn:E; [exact Hnd|].
  apply lookupJob_None in E.
  apply NoDup_app. split; [exact Hnd|]. split.
  - intros x Hx Hin. apply list_elem_of_singleton in Hin. subst. contradiction.
  - apply NoDup_singleton.
Qed.

Lemma storeUpsert_length (id : string) (update : JobUpdate) (now : Date)
    (ds : list Entry) :
  length (storeUpsert id update now ds)
  = match lookupJob id ds with
    | Some _ => length ds
    | None => S (length ds)
    end.
Proof.
  rewrite <- (length_map e_id), storeUpsert_ids.
  destruct (lookupJob id ds); [apply length_map|].
  rewrite length_app, length_map. simpl. lia.
Qed.

(** ** Proofs: [startedAt] across upserts of one id *)

Lemma upsertDownload_lookup (id : string) (now : Date) (update : JobUpdate)
    (st : State) :
  roomFor id (downloads st) -> u_id update = Some id -> truthy id = true ->
  let st' := exec (upsertDownload now update) st in
  roomFor id (downloads st')
  /\ lookupJob id (downloads st') = Some (upserted id update now (downloads st)).
Proof.
  intros [Hnd Hroom] Hid Ht st'.
  set (written := storeUpsert id update now (downloads st)).
  assert (Hnd1 : NoDup (map e_id written)) by (apply storeUpsert_NoDup; exact Hnd).
  assert (Hlook : lookupJob id written = Some (upserted id update now (downloads st)))
    by apply lookupJob_storeUpsert.
  assert (Hlen : (length written <= MAX_DOWNLOAD_ENTRIES)%nat).
  { subst written. rewrite storeUpsert_length.
    destruct Hroom as [Hlt|[Hle [e He]]].
    - destruct (lookupJob id (downloads st)); lia.
    - rewrite He. exact Hle. }
  assert (Hgoal : forall ds, ds ≡ₚ written ->
            roomFor id ds
            /\ lookupJob id ds = Some (upserted id update now (downloads st))).
  { intros ds Hperm.
    assert (Hl : lookupJob id ds = Some (upserted id update now (downloads st)))
      by (rewrite <- Hlook; apply lookupJob_Permutation; [exact Hnd1 | symmetry; exact Hperm]).
    split; [|exact Hl]. split; [rewrite Hperm; exact Hnd1|].
    right. split; [rewrite Hperm; exact Hlen | rewrite Hl; eauto]. }
  destruct (upsertDownload_downloads now update id st Hid Ht) as [H|H];
    fold written in H; fold st' in H; rewrite H.
  - apply Hgoal. reflexivity.
  - apply Hgoal. rewrite take_ge by (rewrite sort_Permutation; exact Hlen).
    apply sort_Permutation.
Qed.

Lemma upserted_startedAt (id : string) (update : JobUpdate) (now : Date)
    (ds : list Entry) :
  e_startedAt (upserted id update now ds)
  = default (default now (e_startedAt <$> lookupJob id ds)) (u_startedAt update).
Proof.
  unfold upserted. destruct (lookupJob id ds); cbn;
    destruct (u_startedAt update); reflexivity.
Qed.

Lemma upsertAll_startedAt (id : string) (calls : list (Date * JobUpdate)) (st : State) :
  truthy id = true ->
  Forall (fun call => u_id call.2 = Some id) calls ->
  roomFor id (downloads st) ->
  e_startedAt <$> lookupJob id (downloads (upsertAll calls st))
  = startedAtAfter (e_startedAt <$> lookupJob id (downloads st)) calls.
Proof.
  intros Ht Hids. revert st. induction Hids as [|[now update] calls Hid _ IH];
    intros st Hroom; [reflexivity|].
  cbn [upsertAll startedAtAfter foldl fst snd] in *.
  destruct (upsertDownload_lookup id now update st Hroom Hid Ht) as [Hroom' Hlook].
  fold (upsertAll calls (exec (upsertDownload now update) st)).
  rewrite (IH _ Hroom'), Hlook. cbn [fmap option_fmap option_map].
  rewrite upserted_startedAt. reflexivity.
Qed.

(** The same for [static/script.js], where nothing is sorted and a new entry
    goes to the head of the list. *)

Lemma upsertDownloadStatic_lookup (id : string) (now : Date) (update : JobUpdate)
    (st : StaticScript.State) :
  is_Some (StaticScript.downloadsList st) ->
  u_id update = Some id -> truthy id = true ->
  let st' := StaticScript.upsertDownload now update StaticScript.AtStart st in
  is_Some (StaticScript.downloadsList st')
  /\ lookupJob id (StaticScript.downloadEntries st')
     = Some (upsertedStatic id update now (StaticScript.downloadEntries st)).
Proof.
  intros [shown Hshown] Hid Ht st'. subst st'.
  unfold StaticScript.upsertDownload, upsertedStatic, lookupJob.
  rewrite Hshown, Hid, Ht. cbn [negb].
  destruct (findEntry _ (StaticScript.downloadEntries st)) as [[i existing]|] eqn:E;
    unfold StaticScript.renderDownloads; cbn; rewrite Hshown; cbn.
  - split; [eauto|].
    erewrite findEntry_insert; [reflexivity | eassumption |].
    cbn. apply String.eqb_refl.
  - split; [eauto|].
    destruct (StaticScript.downloadEntries st) as [|? [|? [|? [|? [|? [|? [|? [|? ?]]]]]]]];
      cbn; rewrite String.eqb_refl; reflexivity.
Qed.

Lemma upsertedStatic_startedAt (id : string) (update : JobUpdate) (now : Date)
    (ds : list Entry) :
  Some (e_startedAt (upsertedStatic id update now ds))
  = match e_startedAt <$> lookupJob id ds with
    | Some started => Some started
    | None => Some (default now (u_startedAt update))
    end.
Proof. unfold upsertedStatic. destruct (lookupJob id ds); reflexivity. Qed.

Lemma upsertAllStatic_startedAt (id : string) (calls : list (Date * JobUpdate))
    (st : StaticScript.State) :
  truthy id = true ->
  Forall (fun call => u_id call.2 = Some id) calls ->
  is_Some (StaticScript.downloadsList st) ->
  e_startedAt <$> lookupJob id (StaticScript.downloadEntries (upsertAllStatic calls st))
  = startedAtPinned (e_startedAt <$> lookupJob id (StaticScript.downloadEntries st)) calls.
Proof.
  intros Ht Hids. revert st. induction Hids as [|[now update] calls Hid _ IH];
    intros st Hshown; [reflexivity|].
  cbn [upsertAllStatic startedAtPinned foldl fst snd] in *.
  destruct (upsertDownloadStatic_lookup id now update st Hshown Hid Ht) as [Hshown' Hlook].
  fold (upsertAllStatic calls
          (StaticScript.upsertDownload now update StaticScript.AtStart st)).
  rewrite (IH _ Hshown'), Hlook. cbn [fmap option_fmap option_map].
  rewrite upsertedStatic_startedAt. reflexivity.
Qed.

(** C1, as stated, fails on the panel script: two polls of one job, the
    second carrying another [startedAt] (here the clock, the backend sending
    no date), leave the second value in the store. *)
Lemma startedAt_overwritten_by_later_update :
  let calls := (polled 100 (snapshot "j1" "processing" 10)
                ++ polled 200 (snapshot "j1" "processing" 40))%list in
  e_startedAt <$> lookupJob "j1" (downloads (upsertAll (take 1 calls) (initialState false)))
  = Some 100
  /\ e_startedAt <$> lookupJob "j1" (downloads (upsertAll calls (initialState false)))
     = Some 200.
Proof. split; vm_compute; reflexivity. Qed.

(** C1, amended: over a sequence of upserts that share an id, in
    [static/script.js] (on a page with the downloads list) the record keeps
    the [startedAt] of its first insert (the stored one when the id was
    known); in the panel script, in a store that holds no id twice and has
    room for the id ([roomFor]: fewer than 8 records, or at most 8 with the
    id among them, so that the record is not cut off as the oldest in
    between), each later update that carries a [startedAt] replaces the
    stored one and an update that carries none keeps it, so the record ends
    with the [startedAt] of the last update that carried one. *)
Theorem startedAt_across_upserts (id : string) (calls : list (Date * JobUpdate)) :
  truthy id = true ->
  Forall (fun call => u_id call.2 = Some id) calls ->
  (forall st : StaticScript.State,
      is_Some (StaticScript.downloadsList st) ->
      e_startedAt <$> lookupJob id (StaticScript.downloadEntries (upsertAllStatic calls st))
      = startedAtPinned
          (e_startedAt <$> lookupJob id (StaticScript.downloadEntries st)) calls)
  /\ (forall st : State,
         roomFor id (downloads st) ->
         e_startedAt <$> lookupJob id (downloads (upsertAll calls st))
         = startedAtAfter (e_startedAt <$> lookupJob id (downloads st)) calls).
Proof.
  intros Ht Hids. split.
  - intros st Hshown. apply upsertAllStatic_startedAt; assumption.
  - intros st Hroom. apply upsertAll_startedAt; assumption.
Qed.

(** Three upserts of [j1]: with start 100, with none, with start 300; on
    the empty store, and on a store of eight records that holds [j1]
    already. *)
Lemma startedAt_across_upserts_witness :
  let calls := [ (1, startedUpdate "j1" (Some 100));
                 (2, startedUpdate "j1" None);
                 (3, startedUpdate "j1" (Some 300)) ] in
  let full :=
    upsertAll (map (fun id => (0, startedUpdate id (Some 50)))
                   [ "j1"; "j2"; "j3"; "j4"; "j5"; "j6"; "j7"; "j8" ])
              (initialState false) in
  e_startedAt <$> lookupJob "j1"
    (StaticScript.downloadEntries (upsertAllStatic calls StaticScript.initialState))
  = Some 100
  /\ e_startedAt <$> lookupJob "j1" (downloads (upsertAll calls (initialState false)))
     = Some 300
  /\ length (downloads full) = MAX_DOWNLOAD_ENTRIES
  /\ e_startedAt <$> lookupJob "j1" (downloads full) = Some 50
  /\ e_startedAt <$> lookupJob "j1" (downloads (upsertAll calls full)) = Some 300.
Proof.
  intros calls full.
  assert (Hids : Forall (fun call => u_id call.2 = Some "j1") calls)
    by (repeat constructor).
  destruct (startedAt_across_upserts "j1" calls eq_refl Hids) as [Hstatic Hpanel].
  assert (Hlen : length (downloads full) = MAX_DOWNLOAD_ENTRIES)
    by (vm_compute; reflexivity).
  assert (Hthere : e_startedAt <$> lookupJob "j1" (downloads full) = Some 50)
    by (vm_compute; reflexivity).
  assert (Hroom : roomFor "j1" (downloads full)).
  { assert (Hnames : map e_id (downloads full)
                     = [ "j1"; "j2"; "j3"; "j4"; "j5"; "j6"; "j7"; "j8" ])
      by (vm_compute; reflexivity).
    split.
    - rewrite Hnames.
      apply (bool_decide_unpack
               (NoDup [ "j1"; "j2"; "j3"; "j4"; "j5"; "j6"; "j7"; "j8" ])).
      vm_compute. exact I.
    - right. split; [rewrite Hlen; apply Nat.le_refl|].
      destruct (lookupJob "j1" (downloads full)); [eauto | discriminate Hthere]. }
  split.
  - rewrite (Hstatic StaticScript.initialState (ex_intro _ [] eq_refl)). reflexivity.
  - split.
    + rewrite (Hpanel (initialState false)); [reflexivity|].
      split; [apply NoDup_nil_2|]. left. unfold MAX_DOWNLOAD_ENTRIES. simpl. lia.
    + split; [exact Hlen|]. split; [exact Hthere|].
      rewrite (Hpanel full Hroom), Hthere. reflexivity.
Defined.

(** ** Proofs: pollers *)

Lemma startJobPolling_running (jobId : string) (options : PollOptions) (st : State) :
  is_Some (pollers st !! jobId) ->
  startJobPolling jobId options st = (st, Returned tt).
Proof.
  intros H. unfold startJobPolling, bind, getState.
  rewrite (bool_decide_eq_true_2 _ H), orb_true_r. reflexivity.
Qed.

Lemma startJobPolling_fresh (jobId : string) (options : PollOptions) (st : State) :
  truthy jobId = true -> pollers st !! jobId = None ->
  exists st', startJobPolling jobId options st = (st', Returned tt)
    /\ pollers st' = <[jobId := nextTimer st]> (pollers st)
    /\ timers st' = <[nextTimer st := (jobId, options)]> (timers st)
    /\ requests st' = (requests st ++ [GetJob jobId])%list.
Proof.
  intros Ht Hn. unfold startJobPolling, bind, getState.
  rewrite Ht. cbn [negb orb].
  rewrite bool_decide_eq_false_2 by (rewrite Hn; apply is_Some_None).
  unfold pollJob_start. rewrite Ht. cbn.
  eexists. split; [reflexivity|]. repeat split.
Qed.

Lemma startJobPolling_falsy (jobId : string) (options : PollOptions) (st : State) :
  truthy jobId = false -> startJobPolling jobId options st = (st, Returned tt).
Proof.
  intros Ht. unfold startJobPolling, bind, getState. rewrite Ht. reflexivity.
Qed.

Lemma startJobPolling_registered (jobId : string) (options : PollOptions) (st : State) :
  timersRegistered st -> timersRegistered (exec (startJobPolling jobId options) st).
Proof.
  intros Hreg. destruct (truthy jobId) eqn:Ht;
    [|unfold exec; rewrite startJobPolling_falsy by assumption; exact Hreg].
  destruct (pollers st !! jobId) as [t|] eqn:Hp.
  - unfold exec. rewrite startJobPolling_running by eauto. exact Hreg.
  - destruct (startJobPolling_fresh jobId options st Ht Hp) as (st' & Hrun & Hp' & Ht' & _).
    unfold exec. rewrite Hrun. cbn [fst].
    intros t j o. rewrite Ht', Hp'.
    destruct (decide (nextTimer st = t)) as [<-|Hne].
    + rewrite lookup_insert_eq. intros [= <- <-]. apply lookup_insert_eq.
    + rewrite lookup_insert_ne by assumption. intros Hold.
      specialize (Hreg _ _ _ Hold).
      rewrite lookup_insert_ne by congruence. exact Hreg.
Qed.

Lemma stopJobPolling_falsy (jobId : string) (st : State) :
  truthy jobId = false -> stopJobPolling jobId st = (st, Returned tt).
Proof. intros Ht. unfold stopJobPolling. rewrite Ht. reflexivity. Qed.

Lemma stopJobPolling_registered (jobId : string) (st : State) :
  timersRegistered st -> timersRegistered (exec (stopJobPolling jobId) st).
Proof.
  intros Hreg. destruct (truthy jobId) eqn:Ht;
    [|unfold exec; rewrite stopJobPolling_falsy by assumption; exact Hreg].
  destruct (stopJobPolling_run jobId st Ht) as (st' & Hrun & Hp' & Ht' & _).
  unfold exec. rewrite Hrun. cbn [fst].
  intros t j o. rewrite Ht', Hp'.
  destruct (pollers st !! jobId) as [t0|] eqn:Hp.
  - intros Hl. apply lookup_delete_Some in Hl as [Hne Hold].
    specialize (Hreg _ _ _ Hold).
    rewrite lookup_delete_ne by congruence. exact Hreg.
  - intros Hold. specialize (Hreg _ _ _ Hold).
    rewrite lookup_delete_ne by congruence. exact Hreg.
Qed.

Lemma initialState_registered (debug : bool) : timersRegistered (initialState debug).
Proof. intros t j o H. cbn in H. rewrite lookup_empty in H. discriminate. Qed.

Lemma timerFires_fetches (t : positive) (st : State) :
  fetchedBy t st
  = match timers st !! t with
    | Some (jobId, _) => if truthy jobId then [GetJob jobId] else []
    | None => []
    end.
Proof.
  unfold fetchedBy, timerFires, exec, bind, getState.
  destruct (timers st !! t) as [[jobId options]|]; cbn.
  - unfold pollJob_start. destruct (truthy jobId); cbn.
    + rewrite drop_app_length. reflexivity.
    + apply drop_all.
  - apply drop_all.
Qed.

(** After [stopJobPolling(jobId)]: no bookkeeping, no timer, no fetch. *)
Lemma stopJobPolling_halts (jobId : string) (st : State) :
  truthy jobId = true -> timersRegistered st ->
  let st' := exec (stopJobPolling jobId) st in
  pollers st' !! jobId = None
  /\ (forall t options, timers st' !! t <> Some (jobId, options))
  /\ (forall t, GetJob jobId ∉ fetchedBy t st').
Proof.
  intros Ht Hreg st'.
  pose proof (stopJobPolling_registered jobId st Hreg) as Hreg'. fold st' in Hreg'.
  assert (Hgone : pollers st' !! jobId = None).
  { subst st'. destruct (stopJobPolling_run jobId st Ht) as (st1 & Hrun & Hp & _).
    unfold exec. rewrite Hrun. cbn [fst]. rewrite Hp. apply lookup_delete_eq. }
  assert (Hnone : forall t options, timers st' !! t <> Some (jobId, options)).
  { intros t options Hl. apply Hreg' in Hl. congruence. }
  split; [exact Hgone|]. split; [exact Hnone|].
  intros t. rewrite timerFires_fetches.
  destruct (timers st' !! t) as [[j o]|] eqn:Hl; [|apply not_elem_of_nil].
  destruct (truthy j); [|apply not_elem_of_nil].
  intros Hin. apply list_elem_of_singleton in Hin. injection Hin as <-.
  exact (Hnone _ _ Hl).
Qed.

(** The same for [static/script.js]. *)

Lemma beginJobPolling_running (jobId : string) (show : bool)
    (st : StaticScript.State) (info : StaticScript.PollerInfo) :
  truthy jobId = true -> StaticScript.jobPollers st !! jobId = Some info ->
  StaticScript.beginJobPolling jobId show st
  = StaticScript.set_jobPollers
      (<[jobId := {| StaticScript.showConsole := StaticScript.showConsole info || show;
                     StaticScript.timer := StaticScript.timer info |}]>
         (StaticScript.jobPollers st)) st.
Proof.
  intros Ht Hp. unfold StaticScript.beginJobPolling. rewrite Ht, Hp. cbn [negb].
  destruct show.
  - rewrite orb_true_r. reflexivity.
  - rewrite orb_false_r.
    replace {| StaticScript.showConsole := StaticScript.showConsole info;
               StaticScript.timer := StaticScript.timer info |} with info
      by (destruct info; reflexivity).
    rewrite insert_id by assumption. destruct st; reflexivity.
Qed.

Lemma beginJobPolling_registered (jobId : string) (show : bool)
    (st : StaticScript.State) :
  timersRegisteredStatic st ->
  timersRegisteredStatic (StaticScript.beginJobPolling jobId show st).
Proof.
  intros Hreg. destruct (truthy jobId) eqn:Ht;
    [|unfold StaticScript.beginJobPolling; rewrite Ht; exact Hreg].
  destruct (StaticScript.jobPollers st !! jobId) as [info|] eqn:Hp.
  - rewrite (beginJobPolling_running jobId show st info Ht Hp).
    intros t j Hl. cbn in Hl |- *. destruct (Hreg t j Hl) as (i & Hi & Hti).
    destruct (decide (jobId = j)) as [<-|Hne].
    + rewrite lookup_insert_eq. eexists. split; [reflexivity|]. cbn. congruence.
    + rewrite lookup_insert_ne by assumption. eauto.
  - unfold StaticScript.beginJobPolling, StaticScript.pollJob_start.
    rewrite Ht, Hp. cbn [negb].
    intros t j. cbn. intros Hl.
    destruct (decide (StaticScript.nextTimer st = t)) as [<-|Hne].
    + rewrite lookup_insert_eq in Hl. injection Hl as <-.
      rewrite lookup_insert_eq. eexists. split; reflexivity.
    + rewrite lookup_insert_ne in Hl by assumption.
      destruct (Hreg t j Hl) as (i & Hi & Hti).
      rewrite lookup_insert_ne by congruence. eauto.
Qed.

Lemma stopJobPollingStatic_registered (jobId : string) (st : StaticScript.State) :
  timersRegisteredStatic st ->
  timersRegisteredStatic (StaticScript.stopJobPolling jobId st).
Proof.
  intros Hreg t j. unfold StaticScript.stopJobPolling.
  destruct (StaticScript.jobPollers st !! jobId) as [[show [t0|]]|] eqn:Hp; cbn; intros Hl.
  - apply lookup_delete_Some in Hl as [Hne Hold].
    destruct (Hreg t j Hold) as (i & Hi & Hti).
    rewrite lookup_delete_ne; [eauto|]. intros <-. rewrite Hp in Hi.
    injection Hi as <-. cbn in Hti. congruence.
  - destruct (Hreg t j Hl) as (i & Hi & Hti).
    rewrite lookup_delete_ne; [eauto|]. intros <-. rewrite Hp in Hi.
    injection Hi as <-. discriminate.
  - destruct (Hreg t j Hl) as (i & Hi & Hti).
    rewrite lookup_delete_ne; [eauto|]. intros <-. congruence.
Qed.

Lemma staticPollerCalls_registered (calls : list StaticPollerCall)
    (st : StaticScript.State) :
  timersRegisteredStatic st -> timersRegisteredStatic (staticPollerCalls calls st).
Proof.
  revert st. induction calls as [|[jobId show|jobId] calls IH]; intros st Hreg;
    [exact Hreg| |]; apply IH;
    [apply beginJobPolling_registered | apply stopJobPollingStatic_registered];
    exact Hreg.
Qed.

Lemma initialStateStatic_registered : timersRegisteredStatic StaticScript.initialState.
Proof. intros t j H. cbn in H. rewrite lookup_empty in H. discriminate. Qed.

Lemma timerFiresStatic_fetches (t : positive) (st : StaticScript.State) :
  forall request, request ∈ fetchedByStatic t st ->
                  StaticScript.timers st !! t = Some request.1.
Proof.
  intros request. unfold fetchedByStatic, StaticScript.timerFires.
  destruct (StaticScript.timers st !! t) as [jobId|]; cbn.
  - unfold StaticScript.pollJob_start. destruct (truthy jobId); cbn.
    + rewrite drop_app_length. intros Hin. apply list_elem_of_singleton in Hin.
      subst. reflexivity.
    + rewrite drop_all. intros Hin. inversion Hin.
  - rewrite drop_all. intros Hin. inversion Hin.
Qed.

Lemma stopJobPollingStatic_halts (jobId : string) (st : StaticScript.State) :
  timersRegisteredStatic st ->
  let st' := StaticScript.stopJobPolling jobId st in
  StaticScript.jobPollers st' !! jobId = None
  /\ (forall t, StaticScript.timers st' !! t <> Some jobId)
  /\ (forall t show, (jobId, show) ∉ fetchedByStatic t st').
Proof.
  intros Hreg st'.
  pose proof (stopJobPollingStatic_registered jobId st Hreg) as Hreg'. fold st' in Hreg'.
  assert (Hgone : StaticScript.jobPollers st' !! jobId = None).
  { subst st'. unfold StaticScript.stopJobPolling.
    destruct (StaticScript.jobPollers st !! jobId) as [[show [t0|]]|]; cbn;
      apply lookup_delete_eq. }
  assert (Hnone : forall t, StaticScript.timers st' !! t <> Some jobId).
  { intros t Hl. destruct (Hreg' t jobId Hl) as (i & Hi & _). congruence. }
  split; [exact Hgone|]. split; [exact Hnone|].
  intros t show Hin. apply timerFiresStatic_fetches in Hin. exact (Hnone t Hin).
Qed.

(** ** Proofs: the pending-cancellation set is never there *)

Lemma staysUndefined_refl (st : State) : staysUndefined st st.
Proof. intros H. exact H. Qed.

Lemma staysUndefined_trans (a b c : State) :
  staysUndefined a b -> staysUndefined b c -> staysUndefined a c.
Proof. unfold staysUndefined. auto. Qed.

Lemma sameJobs_staysUndefined {A} (m : M State A) :
  frames sameJobs m -> frames staysUndefined m.
Proof. intros H st Hp. destruct (H st) as (_ & _ & Hc & _). congruence. Qed.

Lemma pendingHas_staysUndefined (jobId : string) :
  frames staysUndefined (pendingHas jobId).
Proof. intros st H. unfold exec, pendingHas. rewrite H. exact H. Qed.

Lemma pendingAdd_staysUndefined (jobId : string) :
  frames staysUndefined (pendingAdd jobId).
Proof. intros st H. unfold exec, pendingAdd. rewrite H. exact H. Qed.

Lemma pendingDelete_staysUndefined (jobId : string) :
  frames staysUndefined (pendingDelete jobId).
Proof. intros st H. unfold exec, pendingDelete. rewrite H. exact H. Qed.

Lemma modify_staysUndefined (f : State -> State) :
  (forall st, pendingCancellations (f st) = pendingCancellations st) ->
  frames staysUndefined (modify f).
Proof. intros H. apply frames_modify. intros st Hp. rewrite H. exact Hp. Qed.

(** One step of a proof that a function never assigns the set. *)
Ltac undefined_step :=
  first
    [ progress cbv beta iota
    | apply pendingHas_staysUndefined
    | apply pendingAdd_staysUndefined
    | apply pendingDelete_staysUndefined
    | apply sameJobs_staysUndefined;
      first [ apply appendConsoleLine_sameJobs
            | apply renderLogLines_sameJobs
            | apply setDebugMode_sameJobs ]
    | apply modify_staysUndefined; intros ?;
      repeat match goal with |- context [match ?x with _ => _ end] => destruct x end;
      reflexivity
    | frame_step staysUndefined_refl staysUndefined_trans
    | match goal with
      | |- frames _ (match ?x with _ => _ end) => destruct x; cbv beta iota
      | |- frames _ (if ?b then _ else _) => destruct b; cbv beta iota
      end ].

Lemma stopJobPolling_staysUndefined (jobId : string) :
  frames staysUndefined (stopJobPolling jobId).
Proof. unfold stopJobPolling. repeat undefined_step. Qed.

Lemma renderDownloads_staysUndefined : frames staysUndefined renderDownloads.
Proof.
  unfold renderDownloads, buildDownloadItem, appendListChild. repeat undefined_step.
Qed.

Lemma upsertDownload_staysUndefined (now : Date) (update : JobUpdate) :
  frames staysUndefined (upsertDownload now update).
Proof.
  unfold upsertDownload, writeEntry, forgetFinished, sortDownloads, evictOverflow.
  repeat first [ apply renderDownloads_staysUndefined
               | apply stopJobPolling_staysUndefined
               | undefined_step ].
Qed.

Lemma startJobPolling_staysUndefined (jobId : string) (options : PollOptions) :
  frames staysUndefined (startJobPolling jobId options).
Proof.
  unfold startJobPolling, pollJob_start. repeat undefined_step.
Qed.

Lemma cancelJob_start_staysUndefined (jobId : string) :
  frames staysUndefined (cancelJob_start jobId).
Proof.
  unfold cancelJob_start.
  repeat first [ apply renderDownloads_staysUndefined | undefined_step ].
Qed.

Section NeverInitialised.
Variable Date_parse : string -> option Date.

Lemma pollJob_resume_staysUndefined (now : Date) (jobId : string)
    (options : PollOptions) (fetched : Fetched JobData) :
  frames staysUndefined (pollJob_resume Date_parse now jobId options fetched).
Proof.
  unfold pollJob_resume. cbv zeta.
  repeat first [ apply renderDownloads_staysUndefined
               | apply stopJobPolling_staysUndefined
               | apply upsertDownload_staysUndefined
               | undefined_step ].
Qed.

Lemma cancelJob_resume_staysUndefined (now : Date) (jobId : string)
    (fetched : Fetched JobData) :
  frames staysUndefined (cancelJob_resume Date_parse now jobId fetched).
Proof.
  unfold cancelJob_resume. cbv zeta.
  repeat first [ apply renderDownloads_staysUndefined
               | apply stopJobPolling_staysUndefined
               | apply upsertDownload_staysUndefined
               | apply startJobPolling_staysUndefined
               | undefined_step ].
Qed.
End NeverInitialised.

(** With the set undefined, building the card of a job that can be cancelled
    throws, whatever else the state holds. *)
Lemma buildDownloadItem_undefined_throws (entry : Entry) (isSelected : bool)
    (st : State) :
  pendingCancellations st = None ->
  truthy (e_id entry) = true -> isCancellable (e_status entry) = true ->
  buildDownloadItem entry isSelected st = (st, Threw (undefinedDeref "has")).
Proof.
  intros Hp Hid Hc. unfold buildDownloadItem. rewrite Hid, Hc. cbn [andb].
  unfold bind, pendingHas. rewrite Hp. reflexivity.
Qed.

(** With the set undefined, [cancelJob] throws at its first test: nothing is
    marked, nothing rendered, no request made. *)
Lemma cancelJob_start_undefined_throws (jobId : string) (st : State) :
  pendingCancellations st = None -> truthy jobId = true ->
  cancelJob_start jobId st = (st, Threw (undefinedDeref "has")).
Proof.
  intros Hp Ht. unfold cancelJob_start. rewrite Ht. cbn [negb].
  unfold bind, pendingHas. rewrite Hp. reflexivity.
Qed.

(** ** Proofs: what holds in every state the page can reach *)

Lemma keepsRegistered_refl (st : State) : keepsRegistered st st.
Proof. intros H. exact H. Qed.

Lemma keepsRegistered_trans (a b c : State) :
  keepsRegistered a b -> keepsRegistered b c -> keepsRegistered a c.
Proof. unfold keepsRegistered. auto. Qed.

Lemma same_timers_keepsRegistered (st st' : State) :
  pollers st' = pollers st -> timers st' = timers st -> keepsRegistered st st'.
Proof. intros Hp Ht Hreg t j o. rewrite Hp, Ht. apply Hreg. Qed.

Lemma sameJobs_keepsRegistered {A} (m : M State A) :
  frames sameJobs m -> frames keepsRegistered m.
Proof.
  intros H st. destruct (H st) as (_ & Hp & _ & _ & _ & _ & Ht & _).
  apply same_timers_keepsRegistered; assumption.
Qed.

Lemma pendingHas_keepsRegistered (jobId : string) :
  frames keepsRegistered (pendingHas jobId).
Proof.
  intros st. unfold exec, pendingHas.
  destruct (pendingCancellations st); apply keepsRegistered_refl.
Qed.

Lemma pendingAdd_keepsRegistered (jobId : string) :
  frames keepsRegistered (pendingAdd jobId).
Proof.
  intros st. unfold exec, pendingAdd.
  destruct (pendingCancellations st); apply same_timers_keepsRegistered; reflexivity.
Qed.

Lemma pendingDelete_keepsRegistered (jobId : string) :
  frames keepsRegistered (pendingDelete jobId).
Proof.
  intros st. unfold exec, pendingDelete.
  destruct (pendingCancellations st); apply same_timers_keepsRegistered; reflexivity.
Qed.

Lemma modify_keepsRegistered (f : State -> State) :
  (forall st, pollers (f st) = pollers st) ->
  (forall st, timers (f st) = timers st) ->
  frames keepsRegistered (modify f).
Proof.
  intros Hp Ht. apply frames_modify. intros st.
  apply same_timers_keepsRegistered; [apply Hp | apply Ht].
Qed.

Lemma stopJobPolling_keepsRegistered (jobId : string) :
  frames keepsRegistered (stopJobPolling jobId).
Proof. intros st H. apply stopJobPolling_registered. exact H. Qed.

Lemma startJobPolling_keepsRegistered (jobId : string) (options : PollOptions) :
  frames keepsRegistered (startJobPolling jobId options).
Proof. intros st H. apply startJobPolling_registered. exact H. Qed.

(** One step of a proof that a function keeps the timers registered. *)
Ltac registered_step :=
  first
    [ progress cbv beta iota
    | apply pendingHas_keepsRegistered
    | apply pendingAdd_keepsRegistered
    | apply pendingDelete_keepsRegistered
    | apply stopJobPolling_keepsRegistered
    | apply startJobPolling_keepsRegistered
    | apply sameJobs_keepsRegistered;
      first [ apply appendConsoleLine_sameJobs
            | apply renderLogLines_sameJobs
            | apply setDebugMode_sameJobs ]
    | apply modify_keepsRegistered; intros ?;
      repeat match goal with |- context [match ?x with _ => _ end] => destruct x end;
      reflexivity
    | frame_step keepsRegistered_refl keepsRegistered_trans
    | match goal with
      | |- frames _ (match ?x with _ => _ end) => destruct x; cbv beta iota
      | |- frames _ (if ?b then _ else _) => destruct b; cbv beta iota
      end ].

Lemma renderDownloads_keepsRegistered : frames keepsRegistered renderDownloads.
Proof.
  unfold renderDownloads, buildDownloadItem, appendListChild. repeat registered_step.
Qed.

Lemma upsertDownload_keepsRegistered (now : Date) (update : JobUpdate) :
  frames keepsRegistered (upsertDownload now update).
Proof.
  unfold upsertDownload, writeEntry, forgetFinished, sortDownloads, evictOverflow.
  repeat first [ apply renderDownloads_keepsRegistered | registered_step ].
Qed.

Lemma cancelJob_start_keepsRegistered (jobId : string) :
  frames keepsRegistered (cancelJob_start jobId).
Proof.
  unfold cancelJob_start.
  repeat first [ apply renderDownloads_keepsRegistered | registered_step ].
Qed.

Lemma timerFires_keepsRegistered (t : positive) : frames keepsRegistered (timerFires t).
Proof. unfold timerFires, pollJob_start. repeat registered_step. Qed.

Lemma timerFires_staysUndefined (t : positive) : frames staysUndefined (timerFires t).
Proof. unfold timerFires, pollJob_start. repeat undefined_step. Qed.

Section Reachable.
Variable Date_parse : string -> option Date.

Lemma pollJob_resume_keepsRegistered (now : Date) (jobId : string)
    (options : PollOptions) (fetched : Fetched JobData) :
  frames keepsRegistered (pollJob_resume Date_parse now jobId options fetched).
Proof.
  unfold pollJob_resume. cbv zeta.
  repeat first [ apply renderDownloads_keepsRegistered
               | apply upsertDownload_keepsRegistered
               | registered_step ].
Qed.

Lemma cancelJob_resume_keepsRegistered (now : Date) (jobId : string)
    (fetched : Fetched JobData) :
  frames keepsRegistered (cancelJob_resume Date_parse now jobId fetched).
Proof.
  unfold cancelJob_resume. cbv zeta.
  repeat first [ apply renderDownloads_keepsRegistered
               | apply upsertDownload_keepsRegistered
               | registered_step ].
Qed.

Lemma step_registered (s : Step) (st : State) :
  timersRegistered st -> timersRegistered (step Date_parse s st).
Proof.
  destruct s; cbn [step].
  - apply upsertDownload_keepsRegistered.
  - apply startJobPolling_keepsRegistered.
  - apply stopJobPolling_keepsRegistered.
  - apply timerFires_keepsRegistered.
  - apply pollJob_resume_keepsRegistered.
  - apply cancelJob_start_keepsRegistered.
  - apply cancelJob_resume_keepsRegistered.
  - apply (sameJobs_keepsRegistered _ (renderLogLines_sameJobs lines)).
  - apply (sameJobs_keepsRegistered _ (setDebugMode_sameJobs enabled)).
Qed.

Lemma run_registered (steps : list Step) (st : State) :
  timersRegistered st -> timersRegistered (run Date_parse steps st).
Proof.
  revert st. induction steps as [|s steps IH]; intros st H; [exact H|].
  apply IH. apply step_registered. exact H.
Qed.

Lemma step_staysUndefined (s : Step) (st : State) :
  pendingCancellations st = None -> pendingCancellations (step Date_parse s st) = None.
Proof.
  destruct s; cbn [step].
  - apply upsertDownload_staysUndefined.
  - apply startJobPolling_staysUndefined.
  - apply stopJobPolling_staysUndefined.
  - apply timerFires_staysUndefined.
  - apply pollJob_resume_staysUndefined.
  - apply cancelJob_start_staysUndefined.
  - apply cancelJob_resume_staysUndefined.
  - apply (sameJobs_staysUndefined _ (renderLogLines_sameJobs lines)).
  - apply (sameJobs_staysUndefined _ (setDebugMode_sameJobs enabled)).
Qed.

(** Whatever happens on the page, the set stays undefined. *)
Lemma run_staysUndefined (steps : list Step) (debug : bool) :
  pendingCancellations (run Date_parse steps (initialState debug)) = None.
Proof.
  assert (H : forall st, pendingCancellations st = None ->
                         pendingCancellations (run Date_parse steps st) = None).
  { induction steps as [|s steps IH]; intros st H; [exact H|].
    apply IH. apply step_staysUndefined. exact H. }
  apply H. reflexivity.
Qed.
End Reachable.

(** C6, as stated, fails on the panel script: a second [startJobPolling] for
    an id that is polling, asking for the console, upgrades no flag; the
    timer keeps the options of the first call. *)
Lemma startJobPolling_keeps_first_options :
  let st1 := exec (startJobPolling "j1" noOptions) (initialState false) in
  let st2 :=
    exec (startJobPolling "j1" {| showConsole := true; notifyNotFound := false |}) st1 in
  pollerShowsConsole st1 "j1" = Some false
  /\ pollerShowsConsole st2 "j1" = Some false.
Proof. split; vm_compute; reflexivity. Qed.

(** C6, amended: in both scripts every running timer is the one registered
    for its job, in the initial state and after any sequence of start and
    stop calls (and of any other step of the page), so a job has at most
    one timer; a start call for an id that
    is already polling creates no timer: in [static/script.js] it changes
    nothing but that poller's show-console flag, which it raises when asked
    to, and in the panel script it changes nothing at all (the timer keeps
    the options of the first call, and the console follows
    [state.activeConsoleJobId]); one stop call removes the id from the
    poller map and clears its timer, so that no timer is left to fetch for
    that id. *)
Theorem pollers_start_once_stop_halts :
  (forall debug, timersRegistered (initialState debug))
  /\ (forall st : State,
         timersRegistered st ->
         (forall Date_parse steps, timersRegistered (run Date_parse steps st))
         /\ (forall t t' jobId options options',
                timers st !! t = Some (jobId, options) ->
                timers st !! t' = Some (jobId, options') -> t = t')
         /\ (forall jobId options,
                is_Some (pollers st !! jobId) ->
                startJobPolling jobId options st = (st, Returned tt))
         /\ (forall jobId,
                truthy jobId = true ->
                let st' := exec (stopJobPolling jobId) st in
                pollers st' !! jobId = None
                /\ (forall t options, timers st' !! t <> Some (jobId, options))
                /\ (forall t, GetJob jobId ∉ fetchedBy t st')))
  /\ timersRegisteredStatic StaticScript.initialState
  /\ (forall st : StaticScript.State,
         timersRegisteredStatic st ->
         (forall calls, timersRegisteredStatic (staticPollerCalls calls st))
         /\ (forall t t' jobId,
                StaticScript.timers st !! t = Some jobId ->
                StaticScript.timers st !! t' = Some jobId -> t = t')
         /\ (forall jobId show info,
                truthy jobId = true ->
                StaticScript.jobPollers st !! jobId = Some info ->
                StaticScript.beginJobPolling jobId show st
                = StaticScript.set_jobPollers
                    (<[jobId := {| StaticScript.showConsole :=
                                     StaticScript.showConsole info || show;
                                   StaticScript.timer := StaticScript.timer info |}]>
                       (StaticScript.jobPollers st)) st)
         /\ (forall jobId,
                let st' := StaticScript.stopJobPolling jobId st in
                StaticScript.jobPollers st' !! jobId = None
                /\ (forall t, StaticScript.timers st' !! t <> Some jobId)
                /\ (forall t show, (jobId, show) ∉ fetchedByStatic t st'))).
Proof.
  split; [exact initialState_registered|]. split; [|split].
  - intros st Hreg. split; [intros Date_parse steps; apply run_registered; exact Hreg|].
    split; [|split].
    + intros t t' jobId options options' H H'.
      apply Hreg in H, H'. congruence.
    + intros jobId options. apply startJobPolling_running.
    + intros jobId Ht. apply stopJobPolling_halts; assumption.
  - exact initialStateStatic_registered.
  - intros st Hreg.
    split; [intros calls; apply staticPollerCalls_registered; exact Hreg|].
    split; [|split].
    + intros t t' jobId H H'.
      destruct (Hreg _ _ H) as (i & Hi & Hti), (Hreg _ _ H') as (i' & Hi' & Hti').
      congruence.
    + intros jobId show info. apply beginJobPolling_running.
    + intros jobId. apply stopJobPollingStatic_halts. exact Hreg.
Qed.

(** Start [j1] twice, the second time asking for the console, then stop it,
    in each script. *)
Lemma pollers_start_once_stop_halts_witness :
  let once := exec (startJobPolling "j1" noOptions) (initialState false) in
  let asking := {| showConsole := true; notifyNotFound := false |} in
  let onceStatic := StaticScript.beginJobPolling "j1" false StaticScript.initialState in
  startJobPolling "j1" asking once = (once, Returned tt)
  /\ pollers (exec (stopJobPolling "j1") once) !! "j1" = None
  /\ (GetJob "j1" ∉ fetchedBy 1%positive (exec (stopJobPolling "j1") once))
  /\ StaticScript.timers (StaticScript.beginJobPolling "j1" true onceStatic)
     = StaticScript.timers onceStatic
  /\ StaticScript.jobPollers (StaticScript.beginJobPolling "j1" true onceStatic) !! "j1"
     = Some {| StaticScript.showConsole := true; StaticScript.timer := Some 1%positive |}
  /\ StaticScript.jobPollers (StaticScript.stopJobPolling "j1" onceStatic) !! "j1" = None.
Proof.
  intros once asking onceStatic.
  destruct pollers_start_once_stop_halts as (Hinit & Hpanel & HinitS & Hstatic).
  assert (Hreg : timersRegistered once).
  { apply (proj1 (Hpanel (initialState false) (Hinit false)) noDates
             [StartPolling "j1" noOptions]). }
  assert (HregS : timersRegisteredStatic onceStatic).
  { apply (proj1 (Hstatic StaticScript.initialState HinitS) [BeginPolling "j1" false]). }
  destruct (Hpanel once Hreg) as (_ & _ & Hagain & Hstop).
  destruct (Hstatic onceStatic HregS) as (_ & _ & HagainS & HstopS).
  destruct (Hstop "j1" eq_refl) as (Hgone & _ & Hquiet).
  split; [apply Hagain; exists 1%positive; vm_compute; reflexivity|].
  split; [exact Hgone|]. split; [exact (Hquiet 1%positive)|].
  rewrite (HagainS "j1" true
             {| StaticScript.showConsole := false; StaticScript.timer := Some 1%positive |}
             eq_refl) by (vm_compute; reflexivity).
  split; [reflexivity|]. split; [apply lookup_insert_eq|].
  exact (proj1 (HstopS "j1")).
Defined.

(** ** The defects *)

(** C5 fails on the code: [state] is created without a
    [pendingCancellations] property and no step of the page assigns one, so
    each function that reads or writes the set throws a [TypeError]: building the
    card of a queued job, the upsert that renders it, [cancelJob], the upsert
    of a finished job, the not-found, finished and error branches of
    [pollJob], and the eviction loop of [upsertDownload]. *)
Theorem pendingCancellations_undefined_throws :
  (forall Date_parse steps debug,
      pendingCancellations (run Date_parse steps (initialState debug)) = None)
  /\ outcome (buildDownloadItem queuedEntry false) (initialState false)
     = Threw (undefinedDeref "has")
  /\ outcome (trackJob 1 (snapshot "j1" "queued" 0)) (initialState false)
     = Threw (undefinedDeref "has")
  /\ outcome (cancelJob_start "j1") tracking = Threw (undefinedDeref "has")
  /\ outcome (trackJob 2 (snapshot "j1" "complete" 100)) tracking
     = Threw (undefinedDeref "delete")
  /\ outcome (pollJob_resume noDates 2 "j1" noOptions (Responded true 200 (inr noJobBody)))
             tracking
     = Threw (undefinedDeref "delete")
  /\ outcome (pollJob_resume noDates 2 "j1" noOptions
                (Responded true 200 (inr (jobBody (snapshot "j1" "failed" 40)))))
             tracking
     = Threw (undefinedDeref "delete")
  /\ outcome (pollJob_resume noDates 2 "j1" noOptions
                (FetchRejected {| name := "TypeError"; message := "Failed to fetch" |}))
             tracking
     = Threw (undefinedDeref "delete")
  /\ outcome (trackJob 10 (snapshot "j10" "queued" 0))
             (trackAll nineFinished (initialState false))
     = Threw (undefinedDeref "delete").
Proof.
  split; [intros Date_parse steps debug; apply run_staysUndefined|].
  repeat split; vm_compute; reflexivity.
Qed.

(** C2 fails on the code: nine finished jobs, upserted one after the other on
    the freshly loaded page, leave nine records in the store, oldest first:
    each upsert throws at the undefined set before it sorts and cuts. *)
Theorem downloads_exceed_capacity :
  let st := trackAll nineFinished (initialState false) in
  outcome (trackJob 1 (snapshot "j1" "complete" 100)) (initialState false)
  = Threw (undefinedDeref "delete")
  /\ length (downloads st) = 9%nat
  /\ map e_id (downloads st) = [ "j1"; "j2"; "j3"; "j4"; "j5"; "j6"; "j7"; "j8"; "j9" ]
  /\ map e_startedAt (downloads st) = [ 1; 2; 3; 4; 5; 6; 7; 8; 9 ].
Proof. repeat split; vm_compute; reflexivity. Qed.

(** C4 fails on the code: [cancelJob] on a job that is processing throws at
    its first test of the undefined set and leaves the state as it was: no
    pending mark, no rendering, no cancel request. *)
Theorem cancelJob_throws_before_marking :
  (e_status <$> lookupJob "j1" (downloads tracking)) = Some (Some "processing")
  /\ cancelJob_start "j1" tracking = (tracking, Threw (undefinedDeref "has"))
  /\ requests tracking = [].
Proof. repeat split; vm_compute; reflexivity. Qed.

(** C3 fails on the code.  In the catalog search the token is set back to 0
    each time the dialog opens, so a search started after reopening takes the
    token of the search it supersedes, and the answer of the superseded
    search, arriving last, replaces the newer results.  In the video search
    the token is tested after [fetch] and not again after
    [response.json()], so a body that is read while a newer search starts
    replaces the newer results when the browser cannot abort it. *)
Theorem superseded_search_overwrites_results :
  outcome (AddMovieSearch.openAddMovieModal "ab") AddMovieSearch.initialState
  = Returned (Some 1)
  /\ AddMovieSearch.searchToken reopened = 1
  /\ AddMovieSearch.requests reopened = [ "ab"; "abc" ]
  /\ (let newer :=
        exec (AddMovieSearch.performAddMovieSearch_resume 1 (catalogAnswer [movie 2]))
             reopened in
      let older :=
        exec (AddMovieSearch.performAddMovieSearch_resume 1 (catalogAnswer [movie 1]))
             newer in
      AddMovieSearch.results newer = [movie 2]
      /\ AddMovieSearch.results older = [movie 1]
      /\ AddMovieSearch.addMovieResults older = Some [movie 1])
  /\ YouTubeSearch.token overlapped = 2
  /\ YouTubeSearch.requests overlapped = [ ("cats", None); ("dogs", None) ]
  /\ (let newer :=
        exec (YouTubeSearch.performYouTubeSearch_afterJson 2 (videoAnswer [video "dogs"]))
             overlapped in
      let older :=
        exec (YouTubeSearch.performYouTubeSearch_afterJson 1 (videoAnswer [video "cats"]))
             newer in
      YouTubeSearch.results newer = [video "dogs"]
      /\ YouTubeSearch.results older = [video "cats"]
      /\ YouTubeSearch.ytSearchResults older = Some [video "cats"]).
Proof. repeat split; vm_compute; reflexivity. Qed.

(** The guard itself holds: an answer whose token is not the current one
    changes nothing, in either flow. *)
Lemma performAddMovieSearch_resume_stale (token : Z)
    (fetched : Fetched AddMovieSearch.SearchData) (st : AddMovieSearch.State) :
  token <> AddMovieSearch.searchToken st ->
  exec (AddMovieSearch.performAddMovieSearch_resume token fetched) st = st.
Proof.
  intros Hne. apply Z.eqb_neq in Hne.
  unfold AddMovieSearch.performAddMovieSearch_resume, exec, tryFinally, tryCatch.
  destruct fetched as [err|ok status body];
    unfold bind, throw, getState, when, ret; cbn; rewrite Hne; cbn;
    rewrite ?Hne; reflexivity.
Qed.

Lemma performYouTubeSearch_afterFetch_stale (token : Z) (answer : Thrown + bool * Z)
    (st : YouTubeSearch.State) :
  token <> YouTubeSearch.token st ->
  YouTubeSearch.performYouTubeSearch_afterFetch token answer st
  = (st, Returned YouTubeSearch.Done).
Proof.
  intros Hne. apply Z.eqb_neq in Hne.
  unfold YouTubeSearch.performYouTubeSearch_afterFetch, YouTubeSearch.searchCatch,
    YouTubeSearch.searchFinally, tryFinally.
  destruct answer as [err|[ok status]];
    unfold bind, getState, when, ret; cbn; rewrite ?Hne; cbn; rewrite ?Hne; reflexivity.
Qed.

(** ** Proofs: the store if the set were initialised

    What [upsertDownload] would do on a page whose [state] had the set: the
    bound, the order and the eviction that the specification describes. *)





























(** ** The same page with the set initialised *)

(** If [state] were created with an empty [pendingCancellations] set, the
    cancellation protocol would run as the specification describes it:
    [cancelJob] marks the job, disables its button and sends the request; a
    second call does nothing; a failed answer clears the mark and enables the
    button again; a successful answer merges the snapshot and leaves the job
    polled. *)
Lemma cancelJob_protocol_with_set :
  let pendingIn st := bool_decide ("j1" ∈ default ∅ (pendingCancellations st)) in
  let clicked := exec (cancelJob_start "j1") trackingWithSet in
  let failed :=
    exec (cancelJob_resume noDates 5 "j1" (Responded false 500 (inl (mkError "no body"))))
         clicked in
  let answered :=
    exec (cancelJob_resume noDates 5 "j1"
            (Responded true 200 (inr (jobBody (snapshot "j1" "cancelled" 40)))))
         clicked in
  cancelButtons trackingWithSet
  = [ {| button_jobId := "j1"; button_text := "Cancel"; button_disabled := false |} ]
  /\ outcome (cancelJob_start "j1") trackingWithSet = Returned true
  /\ pendingIn clicked = true
  /\ cancelButtons clicked
     = [ {| button_jobId := "j1"; button_text := "Cancelling…"; button_disabled := true |} ]
  /\ requests clicked = [ GetJob "j1"; PostCancel "j1" ]
  /\ cancelJob_start "j1" clicked = (clicked, Returned false)
  /\ pendingIn failed = false
  /\ cancelButtons failed
     = [ {| button_jobId := "j1"; button_text := "Cancel"; button_disabled := false |} ]
  /\ (e_status <$> lookupJob "j1" (downloads answered)) = Some (Some "cancelled")
  /\ is_Some (pollers answered !! "j1").
Proof.
  cbv zeta. repeat split; try (vm_compute; reflexivity).
  exists 1%positive. vm_compute. reflexivity.
Qed.


(** Ten jobs with the set initialised: the store keeps the eight started
    last, newest first. *)
Lemma downloads_capped_with_set :
  let tenth := snapshot "j10" "processing" 0 in
  let st := trackAll (nineFinished ++ [tenth]) withSet in
  map e_id (downloads st) = [ "j10"; "j9"; "j8"; "j7"; "j6"; "j5"; "j4"; "j3" ].
Proof. vm_compute. reflexivity. Qed.

(** ** Proofs: a poll that brings a finished job, with the set or without *)











Section FinishedPoll.
Variable Date_parse : string -> option Date.



End FinishedPoll.


(** ** Proofs: the ids of the store stay distinct *)

Lemma keepsDistinct_refl (st : State) : keepsDistinct st st.
Proof. intros H. exact H. Qed.

Lemma keepsDistinct_trans (a b c : State) :
  keepsDistinct a b -> keepsDistinct b c -> keepsDistinct a c.
Proof. unfold keepsDistinct. auto. Qed.

Lemma keepsDownloads_keepsDistinct {A} (m : M State A) :
  frames keepsDownloads m -> frames keepsDistinct m.
Proof. intros H st Hnd. rewrite H. exact Hnd. Qed.

Lemma NoDup_take_ids (n : nat) (ds : list Entry) :
  NoDup (map e_id ds) -> NoDup (map e_id (take n ds)).
Proof.
  intros H. rewrite <- firstn_map. eapply sublist_NoDup; [exact H | apply sublist_take].
Qed.

Lemma upsertDownload_keepsDistinct (now : Date) (update : JobUpdate) :
  frames keepsDistinct (upsertDownload now update).
Proof.
  intros st Hnd. destruct (u_id update) as [id|] eqn:Hid;
    [|unfold exec, upsertDownload; rewrite Hid; exact Hnd].
  destruct (truthy id) eqn:Ht;
    [|unfold exec, upsertDownload; rewrite Hid, Ht; exact Hnd].
  pose proof (storeUpsert_NoDup id update now (downloads st) Hnd) as Hw.
  destruct (upsertDownload_downloads now update id st Hid Ht) as [H|H]; rewrite H.
  - exact Hw.
  - apply NoDup_take_ids. rewrite sort_Permutation. exact Hw.
Qed.

Lemma modify_keepsDistinct (f : State -> State) :
  (forall st, downloads (f st) = downloads st) -> frames keepsDistinct (modify f).
Proof. intros H. apply frames_modify. intros st Hnd. rewrite H. exact Hnd. Qed.

Ltac distinct_step :=
  first
    [ progress cbv beta iota
    | apply upsertDownload_keepsDistinct
    | apply keepsDownloads_keepsDistinct;
      first [ apply pendingHas_keeps
            | apply pendingDelete_keeps
            | apply stopJobPolling_keeps
            | apply renderDownloads_keeps ]
    | apply modify_keepsDistinct; intros ?;
      repeat match goal with |- context [match ?x with _ => _ end] => destruct x end;
      reflexivity
    | frame_step keepsDistinct_refl keepsDistinct_trans
    | match goal with
      | |- frames _ (match ?x with _ => _ end) => destruct x; cbv beta iota
      | |- frames _ (if ?b then _ else _) => destruct b; cbv beta iota
      end ].

Lemma console_keepsDistinct {A} (m : M State A) :
  frames sameJobs m -> frames keepsDistinct m.
Proof. intros H st Hnd. destruct (H st) as (Hd & _). rewrite Hd. exact Hnd. Qed.

Lemma pendingAdd_keepsDistinct (jobId : string) : frames keepsDistinct (pendingAdd jobId).
Proof.
  intros st Hnd. unfold exec, pendingAdd. destruct (pendingCancellations st); exact Hnd.
Qed.

Lemma startJobPolling_keepsDistinct (jobId : string) (options : PollOptions) :
  frames keepsDistinct (startJobPolling jobId options).
Proof. unfold startJobPolling, pollJob_start. repeat distinct_step. Qed.

Section DistinctIds.
Variable Date_parse : string -> option Date.

Lemma step_keepsDistinct (s : Step) (st : State) : keepsDistinct st (step Date_parse s st).
Proof.
  destruct s; cbn [step].
  - apply upsertDownload_keepsDistinct.
  - apply startJobPolling_keepsDistinct.
  - apply (keepsDownloads_keepsDistinct _ (stopJobPolling_keeps jobId)).
  - revert st. change (frames keepsDistinct (timerFires t)).
    unfold timerFires, pollJob_start. repeat distinct_step.
  - revert st.
    change (frames keepsDistinct (pollJob_resume Date_parse now jobId options fetched)).
    unfold pollJob_resume. cbv zeta.
    repeat first [ apply console_keepsDistinct;
                   first [ apply appendConsoleLine_sameJobs
                         | apply renderLogLines_sameJobs
                         | apply setDebugMode_sameJobs ]
                 | distinct_step ].
  - revert st. change (frames keepsDistinct (cancelJob_start jobId)).
    unfold cancelJob_start.
    repeat first [ apply pendingAdd_keepsDistinct | distinct_step ].
  - revert st. change (frames keepsDistinct (cancelJob_resume Date_parse now jobId fetched)).
    unfold cancelJob_resume. cbv zeta.
    repeat first [ apply console_keepsDistinct;
                   first [ apply appendConsoleLine_sameJobs
                         | apply renderLogLines_sameJobs
                         | apply setDebugMode_sameJobs ]
                 | apply startJobPolling_keepsDistinct
                 | distinct_step ].
  - apply (console_keepsDistinct _ (renderLogLines_sameJobs lines)).
  - apply (console_keepsDistinct _ (setDebugMode_sameJobs enabled)).
Qed.

(** Whatever happens on the page, no id is in the store twice. *)
Lemma run_distinct (steps : list Step) (debug : bool) :
  NoDup (map e_id (downloads (run Date_parse steps (initialState debug)))).
Proof.
  assert (H : forall st, NoDup (map e_id (downloads st)) ->
                         NoDup (map e_id (downloads (run Date_parse steps st)))).
  { induction steps as [|s steps IH]; intros st H; [exact H|].
    apply IH. apply step_keepsDistinct. exact H. }
  apply H. constructor.
Qed.
End DistinctIds.

(** ** Proofs: the form, the job history and the cards *)

Import UrlPattern PanelPage.
Import PageSpec.

(** A loop throws if one of its turns throws wherever [I] holds, and the
    turns keep [I]. *)
Lemma forEach_throws {S A} (I : S -> Prop) (f : A -> M S unit) (l : list A) (x : A) :
  (forall y st, I st -> I (exec (f y) st)) ->
  (forall st, I st -> exists e, outcome (f x) st = Threw e) ->
  x ∈ l -> forall st, I st -> exists e, outcome (forEach f l) st = Threw e.
Proof.
  intros Hkeep Hx. induction l as [|y l IH]; intros Hin st Hst.
  - inversion Hin.
  - simpl. rewrite outcome_bind. destruct (outcome (f y) st) as [[]|e] eqn:E.
    + apply elem_of_cons in Hin as [->|Hin].
      * destruct (Hx st Hst) as [e He]. congruence.
      * apply IH; auto.
    + eauto.
Qed.

(** With the set undefined, rendering a list that holds a job that can be
    cancelled throws. *)
Lemma renderDownloads_throws (entry : Entry) (st : State) :
  pendingCancellations st = None -> is_Some (downloadsList st) ->
  entry ∈ downloads st ->
  truthy (e_id entry) = true -> isCancellable (e_status entry) = true ->
  exists e, outcome renderDownloads st = Threw e.
Proof.
  intros Hp [children Hl] Hin Ht Hc.
  unfold renderDownloads. rewrite outcome_bind. cbn [getState outcome exec fst snd].
  rewrite Hl. rewrite outcome_bind. cbn [modify outcome exec fst snd].
  rewrite outcome_bind.
  set (st1 := set_downloadsList (Some []) st).
  set (clear := when _ _).
  assert (Hclear : returns clear) by (subst clear; repeat returns_step).
  assert (Hu : frames staysUndefined clear) by (subst clear; repeat undefined_step).
  assert (Hd : frames keepsDownloads clear).
  { subst clear. keeps_downloads. keeps_downloads; [keeps_downloads|];
      apply frames_modify; reflexivity. }
  destruct (Hclear st1) as [[] Hr]. rewrite Hr.
  specialize (Hu st1 Hp). specialize (Hd st1).
  set (st2 := exec clear st1) in *.
  rewrite outcome_bind. cbn [getState outcome exec fst snd].
  unfold keepsDownloads in Hd. cbn [downloads set_downloadsList st1] in Hd.
  destruct (length (downloads st2) =? 0)%nat eqn:E.
  - apply Nat.eqb_eq in E. rewrite Hd in E.
    destruct (downloads st); [inversion Hin|discriminate].
  - apply (forEach_throws (fun s => pendingCancellations s = None) _ _ entry).
    + intros y s Hs. revert s Hs.
      change (frames staysUndefined
                (bind (buildDownloadItem y (isString (selectedJobId st2) (e_id y)))
                      (fun card => appendListChild (DownloadItem card)))).
      unfold buildDownloadItem, appendListChild. repeat undefined_step.
    + intros s Hs. rewrite outcome_bind. unfold outcome at 1.
      rewrite buildDownloadItem_undefined_throws by assumption. eexists; reflexivity.
    + rewrite Hd. exact Hin.
    + exact Hu.
Qed.
Lemma sameList_refl (st : State) : sameList st st.
Proof. reflexivity. Qed.

Lemma sameList_trans (a b c : State) : sameList a b -> sameList b c -> sameList a c.
Proof. unfold sameList. congruence. Qed.

Lemma evictOverflow_sameList : frames sameList evictOverflow.
Proof.
  unfold evictOverflow, stopJobPolling, pendingDelete.
  repeat first
    [ progress cbv beta iota
    | apply frames_modify; intros ?; reflexivity
    | frame_step sameList_refl sameList_trans
    | match goal with
      | |- frames _ (match ?x with _ => _ end) => destruct x; cbv beta iota
      | |- frames _ (if ?b then _ else _) => destruct b; cbv beta iota
      | |- frames _ (fun st => match pendingCancellations st with _ => _ end) =>
          let st := fresh "st" in
          intros st; unfold sameList, exec; destruct (pendingCancellations st); reflexivity
      end ].
Qed.

Lemma evictOverflow_throws_or_keeps (x : Entry) (st : State) :
  pendingCancellations st = None -> x ∈ downloads st -> truthy (e_id x) = true ->
  (exists e, outcome evictOverflow st = Threw e)
  \/ x ∈ downloads (exec evictOverflow st).
Proof.
  intros Hp Hin Ht. rewrite evictOverflow_downloads.
  rewrite <- (take_drop MAX_DOWNLOAD_ENTRIES (downloads st)) in Hin.
  apply elem_of_app in Hin as [Hin|Hin]; [right; exact Hin|left].
  unfold evictOverflow. rewrite outcome_bind. cbn [getState outcome exec fst snd].
  destruct (MAX_DOWNLOAD_ENTRIES <? length (downloads st))%nat eqn:E; cbn [when].
  - rewrite outcome_bind. cbn [modify outcome exec fst snd].
    apply (forEach_throws (fun s => pendingCancellations s = None) _ _ x).
    + intros y s Hs. revert s Hs.
      change (frames staysUndefined
                (bind (stopJobPolling (e_id y))
                      (fun _ => when (truthy (e_id y)) (pendingDelete (e_id y))))).
      repeat first [ apply stopJobPolling_staysUndefined | undefined_step ].
    + intros s Hs. rewrite outcome_bind.
      destruct (stopJobPolling_run (e_id x) s Ht) as (s' & Hrun & _ & _ & _ & Hp' & _).
      unfold outcome at 1, exec. rewrite Hrun. cbn [fst snd]. rewrite Ht. cbn [when].
      unfold outcome, pendingDelete. rewrite Hp', Hs. eexists; reflexivity.
    + exact Hin.
    + exact Hp.
  - apply Nat.ltb_ge in E. rewrite drop_ge in Hin by exact E. inversion Hin.
Qed.

(** With the set undefined and the list element on the page, every upsert
    of an update that has an id throws. *)
Lemma upsertDownload_throws (now : Date) (update : JobUpdate) (id : string)
    (st : State) :
  pendingCancellations st = None -> is_Some (downloadsList st) ->
  u_id update = Some id -> truthy id = true ->
  exists e, outcome (upsertDownload now update) st = Threw e.
Proof.
  intros Hp Hl Hid Ht. unfold upsertDownload. rewrite Hid, Ht. cbn [negb].
  rewrite outcome_bind, writeEntry_outcome, writeEntry_exec.
  set (written := storeUpsert id update now (downloads st)).
  set (updatedEntry := upserted id update now (downloads st)).
  set (st1 := set_downloads written st).
  assert (Hin : updatedEntry ∈ written /\ e_id updatedEntry = id)
    by (apply lookupJob_elem, lookupJob_storeUpsert).
  destruct Hin as [Hin Heid].
  rewrite outcome_bind. unfold forgetFinished. rewrite Heid, Ht. cbn [andb].
  destruct (isCancellable (e_status updatedEntry)) eqn:Hc; cbn [negb when].
  - cbn [ret outcome exec fst snd].
    rewrite outcome_bind. cbn [sortDownloads modify outcome exec fst snd].
    set (st2 := set_downloads (sort compareStartedAt (downloads st1)) st1).
    assert (Hin2 : updatedEntry ∈ downloads st2).
    { subst st2 st1. cbn [downloads set_downloads]. rewrite sort_Permutation. exact Hin. }
    rewrite outcome_bind.
    destruct (evictOverflow_throws_or_keeps updatedEntry st2 Hp Hin2)
      as [[e He]|Hin3]; [rewrite Heid; exact Ht | rewrite He; eauto |].
    destruct (outcome evictOverflow st2) as [[]|e]; [|eauto].
    apply (renderDownloads_throws updatedEntry); try assumption.
    + assert (H : frames staysUndefined evictOverflow).
      { unfold evictOverflow.
        repeat first [ apply stopJobPolling_staysUndefined | undefined_step ]. }
      apply H. exact Hp.
    + rewrite evictOverflow_sameList. exact Hl.
    + rewrite Heid; exact Ht.
  - unfold outcome, pendingDelete. subst st1. cbn [pendingCancellations set_downloads].
    rewrite Hp. eexists; reflexivity.
Qed.
(** ** Proofs: no poller is ever started *)

Lemma keepsUnwatched_refl (st : State) : keepsUnwatched st st.
Proof. intros H. exact H. Qed.

Lemma keepsUnwatched_trans (a b c : State) :
  keepsUnwatched a b -> keepsUnwatched b c -> keepsUnwatched a c.
Proof. unfold keepsUnwatched. auto. Qed.

Lemma sameJobs_keepsUnwatched {A} (m : M State A) :
  frames sameJobs m -> frames keepsUnwatched m.
Proof.
  intros H st (Hp & Hl & Hpo & Ht & Hr).
  destruct (H st) as (_ & Hpo' & Hp' & _ & _ & Hl' & Ht' & _ & Hr').
  unfold unwatched. rewrite Hp', Hl', Hpo', Ht', Hr'. auto.
Qed.

Lemma pendingHas_keepsUnwatched (jobId : string) :
  frames keepsUnwatched (pendingHas jobId).
Proof.
  intros st H. unfold exec, pendingHas. destruct H as (Hp & H). rewrite Hp.
  split; assumption.
Qed.

Lemma pendingAdd_keepsUnwatched (jobId : string) :
  frames keepsUnwatched (pendingAdd jobId).
Proof.
  intros st H. unfold exec, pendingAdd. destruct H as (Hp & H). rewrite Hp.
  split; assumption.
Qed.

Lemma pendingDelete_keepsUnwatched (jobId : string) :
  frames keepsUnwatched (pendingDelete jobId).
Proof.
  intros st H. unfold exec, pendingDelete. destruct H as (Hp & H). rewrite Hp.
  split; assumption.
Qed.

Lemma stopJobPolling_keepsUnwatched (jobId : string) :
  frames keepsUnwatched (stopJobPolling jobId).
Proof.
  intros st H. destruct H as (Hp & Hl & Hpo & Ht & Hr).
  unfold stopJobPolling, exec. destruct (truthy jobId); cbn [negb].
  - unfold bind, getState. rewrite Hpo, lookup_empty. repeat split; assumption.
  - repeat split; assumption.
Qed.

Lemma pollJob_start_keepsUnwatched (jobId : string) :
  frames keepsUnwatched (pollJob_start jobId).
Proof.
  intros st H. destruct H as (Hp & Hl & Hpo & Ht & Hr).
  unfold pollJob_start, exec. destruct (truthy jobId); cbn [negb].
  - cbn. repeat split; try assumption.
    intros j Hin. apply in_app_or in Hin as [Hin|[Hin|[]]]; [|discriminate].
    exact (Hr j Hin).
  - repeat split; assumption.
Qed.

Lemma modify_keepsUnwatched (f : State -> State) :
  (forall st, pendingCancellations (f st) = pendingCancellations st
              /\ (is_Some (downloadsList st) -> is_Some (downloadsList (f st)))
              /\ pollers (f st) = pollers st
              /\ timers (f st) = timers st
              /\ requests (f st) = requests st) ->
  frames keepsUnwatched (modify f).
Proof.
  intros H. apply frames_modify. intros st (Hp & Hl & Hpo & Ht & Hr).
  destruct (H st) as (Hp' & Hl' & Hpo' & Ht' & Hr').
  unfold unwatched. rewrite Hp', Hpo', Ht', Hr'. auto.
Qed.

(** One step of a proof that a function leaves the page unwatched. *)
Ltac unwatched_step :=
  first
    [ progress cbv beta iota
    | apply pendingHas_keepsUnwatched
    | apply pendingAdd_keepsUnwatched
    | apply pendingDelete_keepsUnwatched
    | apply stopJobPolling_keepsUnwatched
    | apply pollJob_start_keepsUnwatched
    | apply sameJobs_keepsUnwatched;
      first [ apply appendConsoleLine_sameJobs
            | apply renderLogLines_sameJobs
            | apply setDebugMode_sameJobs ]
    | lazymatch goal with |- frames _ (modify _) => idtac end;
      apply modify_keepsUnwatched; intros ?;
      repeat match goal with |- context [match ?x with _ => _ end] => destruct x end;
      repeat split; cbn;
      solve [ reflexivity | intros H; exact H | intros _; eexists; reflexivity
            | intros [? ?]; discriminate ]
    | frame_step keepsUnwatched_refl keepsUnwatched_trans
    | match goal with
      | |- frames _ (match ?x with _ => _ end) => destruct x; cbv beta iota
      | |- frames _ (if ?b then _ else _) => destruct b; cbv beta iota
      end ].

Lemma renderDownloads_keepsUnwatched : frames keepsUnwatched renderDownloads.
Proof.
  unfold renderDownloads, buildDownloadItem, appendListChild. repeat unwatched_step.
Qed.

Lemma upsertDownload_keepsUnwatched (now : Date) (update : JobUpdate) :
  frames keepsUnwatched (upsertDownload now update).
Proof.
  unfold upsertDownload, writeEntry, forgetFinished, sortDownloads, evictOverflow.
  repeat first [ apply renderDownloads_keepsUnwatched | unwatched_step ].
Qed.

Lemma timerFires_keepsUnwatched (t : positive) : frames keepsUnwatched (timerFires t).
Proof. unfold timerFires. repeat unwatched_step. Qed.

Lemma resetConsole_sameJobs (message : string) : frames sameJobs (resetConsole message).
Proof.
  unfold resetConsole. same_jobs. destruct (consoleDiv st); [|same_jobs].
  same_jobs; [apply frames_modify; intros ?; repeat split|].
  same_jobs; [apply frames_modify; intros ?; repeat split|].
  same_jobs. apply appendConsoleLine_sameJobs.
Qed.
Lemma exec_bind_throws {S A B} (m : M S A) (k : A -> M S B) (st : S) :
  (exists e, outcome m st = Threw e) -> exec (bind m k) st = exec m st.
Proof. intros [e He]. rewrite exec_bind, He. reflexivity. Qed.

Section Unwatched.
Variable Date_parse : string -> option Date.

Lemma normaliseJob_id (now : Date) (job : RawJob) (update : JobUpdate) :
  normaliseJob Date_parse now job = Some update ->
  exists id, job_id job = Some id /\ truthy id = true /\ u_id update = Some id.
Proof.
  unfold normaliseJob. destruct (job_id job) as [id|]; [|discriminate].
  destruct (truthy id) eqn:Ht; [|discriminate]. cbn [negb].
  intros [= <-]. exists id. auto.
Qed.

Lemma normaliseJob_Some (now : Date) (job : RawJob) :
  truthyOpt (job_id job) = true -> is_Some (normaliseJob Date_parse now job).
Proof.
  unfold normaliseJob, truthyOpt. destruct (job_id job) as [id|]; [|discriminate].
  intros ->. eexists; reflexivity.
Qed.

(** What follows an upsert is not run. *)
Lemma upsertDownload_cuts {B} (now : Date) (update : JobUpdate) (id : string)
    (k : unit -> M State B) :
  u_id update = Some id -> truthy id = true ->
  frames keepsUnwatched (bind (upsertDownload now update) k).
Proof.
  intros Hid Ht st Hu. rewrite exec_bind_throws.
  - apply upsertDownload_keepsUnwatched. exact Hu.
  - destruct Hu as (Hp & Hl & _). eapply upsertDownload_throws; eassumption.
Qed.

Lemma submit_start_sameJobs (form : Form) : frames sameJobs (submit_start form).
Proof.
  unfold submit_start. cbv zeta. same_jobs; [apply resetConsole_sameJobs|].
  destruct (negb _); [|same_jobs].
  same_jobs; [|same_jobs]. same_jobs. apply appendConsoleLine_sameJobs.
Qed.

Lemma activateDownloadItem_keepsUnwatched (jobId : string) :
  frames keepsUnwatched (activateDownloadItem jobId).
Proof.
  unfold activateDownloadItem. cbv zeta.
  repeat first [ apply renderDownloads_keepsUnwatched
               | apply sameJobs_keepsUnwatched, resetConsole_sameJobs
               | unwatched_step ].
Qed.

Lemma pollJob_resume_keepsUnwatched (now : Date) (jobId : string)
    (options : PollOptions) (fetched : Fetched JobData) :
  frames keepsUnwatched (pollJob_resume Date_parse now jobId options fetched).
Proof.
  unfold pollJob_resume. cbv zeta.
  repeat first [ apply renderDownloads_keepsUnwatched
               | apply upsertDownload_keepsUnwatched
               | unwatched_step ].
Qed.

Lemma cancelJob_start_keepsUnwatched (jobId : string) :
  frames keepsUnwatched (cancelJob_start jobId).
Proof.
  intros st Hu. destruct (truthy jobId) eqn:Ht.
  - unfold exec. rewrite cancelJob_start_undefined_throws; [exact Hu | apply Hu | exact Ht].
  - unfold cancelJob_start, exec. rewrite Ht. exact Hu.
Qed.

Lemma submit_resume_keepsUnwatched (now : Date) (fetched : Fetched CreateData) :
  frames keepsUnwatched (submit_resume Date_parse now fetched).
Proof.
  unfold submit_resume. unwatched_step; [|unwatched_step].
  destruct fetched as [err|ok status body]; [unwatched_step|]. cbv zeta.
  unwatched_step; [repeat unwatched_step|].
  destruct (negb ok); [repeat unwatched_step|].
  destruct (create_job _) as [job|]; [|repeat unwatched_step].
  destruct (truthyOpt (job_id job)) eqn:Hid; [|repeat unwatched_step].
  unwatched_step; [unwatched_step|].
  destruct (normaliseJob_Some now job Hid) as [update Hn]. rewrite Hn.
  destruct (normaliseJob_id now job update Hn) as (id & _ & Ht & Hu).
  eapply upsertDownload_cuts; eassumption.
Qed.

Lemma loadInitialJobs_resume_keepsUnwatched (clock : nat -> Date)
    (fetched : Fetched JobsData) :
  frames keepsUnwatched (loadInitialJobs_resume Date_parse clock fetched).
Proof.
  unfold loadInitialJobs_resume. unwatched_step; [|unwatched_step].
  destruct fetched as [err|ok status body]; [unwatched_step|].
  destruct (negb ok); [unwatched_step|].
  destruct body as [err|data]; [unwatched_step|].
  unwatched_step; [repeat unwatched_step|].
  unwatched_step. cbv zeta.
  destruct (normaliseJob _ _ _) as [update|] eqn:Hn; [|repeat unwatched_step].
  destruct (normaliseJob_id _ _ update Hn) as (id & _ & Ht & Hu).
  eapply upsertDownload_cuts; eassumption.
Qed.

Lemma pageLoaded_unwatched (initialDebugMode : bool) :
  unwatched (pageLoaded initialDebugMode).
Proof.
  unfold pageLoaded.
  assert (H : frames keepsUnwatched (bind (setDebugMode initialDebugMode)
                                          (fun _ => renderDownloads))).
  { unwatched_step; [unwatched_step | apply renderDownloads_keepsUnwatched]. }
  apply H. repeat split; cbn; [eexists; reflexivity|intros j []].
Qed.

Lemma reachable_unwatched (st : State) : reachable Date_parse st -> unwatched st.
Proof.
  induction 1 as [debug|st clock fetched _ IH|st form _ IH|st now fetched _ IH
                 |st jobId _ IH|st jobId _ IH|st t _ IH
                 |st now jobId options fetched _ IH _
                 |st now jobId fetched _ IH Hreq].
  - apply pageLoaded_unwatched.
  - apply loadInitialJobs_resume_keepsUnwatched, IH.
  - apply (sameJobs_keepsUnwatched _ (submit_start_sameJobs form)), IH.
  - apply submit_resume_keepsUnwatched, IH.
  - apply activateDownloadItem_keepsUnwatched, IH.
  - apply cancelJob_start_keepsUnwatched, IH.
  - apply timerFires_keepsUnwatched, IH.
  - apply pollJob_resume_keepsUnwatched, IH.
  - destruct IH as (_ & _ & _ & _ & Hr). destruct (Hr jobId Hreq).
Qed.

End Unwatched.
(** ** Proofs: what a call starts and what it leaves on the page *)

Lemma startsNothing_refl (st : State) : startsNothing st st.
Proof. repeat split; auto. Qed.

Lemma startsNothing_trans (a b c : State) :
  startsNothing a b -> startsNothing b c -> startsNothing a c.
Proof.
  intros (H1 & H2 & H3) (H4 & H5 & H6). repeat split; [auto | auto | congruence].
Qed.

Lemma modify_startsNothing (f : State -> State) :
  (forall st, pollers (f st) = pollers st /\ timers (f st) = timers st
              /\ requests (f st) = requests st) ->
  frames startsNothing (modify f).
Proof.
  intros H. apply frames_modify. intros st. destruct (H st) as (Hp & Ht & Hr).
  unfold startsNothing. rewrite Hp, Ht, Hr. auto.
Qed.

Lemma sameJobs_startsNothing {A} (m : M State A) :
  frames sameJobs m -> frames startsNothing m.
Proof.
  intros H st. destruct (H st) as (_ & Hp & _ & _ & _ & _ & Ht & _ & Hr).
  unfold startsNothing. rewrite Hp, Ht, Hr. auto.
Qed.

Lemma stopJobPolling_startsNothing (jobId : string) :
  frames startsNothing (stopJobPolling jobId).
Proof.
  intros st. destruct (truthy jobId) eqn:Hj.
  - destruct (stopJobPolling_run jobId st Hj) as (st' & Hrun & Hp & Ht & _ & _ & _ & _ & Hr).
    unfold exec. rewrite Hrun. cbn [fst]. repeat split.
    + intros j Hn. rewrite Hp. destruct (decide (jobId = j)) as [->|Hne].
      * apply lookup_delete_eq.
      * rewrite lookup_delete_ne by exact Hne. exact Hn.
    + intros t Hn. rewrite Ht. destruct (pollers st !! jobId) as [t'|]; [|exact Hn].
      destruct (decide (t' = t)) as [->|Hne].
      * apply lookup_delete_eq.
      * rewrite lookup_delete_ne by exact Hne. exact Hn.
    + exact Hr.
  - unfold stopJobPolling. rewrite Hj. apply startsNothing_refl.
Qed.

Lemma pending_startsNothing {A} (m : M State A) :
  (forall st, exists v, exec m st = set_pendingCancellations v st \/ exec m st = st) ->
  frames startsNothing m.
Proof.
  intros H st. destruct (H st) as [v [->| ->]]; repeat split; auto.
Qed.

Lemma pendingHas_startsNothing (jobId : string) : frames startsNothing (pendingHas jobId).
Proof.
  apply pending_startsNothing. intros st. exists None. right.
  unfold exec, pendingHas. destruct (pendingCancellations st); reflexivity.
Qed.

Lemma pendingDelete_startsNothing (jobId : string) :
  frames startsNothing (pendingDelete jobId).
Proof.
  apply pending_startsNothing. intros st. unfold exec, pendingDelete.
  destruct (pendingCancellations st);
    [eexists; left; reflexivity | exists None; right; reflexivity].
Qed.

(** One step of a proof that a function starts nothing. *)
Ltac starts_nothing_step :=
  first
    [ progress cbv beta iota
    | apply pendingHas_startsNothing
    | apply pendingDelete_startsNothing
    | apply stopJobPolling_startsNothing
    | apply sameJobs_startsNothing;
      first [ apply appendConsoleLine_sameJobs
            | apply renderLogLines_sameJobs
            | apply setDebugMode_sameJobs
            | apply resetConsole_sameJobs ]
    | lazymatch goal with |- frames _ (modify _) => idtac end;
      apply modify_startsNothing; intros ?;
      repeat match goal with |- context [match ?x with _ => _ end] => destruct x end;
      repeat split; reflexivity
    | frame_step startsNothing_refl startsNothing_trans
    | match goal with
      | |- frames _ (match ?x with _ => _ end) => destruct x; cbv beta iota
      | |- frames _ (if ?b then _ else _) => destruct b; cbv beta iota
      end ].

Lemma renderDownloads_startsNothing : frames startsNothing renderDownloads.
Proof.
  unfold renderDownloads, buildDownloadItem, appendListChild.
  repeat starts_nothing_step.
Qed.

Lemma upsertDownload_startsNothing (now : Date) (update : JobUpdate) :
  frames startsNothing (upsertDownload now update).
Proof.
  unfold upsertDownload, writeEntry, forgetFinished, sortDownloads, evictOverflow.
  repeat first [ apply renderDownloads_startsNothing | starts_nothing_step ].
Qed.

Lemma keepsElements_refl (st : State) : keepsElements st st.
Proof. split; auto. Qed.

Lemma keepsElements_trans (a b c : State) :
  keepsElements a b -> keepsElements b c -> keepsElements a c.
Proof. intros (H1 & H2) (H3 & H4). split; auto. Qed.

Lemma modify_keepsElements (f : State -> State) :
  (forall st, (is_Some (consoleDiv st) -> is_Some (consoleDiv (f st)))
              /\ (is_Some (downloadsList st) -> is_Some (downloadsList (f st)))) ->
  frames keepsElements (modify f).
Proof. intros H. apply frames_modify. exact H. Qed.

Lemma pending_keepsElements {A} (m : M State A) :
  (forall st, exists v, exec m st = set_pendingCancellations v st \/ exec m st = st) ->
  frames keepsElements m.
Proof.
  intros H st. destruct (H st) as [v [->| ->]]; split; auto.
Qed.

Lemma pendingHas_keepsElements (jobId : string) : frames keepsElements (pendingHas jobId).
Proof.
  apply pending_keepsElements. intros st. exists None. right.
  unfold exec, pendingHas. destruct (pendingCancellations st); reflexivity.
Qed.

Lemma pendingDelete_keepsElements (jobId : string) :
  frames keepsElements (pendingDelete jobId).
Proof.
  apply pending_keepsElements. intros st. unfold exec, pendingDelete.
  destruct (pendingCancellations st);
    [eexists; left; reflexivity | exists None; right; reflexivity].
Qed.

(** One step of a proof that a function keeps the elements of the page. *)
Ltac keeps_elements_step :=
  first
    [ progress cbv beta iota
    | apply pendingHas_keepsElements
    | apply pendingDelete_keepsElements
    | lazymatch goal with |- frames _ (modify _) => idtac end;
      apply modify_keepsElements; intros ?;
      repeat match goal with |- context [match ?x with _ => _ end] => destruct x end;
      split; cbn;
      solve [ intros H; exact H | intros _; eexists; reflexivity
            | intros [? ?]; discriminate ]
    | frame_step keepsElements_refl keepsElements_trans
    | match goal with
      | |- frames _ (match ?x with _ => _ end) => destruct x; cbv beta iota
      | |- frames _ (if ?b then _ else _) => destruct b; cbv beta iota
      end ].

Lemma appendConsoleLine_keepsElements (rawText : string) (typeOverride : option string) :
  frames keepsElements (appendConsoleLine rawText typeOverride).
Proof. unfold appendConsoleLine. repeat keeps_elements_step. Qed.

Lemma renderLogLines_keepsElements (lines : list string) :
  frames keepsElements (renderLogLines lines).
Proof.
  unfold renderLogLines.
  repeat first [ apply appendConsoleLine_keepsElements | keeps_elements_step ].
Qed.

Lemma setDebugMode_keepsElements (enabled : bool) :
  frames keepsElements (setDebugMode enabled).
Proof.
  unfold setDebugMode.
  repeat first [ apply renderLogLines_keepsElements | keeps_elements_step ].
Qed.

Lemma resetConsole_keepsElements (message : string) :
  frames keepsElements (resetConsole message).
Proof.
  unfold resetConsole.
  repeat first [ apply appendConsoleLine_keepsElements | keeps_elements_step ].
Qed.

Lemma renderDownloads_keepsElements : frames keepsElements renderDownloads.
Proof.
  unfold renderDownloads, buildDownloadItem, appendListChild.
  repeat keeps_elements_step.
Qed.

Lemma upsertDownload_keepsElements (now : Date) (update : JobUpdate) :
  frames keepsElements (upsertDownload now update).
Proof.
  unfold upsertDownload, writeEntry, forgetFinished, sortDownloads, evictOverflow,
    stopJobPolling.
  repeat first [ apply renderDownloads_keepsElements | keeps_elements_step ].
Qed.
(** ** Proofs: the answer to a submit *)

Lemma tryCatch_caught {S A} (body : M S A) (handler : Thrown -> M S A) (st st' : S)
    (e : Thrown) :
  body st = (st', Threw e) -> tryCatch body handler st = handler e st'.
Proof. unfold tryCatch. intros ->. reflexivity. Qed.

Lemma appendConsoleLine_forced (rawText forced : string) (st : State)
    (shown : list ConsoleLine) :
  consoleDiv st = Some shown -> truthy forced = true ->
  exists line,
    appendConsoleLine rawText (Some forced) st
    = (set_consoleDiv (Some (line :: shown)) st, Returned tt)
    /\ line = {| line_text := text (interpretForced rawText (trim rawText) (Some forced));
                 line_type := type (interpretForced rawText (trim rawText) (Some forced)) |}.
Proof.
  intros Hc Hf. eexists. split; [|reflexivity].
  unfold appendConsoleLine, modify. rewrite Hc.
  unfold interpretLogLine. cbn [truthyOpt]. rewrite Hf. reflexivity.
Qed.

Section SubmitAnswer.
Variable Date_parse : string -> option Date.

Lemma submit_resume_job (now : Date) (st : State) (status : Z) (body : CreateData)
    (job : RawJob) (id : string) :
  pendingCancellations st = None -> is_Some (downloadsList st) ->
  create_job body = Some job -> job_id job = Some id -> truthy id = true ->
  let debug := match create_debug_mode body with
               | Some enabled => setDebugMode enabled
               | None => ret tt
               end in
  let st1 := exec debug st in
  let st2 := exec (renderLogLines (default [ "Job queued." ] (job_logs job))) st1 in
  exists update e,
    normaliseJob Date_parse now job = Some update
    /\ u_id update = Some id
    /\ outcome (upsertDownload now update) st2 = Threw e
    /\ submit_resume Date_parse now (Responded true status (inr body)) st
       = appendConsoleLine ("ERROR: " ++ describe e) (Some "error")
           (exec (upsertDownload now update) st2).
Proof.
  intros Hp Hl Hjob Hid Ht debug st1 st2.
  assert (Hdret : returns debug)
    by (subst debug; destruct (create_debug_mode body);
        [apply setDebugMode_returns | apply returns_ret]).
  assert (Hdsame : frames sameJobs debug)
    by (subst debug; destruct (create_debug_mode body);
        [apply setDebugMode_sameJobs | apply (frames_ret _ sameJobs_refl)]).
  pose proof (Hdsame st) as (_ & _ & Hp1 & _ & _ & Hl1 & _). fold st1 in Hp1, Hl1.
  pose proof (renderLogLines_sameJobs (default [ "Job queued." ] (job_logs job)) st1)
    as (_ & _ & Hp2 & _ & _ & Hl2 & _). fold st2 in Hp2, Hl2.
  assert (Hn : is_Some (normaliseJob Date_parse now job))
    by (apply normaliseJob_Some; rewrite Hid; exact Ht).
  destruct Hn as [update Hn].
  destruct (normaliseJob_id Date_parse now job update Hn) as (id' & Hid' & _ & Hu).
  assert (id' = id) by congruence. subst id'.
  destruct (upsertDownload_throws now update id st2) as [e He];
    [congruence | congruence | exact Hu | exact Ht |].
  exists update, e. split; [exact Hn|]. split; [exact Hu|]. split; [exact He|].
  unfold submit_resume.
  match goal with |- tryCatch ?b ?h st = _ =>
    rewrite (tryCatch_caught b h st (exec (upsertDownload now update) st2) e)
  end; [reflexivity|]. cbn [negb]. cbv zeta.
  rewrite Hjob, Hid. cbn [truthyOpt default]. rewrite Ht, Hn.
  unfold bind at 1. fold debug. destruct (Hdret st) as [[] Hdo].
  rewrite (run_eq debug st), Hdo. fold st1.
  unfold bind at 1.
  destruct (renderLogLines_returns (default [ "Job queued." ] (job_logs job)) st1)
    as [[] Hro].
  rewrite (run_eq (renderLogLines _) st1), Hro. fold st2.
  unfold bind at 1. rewrite (run_eq (upsertDownload now update) st2), He. reflexivity.
Qed.

(** X2: on a page that has its console and its list, and with
    [state.pendingCancellations] undefined as the script leaves it, the
    answer to a submit that brings the new job (any job with an id) ends
    without an exception leaving the handler, but it starts nothing: the
    upsert of the job throws, so [startJobPolling] is not reached, no poller
    and no interval timer is added and no poll request is made; the line on
    top of the console is an error line. *)
Theorem submit_answer_starts_no_poller (now : Date) (st : State) (status : Z)
    (body : CreateData) (job : RawJob) (id : string) :
  pendingCancellations st = None ->
  is_Some (downloadsList st) -> is_Some (consoleDiv st) ->
  create_job body = Some job -> job_id job = Some id -> truthy id = true ->
  let answer := Responded true status (inr body) in
  let st' := exec (submit_resume Date_parse now answer) st in
  outcome (submit_resume Date_parse now answer) st = Returned tt
  /\ startsNothing st st'
  /\ exists line shown,
       consoleDiv st' = Some (line :: shown) /\ line_type line = "error".
Proof.
  intros Hp Hl Hc Hjob Hid Ht answer st'.
  destruct (submit_resume_job now st status body job id Hp Hl Hjob Hid Ht)
    as (update & e & Hn & Hu & He & Hrun).
  set (debug := match create_debug_mode body with
                | Some enabled => setDebugMode enabled
                | None => ret tt
                end) in *.
  set (st1 := exec debug st) in *.
  set (st2 := exec (renderLogLines (default [ "Job queued." ] (job_logs job))) st1) in *.
  set (st3 := exec (upsertDownload now update) st2) in *.
  assert (Hd1 : frames sameJobs debug)
    by (subst debug; destruct (create_debug_mode body);
        [apply setDebugMode_sameJobs | apply (frames_ret _ sameJobs_refl)]).
  assert (Hd2 : frames keepsElements debug)
    by (subst debug; destruct (create_debug_mode body);
        [apply setDebugMode_keepsElements | apply (frames_ret _ keepsElements_refl)]).
  assert (Hc3 : is_Some (consoleDiv st3)).
  { apply (upsertDownload_keepsElements now update st2).
    apply (renderLogLines_keepsElements _ st1). apply (Hd2 st). exact Hc. }
  destruct Hc3 as [shown Hc3].
  destruct (appendConsoleLine_forced ("ERROR: " ++ describe e) "error" st3 shown Hc3 eq_refl)
    as (line & Hline & Hshape).
  assert (Hst' : st' = set_consoleDiv (Some (line :: shown)) st3).
  { unfold st', exec, answer. rewrite Hrun, Hline. reflexivity. }
  split; [|split].
  - unfold outcome, answer. rewrite Hrun, Hline. reflexivity.
  - apply (startsNothing_trans _ st1); [apply sameJobs_startsNothing, Hd1|].
    apply (startsNothing_trans _ st2);
      [apply sameJobs_startsNothing, renderLogLines_sameJobs|].
    apply (startsNothing_trans _ st3); [apply upsertDownload_startsNothing|].
    rewrite Hst'. repeat split; auto.
  - exists line, shown. rewrite Hst'. split; [reflexivity|].
    rewrite Hshape. reflexivity.
Qed.
End SubmitAnswer.

(** The page as loaded, and the answer to the submit of a job that the
    backend has queued. *)
Lemma submit_answer_starts_no_poller_witness :
  let answer :=
    Responded true 200
      (inr {| create_debug_mode := None; create_logs := None;
              create_job := Some (snapshot "j1" "queued" 0) |}) in
  let st' := exec (submit_resume noDates 5 answer) (pageLoaded false) in
  pollers st' = ∅ /\ timers st' = ∅ /\ requests st' = []
  /\ (line_type <$> (consoleDiv st' ≫= head)) = Some "error".
Proof.
  intros answer st'.
  destruct (submit_answer_starts_no_poller noDates 5 (pageLoaded false) 200
              {| create_debug_mode := None; create_logs := None;
                 create_job := Some (snapshot "j1" "queued" 0) |}
              (snapshot "j1" "queued" 0) "j1" eq_refl
              (ex_intro _ [EmptyState] eq_refl) (ex_intro _ [] eq_refl)
              eq_refl eq_refl eq_refl)
    as (_ & (Hpollers & Htimers & Hrequests) & (line & shown & Hconsole & Htype)).
  fold answer in Hpollers, Htimers, Hrequests, Hconsole. fold st' in Hpollers, Htimers, Hrequests, Hconsole.
  split; [|split; [|split]].
  - apply map_eq. intros j. rewrite lookup_empty. apply Hpollers. reflexivity.
  - apply map_eq. intros t. rewrite lookup_empty. apply Htimers. reflexivity.
  - exact Hrequests.
  - rewrite Hconsole. cbn. rewrite Htype. reflexivity.
Defined.

(** ** Proofs: the job history *)

Section JobHistory.
Variable Date_parse : string -> option Date.

Lemma normaliseJob_None (now : Date) (job : RawJob) :
  truthyOpt (job_id job) = false -> normaliseJob Date_parse now job = None.
Proof.
  unfold normaliseJob, truthyOpt. destruct (job_id job) as [id|]; [|reflexivity].
  intros ->. reflexivity.
Qed.

(** The loop of [loadInitialJobs] stops at the first job that has an id:
    the jobs before it are skipped, and its upsert throws. *)
Lemma loadInitialJobs_loop (clock : nat -> Date) (f : nat * RawJob -> M State unit)
    (history : list RawJob) (k i : nat) (job : RawJob) (update : JobUpdate)
    (e : Thrown) (st : State) :
  (forall numbered,
     f numbered
     = bind (match normaliseJob Date_parse (clock numbered.1) numbered.2 with
             | Some update => upsertDownload (clock numbered.1) update
             | None => ret tt
             end)
            (fun _ =>
               match normaliseJob Date_parse (clock numbered.1) numbered.2 with
               | Some update =>
                   when (isCancellable (u_status update))
                        (startJobPolling (default "" (u_id update)) noOptions)
               | None => ret tt
               end)) ->
  findEntry (fun job => truthyOpt (job_id job)) history = Some (i, job) ->
  normaliseJob Date_parse (clock (k + i)%nat) job = Some update ->
  outcome (upsertDownload (clock (k + i)%nat) update) st = Threw e ->
  forEach f (imap (fun n => pair (k + n)%nat) history) st
  = (exec (upsertDownload (clock (k + i)%nat) update) st, Threw e).
Proof.
  intros Hf. revert k i. induction history as [|first history IH]; intros k i Hfind Hn He.
  - discriminate.
  - cbn [imap forEach]. cbn [findEntry] in Hfind.
    destruct (truthyOpt (job_id first)) eqn:Hfirst.
    + injection Hfind as <- <-. rewrite Nat.add_0_r in *.
      unfold bind at 1. rewrite Hf. cbn [fst snd]. rewrite Hn.
      unfold bind at 1. rewrite (run_eq (upsertDownload _ _) st), He. reflexivity.
    + destruct (findEntry _ history) as [[j found]|] eqn:Hrest; [|discriminate].
      injection Hfind as <- <-.
      unfold bind at 1. rewrite Hf. cbn [fst snd].
      rewrite (normaliseJob_None _ first Hfirst). cbn [ret bind].
      replace (k + S j)%nat with (S k + j)%nat in * by lia.
      rewrite <- (IH (S k) j eq_refl Hn He).
      f_equal. apply imap_ext. intros n x _. cbn. f_equal. lia.
Qed.

Lemma upsertDownload_first (now : Date) (update : JobUpdate) (id : string)
    (st : State) :
  downloads st = [] -> u_id update = Some id -> truthy id = true ->
  downloads (exec (upsertDownload now update) st) = [ newEntry id update now ].
Proof.
  intros Hd Hid Ht.
  destruct (upsertDownload_downloads now update id st Hid Ht) as [H|H];
    rewrite H; unfold storeUpsert; rewrite Hd; reflexivity.
Qed.

(** X3: on the freshly loaded page (nothing tracked yet, console
    and list present, [state.pendingCancellations] undefined), the answer
    of [/jobs] leaves one record in the store however long the history is:
    that of the first job that has an id.  The upsert of that job throws,
    which ends the loop: the later jobs are not read, no poller is started
    for a job that is queued or under way, and the console gets an error
    line on top. *)
Theorem loadInitialJobs_keeps_first_job_only (clock : nat -> Date) (st : State)
    (status : Z) (data : JobsData) (history : list RawJob) (i : nat)
    (job : RawJob) (id : string) :
  pendingCancellations st = None ->
  is_Some (downloadsList st) -> is_Some (consoleDiv st) ->
  downloads st = [] ->
  jobs data = Some history ->
  findEntry (fun job => truthyOpt (job_id job)) history = Some (i, job) ->
  job_id job = Some id ->
  let answer := Responded true status (inr data) in
  let st' := exec (loadInitialJobs_resume Date_parse clock answer) st in
  outcome (loadInitialJobs_resume Date_parse clock answer) st = Returned tt
  /\ (exists update,
        normaliseJob Date_parse (clock i) job = Some update
        /\ downloads st' = [ newEntry id update (clock i) ])
  /\ startsNothing st st'
  /\ exists line shown,
       consoleDiv st' = Some (line :: shown) /\ line_type line = "error".
Proof.
  intros Hp Hl Hc Hd Hjobs Hfind Hid answer st'.
  set (debug := match jobs_debug_mode data with
                | Some enabled => setDebugMode enabled
                | None => ret tt
                end).
  assert (Hdret : returns debug)
    by (subst debug; destruct (jobs_debug_mode data);
        [apply setDebugMode_returns | apply returns_ret]).
  assert (Hd1 : frames sameJobs debug)
    by (subst debug; destruct (jobs_debug_mode data);
        [apply setDebugMode_sameJobs | apply (frames_ret _ sameJobs_refl)]).
  assert (Hd2 : frames keepsElements debug)
    by (subst debug; destruct (jobs_debug_mode data);
        [apply setDebugMode_keepsElements | apply (frames_ret _ keepsElements_refl)]).
  set (st1 := exec debug st).
  pose proof (Hd1 st) as (Hds1 & _ & Hp1 & _ & _ & Hl1 & _). fold st1 in Hds1, Hp1, Hl1.
  pose proof (findEntry_Some _ _ _ _ Hfind) as [_ Htruthy].
  cbn beta in Htruthy. rewrite Hid in Htruthy. cbn [truthyOpt] in Htruthy.
  assert (Hn : is_Some (normaliseJob Date_parse (clock i) job))
    by (apply normaliseJob_Some; rewrite Hid; exact Htruthy).
  destruct Hn as [update Hn].
  destruct (normaliseJob_id Date_parse (clock i) job update Hn) as (id' & Hid' & _ & Hu).
  assert (id' = id) by congruence. subst id'.
  destruct (upsertDownload_throws (clock i) update id st1) as [e He];
    [congruence | congruence | exact Hu | exact Htruthy |].
  set (st2 := exec (upsertDownload (clock i) update) st1).
  assert (Hc2 : is_Some (consoleDiv st2)).
  { apply (upsertDownload_keepsElements (clock i) update st1). apply (Hd2 st). exact Hc. }
  destruct Hc2 as [shown Hc2].
  destruct (appendConsoleLine_forced
              ("ERROR: Failed to load job history: " ++ describe e) "error" st2 shown
              Hc2 eq_refl) as (line & Hline & Hshape).
  assert (Hrun : loadInitialJobs_resume Date_parse clock answer st
                 = (set_consoleDiv (Some (line :: shown)) st2, Returned tt)).
  { unfold loadInitialJobs_resume, answer.
    match goal with |- tryCatch ?b ?h st = _ =>
      rewrite (tryCatch_caught b h st st2 e)
    end; [exact Hline|]. cbn [negb]. rewrite Hjobs. cbn [default].
    unfold bind at 1. fold debug. destruct (Hdret st) as [[] Hdo].
    rewrite (run_eq debug st), Hdo. fold st1.
    apply (loadInitialJobs_loop clock _ history 0 i job update e st1);
      [intros numbered; reflexivity | exact Hfind | exact Hn | exact He]. }
  assert (Hst' : st' = set_consoleDiv (Some (line :: shown)) st2)
    by (unfold st', exec; rewrite Hrun; reflexivity).
  split; [|split; [|split]].
  - unfold outcome. rewrite Hrun. reflexivity.
  - exists update. split; [exact Hn|]. rewrite Hst'. cbn [downloads set_consoleDiv].
    apply upsertDownload_first; [congruence | exact Hu | exact Htruthy].
  - apply (startsNothing_trans _ st1); [apply sameJobs_startsNothing, Hd1|].
    apply (startsNothing_trans _ st2); [apply upsertDownload_startsNothing|].
    rewrite Hst'. repeat split; auto.
  - exists line, shown. rewrite Hst'. split; [reflexivity|].
    rewrite Hshape. reflexivity.
Qed.
End JobHistory.

(** A history of three jobs, the first without an id, the other two under
    way: only the second gets into the store, and neither is polled. *)
Lemma loadInitialJobs_keeps_first_job_only_witness :
  let history :=
    [ snapshot "" "complete" 100; snapshot "j2" "processing" 40;
      snapshot "j3" "queued" 0 ] in
  let answer :=
    Responded true 200 (inr {| jobs_debug_mode := None; jobs := Some history |}) in
  let st' := exec (loadInitialJobs_resume noDates Z.of_nat answer) (pageLoaded false) in
  map e_id (downloads st') = [ "j2" ] /\ pollers st' = ∅ /\ requests st' = [].
Proof.
  intros history answer st'.
  destruct (loadInitialJobs_keeps_first_job_only noDates Z.of_nat (pageLoaded false) 200
              {| jobs_debug_mode := None; jobs := Some history |} history 1
              (snapshot "j2" "processing" 40) "j2" eq_refl
              (ex_intro _ [EmptyState] eq_refl) (ex_intro _ [] eq_refl)
              eq_refl eq_refl eq_refl eq_refl)
    as (_ & (update & _ & Hstore) & (Hpollers & _ & Hrequests) & _).
  fold answer in Hstore, Hpollers, Hrequests. fold st' in Hstore, Hpollers, Hrequests.
  split; [|split].
  - rewrite Hstore. reflexivity.
  - apply map_eq. intros j. rewrite lookup_empty. apply Hpollers. reflexivity.
  - exact Hrequests.
Defined.

(** ** Proofs: the page never polls *)

(** X1: in every state that the page can reach from its load (with
    its console and list elements present) the poller map is empty, no
    interval timer runs, and every request made for a job is a one-off poll:
    no job is ever polled on a timer and no cancel request is ever sent,
    whatever the user does and the backend answers.  Every path to
    [startJobPolling] goes through an upsert, which throws, or through
    [cancelJob], which throws at its first test. *)
Theorem no_poller_is_ever_started (Date_parse : string -> option Date) (st : State) :
  reachable Date_parse st ->
  pollers st = ∅ /\ timers st = ∅
  /\ forall request, In request (requests st) -> exists jobId, request = GetJob jobId.
Proof.
  intros Hreach.
  destruct (reachable_unwatched Date_parse st Hreach) as (_ & _ & Hp & Ht & Hr).
  split; [exact Hp|]. split; [exact Ht|].
  intros [jobId|jobId] Hin; [eauto|]. destruct (Hr jobId Hin).
Qed.

(** The page is loaded and the history brings a finished job; its card is
    opened and the poll of it is answered; a job is submitted and accepted;
    its cancel button is clicked. *)
Lemma no_poller_is_ever_started_witness :
  let finished := snapshot "j1" "complete" 100 in
  let st1 :=
    exec (loadInitialJobs_resume noDates Z.of_nat
            (Responded true 200
               (inr {| jobs_debug_mode := None; jobs := Some [ finished ] |})))
         (pageLoaded false) in
  let st2 := exec (activateDownloadItem "j1") st1 in
  let st3 :=
    exec (pollJob_resume noDates 9 "j1" activateOptions
            (Responded true 200 (inr (jobBody finished))))
         st2 in
  let st4 :=
    exec (submit_resume noDates 12
            (Responded true 200
               (inr {| create_debug_mode := None; create_logs := None;
                       create_job := Some (snapshot "j2" "queued" 0) |})))
         st3 in
  let st5 := exec (cancelJob_start "j2") st4 in
  map e_id (downloads st5) = [ "j2"; "j1" ]
  /\ pollers st5 = ∅ /\ timers st5 = ∅ /\ requests st5 = [ GetJob "j1" ].
Proof.
  intros finished st1 st2 st3 st4 st5.
  split; [vm_compute; reflexivity|].
  assert (Hreach : reachable noDates st5).
  { apply cancel_click, create_answer, poll_answer; [|vm_compute; auto].
    apply card_opened, jobs_answer, page_loaded. }
  destruct (no_poller_is_ever_started noDates st5 Hreach) as (Hp & Ht & _).
  split; [exact Hp|]. split; [exact Ht|]. vm_compute. reflexivity.
Defined.
(** ** Proofs: opening a card *)

Lemma trimEnd_black (c : ascii) (r : string) :
  isWhiteSpace c = false -> trimEnd (String c r) = String c (trimEnd r).
Proof. intros Hc. cbn [trimEnd]. destruct (trimEnd r); [rewrite Hc|]; reflexivity. Qed.

Lemma trim_black (c : ascii) (r : string) :
  isWhiteSpace c = false -> trim (String c r) = String c (trimEnd r).
Proof. intros Hc. unfold trim. cbn [trimStart]. rewrite Hc. apply trimEnd_black, Hc. Qed.

Lemma trimStart_trimEnd (s : string) : trimStart (trimEnd s) = trimEnd (trimStart s).
Proof.
  induction s as [|c r IH]; [reflexivity|].
  destruct (isWhiteSpace c) eqn:Hc.
  - cbn [trimStart]. rewrite Hc, <- IH. cbn [trimEnd].
    destruct (trimEnd r) as [|d r']; [rewrite Hc; reflexivity|].
    cbn [trimStart]. rewrite Hc. reflexivity.
  - rewrite trimEnd_black by exact Hc. cbn [trimStart]. rewrite Hc.
    symmetry. apply trimEnd_black, Hc.
Qed.

(** A cancel button is built only for a job that can be cancelled: the card
    of any other job is built without a look at the pending set. *)
Lemma buildDownloadItem_finished (entry : Entry) (isSelected : bool) (st : State) :
  isCancellable (e_status entry) = false ->
  exists card,
    buildDownloadItem entry isSelected st = (st, Returned card)
    /\ card_selected card = isSelected /\ card_cancel card = None.
Proof.
  intros Hc. unfold buildDownloadItem. rewrite Hc, andb_false_r.
  eexists. split; [reflexivity|]. split; reflexivity.
Qed.

Lemma renderCards_finished (selected : option string) (entries : list Entry)
    (children : list ListChild) (st : State) :
  (forall item, item ∈ entries -> isCancellable (e_status item) = false) ->
  downloadsList st = Some children ->
  exists cards,
    forEach (fun entry =>
               bind (buildDownloadItem entry (isString selected (e_id entry)))
                    (fun card => appendListChild (DownloadItem card)))
            entries st
    = (set_downloadsList (Some (children ++ map DownloadItem cards)%list) st, Returned tt)
    /\ map card_selected cards = map (fun item => isString selected (e_id item)) entries
    /\ map card_cancel cards = map (fun _ => None) entries.
Proof.
  revert children st. induction entries as [|entry entries IH]; intros children st Hf Hl.
  - exists []. cbn. rewrite app_nil_r. split; [|split; reflexivity].
    f_equal. destruct st; cbn in *. subst. reflexivity.
  - destruct (buildDownloadItem_finished entry (isString selected (e_id entry)) st)
      as (card & Hb & Hsel & Hcan); [apply Hf; left|].
    destruct (IH (children ++ [DownloadItem card])%list
                 (set_downloadsList (Some (children ++ [DownloadItem card])%list) st))
      as (cards & Hrun & Hsels & Hcans); [intros item Hin; apply Hf; right; exact Hin | reflexivity |].
    exists (card :: cards). cbn [forEach map]. split; [|split; congruence].
    unfold bind at 1. unfold bind at 1. rewrite Hb.
    unfold appendListChild at 1, modify. rewrite Hl. rewrite Hrun.
    rewrite <- app_assoc. reflexivity.
Qed.

Lemma renderDownloads_finished (st : State) (children : list ListChild) :
  downloadsList st = Some children ->
  (forall item, item ∈ downloads st -> isCancellable (e_status item) = false) ->
  downloads st <> [] ->
  (truthyOpt (selectedJobId st)
   && negb (some (fun item => isString (selectedJobId st) (e_id item)) (downloads st)))
  = false ->
  exists cards,
    renderDownloads st = (set_downloadsList (Some (map DownloadItem cards)) st, Returned tt)
    /\ map card_selected cards
       = map (fun item => isString (selectedJobId st) (e_id item)) (downloads st)
    /\ map card_cancel cards = map (fun _ => None) (downloads st).
Proof.
  intros Hl Hf Hne Hsel.
  destruct (renderCards_finished (selectedJobId st) (downloads st) []
              (set_downloadsList (Some []) st) Hf eq_refl)
    as (cards & Hrun & Hsels & Hcans).
  exists cards. split; [|split; assumption].
  unfold renderDownloads. unfold bind at 1. cbn [getState]. rewrite Hl.
  unfold bind at 1. cbn [modify]. unfold bind at 1. rewrite Hsel. cbn [when ret].
  unfold bind at 1. cbn [getState downloads set_downloadsList selectedJobId].
  destruct (downloads st) as [|first rest] eqn:Hd; [contradiction|].
  cbn [length Nat.eqb]. rewrite Hrun. reflexivity.
Qed.
Lemma resetConsole_run (message : string) (st : State) (shown : list ConsoleLine) :
  consoleDiv st = Some shown -> truthy message = true ->
  resetConsole message st
  = (set_consoleDiv
       (Some [ {| line_text := text (interpretLogLine message None);
                  line_type := type (interpretLogLine message None) |} ])
       (set_lastLogs [] (set_consoleDiv (Some []) st)),
     Returned tt).
Proof.
  intros Hc Ht. unfold resetConsole. unfold bind at 1. cbn [getState]. rewrite Hc.
  unfold bind at 1. cbn [modify]. unfold bind at 1. cbn [modify]. rewrite Ht.
  reflexivity.
Qed.

Lemma interpretLogLine_loading (label : string) :
  interpretLogLine ("Loading logs for " ++ label ++ "...") None
  = {| text := "Loading logs for " ++ label ++ "..."; type := "info" |}.
Proof.
  change ("Loading logs for " ++ label ++ "...")
    with (String "L" ("oading logs for " ++ label ++ "...")).
  unfold interpretLogLine. cbn [truthyOpt negb].
  rewrite trim_black by reflexivity. reflexivity.
Qed.

(** X4: opening the card of a job, when every job in the store is
    finished (so that the list renders), selects the job and makes it the
    one the console follows, shows one card per record with the cards of
    that job marked as selected and no cancel button, replaces the console
    by the line [Loading logs for <label>...] unless the console followed
    that job already, and makes one poll request for the job; it starts no
    poller and no timer, and leaves the store as it was. *)
Theorem activateDownloadItem_opens_finished_job (jobId : string) (st : State)
    (entry : Entry) (shown : list ConsoleLine) (children : list ListChild) :
  truthy jobId = true ->
  consoleDiv st = Some shown -> downloadsList st = Some children ->
  lookupJob jobId (downloads st) = Some entry ->
  (forall item, item ∈ downloads st -> isCancellable (e_status item) = false) ->
  let st' := exec (activateDownloadItem jobId) st in
  outcome (activateDownloadItem jobId) st = Returned true
  /\ selectedJobId st' = Some jobId
  /\ activeConsoleJobId st' = Some jobId
  /\ requests st' = (requests st ++ [ GetJob jobId ])%list
  /\ pollers st' = pollers st /\ timers st' = timers st
  /\ downloads st' = downloads st
  /\ consoleDiv st'
     = (if isString (activeConsoleJobId st) jobId then Some shown
        else Some [ infoLine ("Loading logs for " ++ optOr (e_label entry) "job" ++ "...") ])
  /\ exists cards,
       downloadsList st' = Some (map DownloadItem cards)
       /\ map card_selected cards
          = map (fun item => String.eqb jobId (e_id item)) (downloads st)
       /\ map card_cancel cards = map (fun _ => None) (downloads st).
Proof.
  intros Ht Hc Hl Hlook Hf st'.
  set (st1 := set_activeConsoleJobId (Some jobId) (set_selectedJobId (Some jobId) st)).
  destruct (lookupJob_elem jobId (downloads st) entry Hlook) as [Hin Heid].
  destruct (renderDownloads_finished st1 children) as (cards & Hrender & Hsels & Hcans).
  - exact Hl.
  - exact Hf.
  - cbn. intros Hnil. rewrite Hnil in Hin. inversion Hin.
  - cbn [selectedJobId st1 set_activeConsoleJobId set_selectedJobId downloads truthyOpt].
    rewrite Ht. cbn [andb]. apply negb_false_iff. unfold some.
    apply existsb_exists. exists entry. split.
    + apply list_elem_of_In. exact Hin.
    + cbn [isString]. rewrite Heid. apply String.eqb_refl.
  - set (st2 := set_downloadsList (Some (map DownloadItem cards)) st1) in Hrender.
    set (label := optOr (e_label entry) "job").
    set (message := ("Loading logs for " ++ label ++ "...")%string).
    assert (Hrun : activateDownloadItem jobId st
                   = let st3 := if isString (activeConsoleJobId st) jobId then st2
                                else set_consoleDiv (Some [ infoLine message ])
                                       (set_lastLogs [] (set_consoleDiv (Some []) st2)) in
                     (set_requests (requests st3 ++ [ GetJob jobId ])%list st3,
                      Returned true)).
    { unfold activateDownloadItem. rewrite Ht. cbn [negb].
      unfold bind at 1. cbn [getState]. unfold bind at 1. cbn [modify].
      unfold bind at 1. cbn [modify]. fold st1. unfold bind at 1. rewrite Hrender.
      unfold bind at 1. cbn [getState].
      replace (downloads st2) with (downloads st) by reflexivity.
      rewrite Hlook. fold label. fold message.
      destruct (isString (activeConsoleJobId st) jobId); cbn [negb when].
      - unfold bind at 1. cbn [ret]. unfold pollJob_start. rewrite Ht. reflexivity.
      - unfold bind at 1.
        rewrite (resetConsole_run message st2 shown) by (exact Hc || reflexivity).
        unfold message. rewrite interpretLogLine_loading.
        unfold pollJob_start. rewrite Ht. reflexivity. }
    cbv zeta in Hrun. unfold st', exec, outcome. rewrite Hrun. cbn [fst snd].
    assert (Hcards : map card_selected cards
                     = map (fun item => String.eqb jobId (e_id item)) (downloads st))
      by exact Hsels.
    destruct (isString (activeConsoleJobId st) jobId);
      do 7 (split; [reflexivity|]);
      (split; [first [exact Hc | reflexivity]|]);
      exists cards; (split; [reflexivity|]); (split; [exact Hcards | exact Hcans]).
Qed.

(** The page after a history with one finished job, and a click on its
    card. *)
Lemma activateDownloadItem_opens_finished_job_witness :
  let st :=
    exec (loadInitialJobs_resume noDates Z.of_nat
            (Responded true 200
               (inr {| jobs_debug_mode := None;
                       jobs := Some [ snapshot "j1" "complete" 100 ] |})))
         (pageLoaded false) in
  let st' := exec (activateDownloadItem "j1") st in
  selectedJobId st' = Some "j1"
  /\ requests st' = [ GetJob "j1" ]
  /\ pollers st' = pollers st
  /\ consoleDiv st' = Some [ infoLine "Loading logs for Radarr Download..." ].
Proof.
  intros st st'.
  assert (Hstore : downloads st
                   = [ {| e_id := "j1"; e_label := Some "Radarr Download";
                          e_subtitle := ""; e_status := Some "complete";
                          e_progress := 100; e_metadata := []; e_message := "";
                          e_startedAt := 0; e_updatedAt := 0 |} ])
    by (vm_compute; reflexivity).
  destruct (activateDownloadItem_opens_finished_job "j1" st
              {| e_id := "j1"; e_label := Some "Radarr Download";
                 e_subtitle := ""; e_status := Some "complete";
                 e_progress := 100; e_metadata := []; e_message := "";
                 e_startedAt := 0; e_updatedAt := 0 |}
              (default [] (consoleDiv st)) (default [] (downloadsList st)))
    as (_ & Hselected & _ & Hrequests & Hpollers & _ & _ & Hconsole & _).
  - reflexivity.
  - vm_compute. reflexivity.
  - vm_compute. reflexivity.
  - rewrite Hstore. vm_compute. reflexivity.
  - rewrite Hstore. intros item Hin. apply list_elem_of_singleton in Hin. subst item.
    reflexivity.
  - fold st' in Hselected, Hrequests, Hpollers, Hconsole.
    split; [exact Hselected|]. split; [exact Hrequests|]. split; [exact Hpollers|].
    exact Hconsole.
Defined.
(** ** Proofs: the check of the address *)

Lemma startsWith_app (s p q : string) :
  startsWith s (p ++ q)
  = startsWith s p && startsWith (dropString (String.length p) s) q.
Proof.
  revert s. induction p as [|a p IH]; intros s; [destruct s; reflexivity|].
  destruct s as [|b s]; [reflexivity|]. cbn [String.length dropString].
  change (String a p ++ q) with (String a (p ++ q)). cbn [startsWith].
  destruct (Ascii.eqb a b); [apply IH | reflexivity].
Qed.

Lemma toLowerCase_dropString (n : nat) (s : string) :
  toLowerCase (dropString n s) = dropString n (toLowerCase s).
Proof.
  revert s. induction n as [|n IH]; intros s; [reflexivity|].
  destruct s as [|c r]; [reflexivity|]. cbn. apply IH.
Qed.

Lemma dropString_add (n m : nat) (s : string) :
  dropString (n + m) s = dropString m (dropString n s).
Proof.
  revert s. induction n as [|n IH]; intros s; [reflexivity|].
  destruct s as [|c r]; [destruct m; reflexivity|]. cbn. apply IH.
Qed.

Lemma length_append (p q : string) :
  String.length (p ++ q) = (String.length p + String.length q)%nat.
Proof.
  induction p as [|a p IH]; [reflexivity|].
  change (String a p ++ q) with (String a (p ++ q)). cbn. rewrite IH. reflexivity.
Qed.

(** A literal of small letters and punctuation under the [i] flag matches
    the input as its small letters show it. *)
Lemma literal_ignoringCase (p s : string) :
  (forall c, In c (list_ascii_of_string p) ->
             forall b, ignoringCase c b = Ascii.eqb c (lowerChar b)) ->
  literal ignoringCase p s
  = if startsWith (toLowerCase s) p then Some (dropString (String.length p) s) else None.
Proof.
  revert s. induction p as [|a p IH]; intros s Hp; [destruct s; reflexivity|].
  destruct s as [|b s]; [reflexivity|].
  cbn [literal toLowerCase startsWith String.length dropString].
  rewrite (Hp a (or_introl eq_refl) b).
  destruct (Ascii.eqb a (lowerChar b)); [|reflexivity].
  apply IH. intros c Hc. apply Hp. right. exact Hc.
Qed.

Lemma literal_exactly (p s : string) :
  literal exactly p s
  = if startsWith s p then Some (dropString (String.length p) s) else None.
Proof.
  revert s. induction p as [|a p IH]; intros s; [destruct s; reflexivity|].
  destruct s as [|b s]; [reflexivity|].
  cbn [literal startsWith String.length dropString]. unfold exactly at 1.
  destruct (Ascii.eqb a b); [apply IH | reflexivity].
Qed.

Lemma pattern_letters (c : ascii) :
  In c (list_ascii_of_string "https:/w.youbecm") ->
  forall b, ignoringCase c b = Ascii.eqb c (lowerChar b).
Proof.
  intros Hc b. cbn in Hc.
  repeat (destruct Hc as [<-|Hc];
          [destruct b as [[] [] [] [] [] [] [] []]; reflexivity|]).
  destruct Hc.
Qed.

Section Recognised.
Variable same : ascii -> ascii -> bool.
Variable view : string -> string.
Variable known : string -> Prop.
Hypothesis view_dropString :
  forall n s, view (dropString n s) = dropString n (view s).
Hypothesis literal_view :
  forall p s, known p ->
    literal same p s
    = if startsWith (view s) p then Some (dropString (String.length p) s) else None.

Lemma lit_recognises (p : string) : known p -> recognises view (lit same p) [ p ].
Proof.
  intros Hp s k. unfold lit. rewrite literal_view by exact Hp.
  cbn [existsb]. destruct (startsWith (view s) p); cbn [andb orb];
    [rewrite orb_false_r|]; reflexivity.
Qed.

Lemma alt_recognises (a b : Matcher) (ps qs : list string) :
  recognises view a ps -> recognises view b qs -> recognises view (alt a b) (ps ++ qs).
Proof.
  intros Ha Hb s k. unfold alt. rewrite Ha, Hb, existsb_app. reflexivity.
Qed.

Lemma opt_recognises (a : Matcher) (ps : list string) :
  recognises view a ps -> recognises view (opt a) (ps ++ [ "" ]).
Proof.
  intros Ha s k. unfold opt. rewrite Ha, existsb_app. cbn [existsb].
  f_equal. destruct (view s); cbn; rewrite orb_false_r; reflexivity.
Qed.

Lemma existsb_product (s : string) (k : string -> bool) (ps qs : list string) :
  existsb (fun p => startsWith (view s) p
                    && existsb (fun q =>
                                  startsWith (view (dropString (String.length p) s)) q
                                  && k (dropString (String.length q)
                                                   (dropString (String.length p) s)))
                               qs)
          ps
  = existsb (fun p => startsWith (view s) p && k (dropString (String.length p) s))
            (p ← ps; q ← qs; [ (p ++ q)%string ]).
Proof.
  induction ps as [|p ps IH]; [reflexivity|].
  rewrite bind_cons, existsb_app, <- IH. cbn [existsb]. f_equal. clear IH.
  induction qs as [|q qs IHq]; [cbn; apply andb_false_r|].
  rewrite bind_cons. cbn [existsb app]. rewrite <- IHq.
  rewrite startsWith_app, length_append, dropString_add, view_dropString.
  destruct (startsWith (view s) p); reflexivity.
Qed.

Lemma seq_recognises (a b : Matcher) (ps qs : list string) :
  recognises view a ps -> recognises view b qs ->
  recognises view (seq a b) (p ← ps; q ← qs; [ (p ++ q)%string ]).
Proof.
  intros Ha Hb s k. unfold seq. rewrite Ha, <- existsb_product. clear Ha.
  induction ps as [|p ps IH]; [reflexivity|].
  cbn [existsb]. rewrite Hb, IH. reflexivity.
Qed.

Hypothesis known_parts :
  known "http" /\ known "s" /\ known "://" /\ known "www."
  /\ known "youtube.com" /\ known "youtu.be" /\ known "/".

Lemma ytPattern_recognises : recognises view (ytPattern same) ACCEPTED_ADDRESSES.
Proof.
  destruct known_parts as (Hhttp & Hs & Hcolon & Hwww & Hlong & Hshort & Hslash).
  unfold ytPattern.
  apply (seq_recognises _ _ [ "https://"; "http://"; "" ]
           [ "www.youtube.com/"; "www.youtu.be/"; "youtube.com/"; "youtu.be/" ]).
  - apply (opt_recognises _ [ "https://"; "http://" ]).
    apply (seq_recognises _ _ [ "http" ] [ "s://"; "://" ]);
      [apply lit_recognises, Hhttp|].
    apply (seq_recognises _ _ [ "s"; "" ] [ "://" ]); [|apply lit_recognises, Hcolon].
    apply (opt_recognises _ [ "s" ]). apply lit_recognises, Hs.
  - apply (seq_recognises _ _ [ "www."; "" ] [ "youtube.com/"; "youtu.be/" ]).
    + apply (opt_recognises _ [ "www." ]). apply lit_recognises, Hwww.
    + apply (seq_recognises _ _ [ "youtube.com"; "youtu.be" ] [ "/" ]);
        [|apply lit_recognises, Hslash].
      apply (alt_recognises _ _ [ "youtube.com" ] [ "youtu.be" ]);
        apply lit_recognises; assumption.
Qed.

Lemma ytPattern_test (address : string) :
  test (ytPattern same) address = existsb (startsWith (view address)) ACCEPTED_ADDRESSES.
Proof.
  unfold test. rewrite ytPattern_recognises.
  induction ACCEPTED_ADDRESSES as [|p ps IH]; [reflexivity|].
  cbn [existsb]. rewrite IH, andb_true_r. reflexivity.
Qed.
End Recognised.

Lemma ytPattern_panel (address : string) :
  test (ytPattern ignoringCase) address
  = existsb (startsWith (toLowerCase address)) ACCEPTED_ADDRESSES.
Proof.
  apply (ytPattern_test ignoringCase toLowerCase
           (fun p => forall c, In c (list_ascii_of_string p) ->
                               In c (list_ascii_of_string "https:/w.youbecm"))).
  - intros n s. apply toLowerCase_dropString.
  - intros p s Hp. apply literal_ignoringCase.
    intros c Hc. apply pattern_letters, Hp, Hc.
  - repeat split; intros c Hc; cbn in Hc |- *; tauto.
Qed.

Lemma ytPattern_static (address : string) :
  test (ytPattern exactly) address = existsb (startsWith address) ACCEPTED_ADDRESSES.
Proof.
  apply (ytPattern_test exactly (fun s => s) (fun _ => True)).
  - reflexivity.
  - intros p s _. apply literal_exactly.
  - repeat split.
Qed.

(** X6: the check of the YouTube address in the submit handlers
    accepts exactly the addresses that begin with [youtube.com/] or
    [youtu.be/] behind an optional [www.] and an optional [http://] or
    [https://]: a bare host name without the slash, or another subdomain
    such as [m.] or [music.], is refused.  The panel script takes the
    beginning in any case of its letters, [static/script.js] in small
    letters only. *)
Theorem ytPattern_accepted_addresses (address : string) :
  (test (ytPattern ignoringCase) address = true
   <-> exists beginning, In beginning ACCEPTED_ADDRESSES
                         /\ startsWith (toLowerCase address) beginning = true)
  /\ (test (ytPattern exactly) address = true
      <-> exists beginning, In beginning ACCEPTED_ADDRESSES
                            /\ startsWith address beginning = true).
Proof.
  rewrite ytPattern_panel, ytPattern_static. split; apply existsb_exists.
Qed.
(** ** Proofs: the submit handler before the request *)

Lemma truthy_nonempty (s : string) : truthy s = true <-> s <> "".
Proof. destruct s; cbn; split; congruence. Qed.

(** X5: the submit handler posts the request exactly when the
    address begins like a YouTube address, a movie of the list is selected
    (the hidden id field is not blank), and an extra has a name; the
    payload it posts holds the trimmed values of the form.  Otherwise it
    makes no request and lists its complaints in the console, one error
    line for each, the last on top, above the line [Submitting request...]:
    only the first of the two complaints about the address is made.  It
    touches nothing but the console. *)
Theorem submit_start_validates (form : Form) (st : State) (shown : list ConsoleLine) :
  consoleDiv st = Some shown ->
  let payload := readPayload form in
  let errors := validationErrors payload in
  let st' := exec (submit_start form) st in
  outcome (submit_start form) st
  = Returned (match errors with [] => Some payload | _ :: _ => None end)
  /\ consoleDiv st'
     = Some (map errorLine (rev errors) ++ [ infoLine "Submitting request..." ])%list
  /\ sameJobs st st'
  /\ (errors = []
      <-> existsb (startsWith (toLowerCase (yturl payload))) ACCEPTED_ADDRESSES = true
          /\ movieId payload <> ""
          /\ (extra payload = true -> extra_name payload <> "")).
Proof.
  intros Hc payload errors st'.
  assert (Hrun : submit_start form st
                 = let st1 := set_consoleDiv (Some [ infoLine "Submitting request..." ])
                                (set_lastLogs [] (set_consoleDiv (Some []) st)) in
                   (set_consoleDiv
                      (Some (map errorLine (rev errors)
                             ++ [ infoLine "Submitting request..." ])%list)
                      st1,
                    Returned (match errors with [] => Some payload | _ :: _ => None end))).
  { unfold submit_start. cbv zeta. fold payload. fold errors.
    unfold bind at 1. rewrite (resetConsole_run "Submitting request..." st shown Hc eq_refl).
    change (interpretLogLine "Submitting request..." None)
      with {| text := "Submitting request..."; type := "info" |}.
    cbn [text type]. fold (infoLine "Submitting request...").
    set (st1 := set_consoleDiv _ (set_lastLogs [] _)).
    assert (Hst1 : set_consoleDiv (Some [ infoLine "Submitting request..." ]) st1 = st1)
      by reflexivity.
    subst errors. unfold validationErrors.
    destruct (truthy (yturl payload)), (test _ (yturl payload)),
      (truthy (movieId payload)), (extra payload && negb (truthy (extra_name payload)));
      cbn [negb app length Nat.eqb rev map]; try (rewrite Hst1; reflexivity); reflexivity. }
  cbv zeta in Hrun. split; [|split; [|split]].
  - unfold outcome. rewrite Hrun. reflexivity.
  - unfold st', exec. rewrite Hrun. reflexivity.
  - apply submit_start_sameJobs.
  - subst errors. unfold validationErrors.
    rewrite <- ytPattern_panel. rewrite <- !truthy_nonempty.
    destruct (truthy (yturl payload)) eqn:Hurl.
    + destruct (test _ (yturl payload)), (truthy (movieId payload)), (extra payload),
        (truthy (extra_name payload)); cbn; intuition congruence.
    + assert (Hno : test (ytPattern ignoringCase) (yturl payload) = false)
        by (destruct (yturl payload); [reflexivity | discriminate]).
      rewrite Hno. cbn. intuition congruence.
Qed.

(** A form with an address of another site, no movie, and an extra without
    a name; and the same form filled in well. *)
Lemma submit_start_validates_witness :
  let bad :=
    {| ytInput := Some " https://vimeo.com/1 "; movieNameInput := Some "Alien";
       movieIdInput := Some ""; titleInput := Some ""; yearInput := Some "";
       tmdbInput := Some ""; extraCheckbox := Some true;
       extraTypeSelect := Some "trailer"; extraNameInput := Some " ";
       playlistModeSelect := None |} in
  let good :=
    {| ytInput := Some " HTTPS://YouTu.be/abc "; movieNameInput := Some "Alien (1979)";
       movieIdInput := Some "12"; titleInput := Some "Alien"; yearInput := Some "1979";
       tmdbInput := Some "348"; extraCheckbox := Some false;
       extraTypeSelect := Some "trailer"; extraNameInput := Some "";
       playlistModeSelect := None |} in
  outcome (submit_start bad) (pageLoaded false) = Returned None
  /\ consoleDiv (exec (submit_start bad) (pageLoaded false))
     = Some [ errorLine "Please provide an extra name.";
              errorLine "Please select a valid movie from the list.";
              errorLine "Please enter a valid YouTube URL.";
              infoLine "Submitting request..." ]
  /\ outcome (submit_start good) (pageLoaded false) = Returned (Some (readPayload good))
  /\ yturl (readPayload good) = "HTTPS://YouTu.be/abc".
Proof.
  intros bad good.
  destruct (submit_start_validates bad (pageLoaded false) [] eq_refl)
    as (Hbad & Hconsole & _).
  destruct (submit_start_validates good (pageLoaded false) [] eq_refl)
    as (Hgood & _).
  split; [exact Hbad|]. split; [exact Hconsole|].
  split; [exact Hgood | reflexivity].
Defined.
(** ** Proofs: how an error is shown *)

Lemma trimEnd_idempotent (s : string) : trimEnd (trimEnd s) = trimEnd s.
Proof.
  induction s as [|c r IH]; [reflexivity|].
  cbn [trimEnd]. destruct (trimEnd r) as [|d r'] eqn:E.
  - destruct (isWhiteSpace c) eqn:Hc; [reflexivity|].
    cbn [trimEnd]. rewrite Hc. reflexivity.
  - cbn [trimEnd] in IH |- *. rewrite IH. reflexivity.
Qed.

Lemma trimStart_idempotent (s : string) : trimStart (trimStart s) = trimStart s.
Proof.
  induction s as [|c r IH]; [reflexivity|].
  cbn [trimStart]. destruct (isWhiteSpace c) eqn:Hc; [exact IH|].
  cbn [trimStart]. rewrite Hc. reflexivity.
Qed.

Lemma trim_idempotent (s : string) : trim (trim s) = trim s.
Proof.
  unfold trim.
  rewrite (trimStart_trimEnd (trimStart s)), trimStart_idempotent, trimEnd_idempotent.
  reflexivity.
Qed.

Lemma trim_trimStart (s : string) : trim (trimStart s) = trim s.
Proof. unfold trim. rewrite trimStart_idempotent. reflexivity. Qed.

(** The text that the console shows for [ERROR: <message>] when the type
    [error] is forced. *)
Lemma interpretLogLine_forced_error (message : string) :
  interpretLogLine ("ERROR: " ++ message) (Some "error")
  = {| text := orElse (trim message) ("ERROR: " ++ message); type := "error" |}.
Proof.
  change ("ERROR: " ++ message) with (String "E" (String "R" (String "R" (String "O"
            (String "R" (String ":" (String " " message))))))).
  unfold interpretLogLine. cbn [truthyOpt truthy negb]. unfold interpretForced.
  cbn [String.eqb Ascii.eqb Bool.eqb]. f_equal. f_equal.
  rewrite trim_black by reflexivity. rewrite !trimEnd_black by reflexivity.
  assert (Htag : forall rest,
            stripTag "ERROR:" (String "E" (String "R" (String "R" (String "O"
                        (String "R" (String ":" rest))))))
            = Some rest) by reflexivity.
  unfold removeTag. rewrite Htag, trimStart_trimEnd. reflexivity.
Qed.
Lemma appendConsoleLine_console (rawText : string) (typeOverride : option string)
    (st : State) :
  consoleDiv (exec (appendConsoleLine rawText typeOverride) st)
  = cons {| line_text := text (interpretLogLine rawText typeOverride);
            line_type := type (interpretLogLine rawText typeOverride) |}
    <$> consoleDiv st.
Proof.
  unfold appendConsoleLine, exec, modify. cbn [fst].
  destruct (consoleDiv st) eqn:E; [reflexivity | rewrite E; reflexivity].
Qed.

(** X7: an error that a handler reports as [ERROR: <message>] with
    the type [error] forced goes on top of the console as an error line
    that shows the message without the tag and without the white space
    around it; when the message is blank the line shows the raw text.  A
    line whose type is forced to [muted] shows its text as it is, also when
    that text begins with a tag. *)
Theorem forced_lines_shown (message : string) (st : State) :
  consoleDiv (exec (appendConsoleLine ("ERROR: " ++ message) (Some "error")) st)
  = cons (errorLine (orElse (trim message) ("ERROR: " ++ message))) <$> consoleDiv st
  /\ consoleDiv (exec (appendConsoleLine message (Some "muted")) st)
     = cons {| line_text := message; line_type := "muted" |} <$> consoleDiv st.
Proof.
  rewrite !appendConsoleLine_console, interpretLogLine_forced_error.
  split; reflexivity.
Qed.

Lemma cleanErrorText_trimmed (text : string) :
  trim (cleanErrorText text) = cleanErrorText text.
Proof.
  unfold cleanErrorText. destruct (truthy text); [apply trim_idempotent | reflexivity].
Qed.

(** The text of the line that reports a thrown [Error] whose message was
    cleaned. *)
Lemma reported_reason (reason : string) :
  let err := mkError (cleanErrorText reason) in
  orElse (trim (describe err)) ("ERROR: " ++ describe err)
  = orElse (cleanErrorText reason) "Error".
Proof.
  cbv zeta. unfold describe. cbn [message name mkError].
  destruct (truthy (cleanErrorText reason)) eqn:Ht.
  - rewrite cleanErrorText_trimmed. unfold orElse. rewrite Ht. reflexivity.
  - unfold orElse at 2. rewrite Ht. reflexivity.
Qed.

Section SubmitRefused.
Variable Date_parse : string -> option Date.

(** X8: when [/create] answers with an error status, the
    handler renders the [logs] of the answer through the filter (a line
    [ERROR: Request failed.] when there are none), and then puts the reason
    on top of the console once more: the first log line, cleaned of its
    [ERROR:] tag ([Request failed.] when there is no first line, [Error]
    when nothing is left of it).  The store, the pollers and the list are
    left as they were, and no exception leaves the handler. *)
Theorem submit_refused_shows_reason (now : Date) (st : State) (status : Z)
    (body : Thrown + CreateData) :
  let data := match body with
              | inr decoded => decoded
              | inl _ => {| create_debug_mode := None; create_logs := None;
                            create_job := None |}
              end in
  let logs := default [] (create_logs data) in
  let listed := match logs with [] => [ "ERROR: Request failed." ] | _ :: _ => logs end in
  let reason :=
    orElse (cleanErrorText (orElse (default "" (head logs)) "Request failed.")) "Error" in
  let debug := match create_debug_mode data with
               | Some enabled => setDebugMode enabled
               | None => ret tt
               end in
  let st' := exec (submit_resume Date_parse now (Responded false status body)) st in
  outcome (submit_resume Date_parse now (Responded false status body)) st = Returned tt
  /\ consoleDiv st'
     = cons (errorLine reason)
       <$> consoleDiv (exec (renderLogLines listed) (exec debug st))
  /\ sameJobs st st'.
Proof.
  intros data logs listed reason debug st'.
  assert (Hdret : returns debug)
    by (subst debug; destruct (create_debug_mode data);
        [apply setDebugMode_returns | apply returns_ret]).
  assert (Hd1 : frames sameJobs debug)
    by (subst debug; destruct (create_debug_mode data);
        [apply setDebugMode_sameJobs | apply (frames_ret _ sameJobs_refl)]).
  set (st1 := exec debug st).
  set (st2 := exec (renderLogLines listed) st1).
  set (err := mkError (cleanErrorText (orElse (default "" (head logs)) "Request failed."))).
  assert (Hrun : submit_resume Date_parse now (Responded false status body) st
                 = appendConsoleLine ("ERROR: " ++ describe err) (Some "error") st2).
  { unfold submit_resume.
    match goal with |- tryCatch ?b ?h st = _ =>
      rewrite (tryCatch_caught b h st st2 err)
    end; [reflexivity|]. cbn [negb]. cbv zeta. fold data. fold debug. fold logs.
    unfold bind at 1. destruct (Hdret st) as [[] Hdo].
    rewrite (run_eq debug st), Hdo. fold st1.
    unfold bind at 1.
    replace (if negb (length logs =? 0)%nat then renderLogLines logs
             else renderLogLines [ "ERROR: Request failed." ])
      with (renderLogLines listed) by (subst listed; destruct logs; reflexivity).
    destruct (renderLogLines_returns listed st1) as [[] Hro].
    rewrite (run_eq (renderLogLines listed) st1), Hro. reflexivity. }
  split; [|split].
  - unfold outcome. rewrite Hrun. reflexivity.
  - unfold st', exec at 1. rewrite Hrun.
    change (fst (appendConsoleLine ("ERROR: " ++ describe err) (Some "error") st2))
      with (exec (appendConsoleLine ("ERROR: " ++ describe err) (Some "error")) st2).
    rewrite appendConsoleLine_console, interpretLogLine_forced_error. cbn [text type].
    unfold errorLine, reason. subst err. rewrite reported_reason. reflexivity.
  - apply (sameJobs_trans _ st1); [apply Hd1|].
    apply (sameJobs_trans _ st2); [apply renderLogLines_sameJobs|].
    unfold st', exec at 1. rewrite Hrun. apply appendConsoleLine_sameJobs.
Qed.
End SubmitRefused.
(** ** Proofs: what a normalised job looks like *)

Section Normalised.
Variable Date_parse : string -> option Date.

(** X9: [normaliseJob] gives nothing exactly for a job without an
    id; for any other job it keeps the id and gives a label that is not
    empty, a progress between 0 and 100, a start date and an update date,
    and a status that is one of the five labels, [completed] being read as
    [complete] and anything unknown as [queued]; or else a name that every
    object inherits, such as [constructor] or [toString], which passes the
    look-up in [STATUS_LABELS] and is kept as it is. *)
Theorem normaliseJob_shape (now : Date) (job : RawJob) :
  (normaliseJob Date_parse now job = None <-> truthyOpt (job_id job) = false)
  /\ forall update,
       normaliseJob Date_parse now job = Some update ->
       u_id update = job_id job
       /\ (exists label, u_label update = Some label /\ label <> "")
       /\ (exists progress, u_progress update = Some progress /\ 0 <= progress <= 100)
       /\ (exists started updated,
             u_startedAt update = Some started /\ u_updatedAt update = Some updated)
       /\ exists status,
            u_status update = Some status
            /\ (In status STATUS_LABELS
                \/ (In status OBJECT_PROTOTYPE_KEYS /\ job_status job = Some status)).
Proof.
  unfold normaliseJob, truthyOpt. destruct (job_id job) as [id|]; [|split; [tauto|discriminate]].
  destruct (truthy id) eqn:Ht; cbn [negb]; [|split; [tauto|discriminate]].
  split; [split; discriminate|]. intros update [= <-]. cbn.
  split; [reflexivity|]. split; [|split; [|split]].
  - eexists. split; [reflexivity|]. unfold optOr, orElse.
    destruct (job_label job) as [[|c r]|]; cbn; discriminate.
  - eexists. split; [reflexivity|]. destruct (job_progress job); lia.
  - eauto.
  - eexists. split; [reflexivity|].
    set (sent := optOr (job_status job) "queued").
    set (status := if String.eqb sent "completed" then "complete" else sent).
    destruct (hasStatusLabel status) eqn:Hl; cbn [negb]; [|left; cbn; tauto].
    unfold hasStatusLabel in Hl. apply orb_true_iff in Hl as [Hl|Hl];
      apply existsb_exists in Hl as (known & Hin & Heq); apply String.eqb_eq in Heq;
      subst known; [left; exact Hin|].
    right. split; [exact Hin|].
    subst status. destruct (String.eqb sent "completed") eqn:Hc.
    + cbn in Hin. intuition discriminate.
    + subst sent. unfold optOr, orElse in *.
      destruct (job_status job) as [[|c r]|]; cbn [truthy] in *;
        [cbn in Hin; intuition discriminate | reflexivity | cbn in Hin; intuition discriminate].
Qed.
End Normalised.

(** ** Proofs: the movie list *)

Section MovieList.
Import MovieLibrary MovieSpec.

Lemma append_longer (a b : string) : truthy b = true -> (a ++ b)%string <> a.
Proof.
  intros Hb Heq. apply (f_equal String.length) in Heq. rewrite length_append in Heq.
  destruct b; [discriminate|]. cbn in Heq. lia.
Qed.

Lemma trim_empty_iff (s : string) : truthy s = false -> trim s = "".
Proof. destruct s; [reflexivity | discriminate]. Qed.

(** The title and the year as both callers of [buildMovieOptionValue] end
    up with them. *)
Lemma optionFor_title (title : option string) :
  orElse (trim (if truthyOpt (Some (trim (optOr title "")))
                then default "" (Some (trim (optOr title ""))) else ""))
         "Movie"
  = orElse (trim (if truthyOpt title then default "" title else "")) "Movie".
Proof.
  destruct title as [s|]; [|reflexivity]. cbn [truthyOpt default optOr]. unfold id.
  assert (Hs : orElse s "" = s) by (destruct s; reflexivity). rewrite Hs.
  destruct (truthy (trim s)) eqn:Ht; cbv iota.
  - rewrite trim_idempotent. destruct (truthy s) eqn:Hs'; [reflexivity|].
    rewrite (trim_empty_iff s Hs') in Ht. discriminate.
  - destruct (truthy s); [|reflexivity].
    destruct (trim s); [reflexivity | discriminate].
Qed.

Lemma optionFor_year (year : Value) :
  let written := if notNull year then trim (toString year) else "" in
  (if truthyValue (Str written) then trim (toString (Str written)) else "") = written.
Proof.
  cbv zeta. cbn [truthyValue toString].
  destruct (notNull year); [|reflexivity].
  rewrite trim_idempotent. destruct (trim (toString year)); reflexivity.
Qed.

Lemma optionFor_value (movie : Movie) :
  let shown := orElse (trim (if truthyOpt (movie_title movie)
                             then default "" (movie_title movie) else "")) "Movie" in
  let year := if notNull (movie_year movie) then trim (toString (movie_year movie))
              else "" in
  value (optionFor movie) = if truthy year then shown ++ " (" ++ year ++ ")" else shown.
Proof.
  unfold optionFor. cbn [value]. unfold buildMovieOptionValue.
  rewrite optionFor_title, optionFor_year. reflexivity.
Qed.

Lemma optionFor_typedLabel (movie : Movie) :
  movie_year movie <> Num 0 -> value (optionFor movie) = typedLabel movie.
Proof.
  intros Hyear. rewrite optionFor_value. unfold typedLabel, buildMovieOptionValue.
  destruct (movie_year movie) as [| |n|s]; cbn [notNull truthyValue toString truthy];
    try reflexivity.
  - destruct (n =? 0) eqn:Hn; [|reflexivity].
    apply Z.eqb_eq in Hn. subst n. contradiction.
  - destruct (truthy s) eqn:Hs; [reflexivity|].
    rewrite (trim_empty_iff s Hs). reflexivity.
Qed.

(** X10: the label that [upsertMovieOption] gives the option of a movie
    and the name that [handleMovieAdded] then types into the movie field
    are built by the same function from differently prepared arguments;
    they are the same text for every movie except one whose year is the
    number 0, for which the option reads [<title> (0)] and the typed name
    is the bare title. *)
Theorem option_label_matches_unless_year_zero (movie : Movie) :
  (value (optionFor movie) = typedLabel movie <-> movie_year movie <> Num 0)
  /\ (movie_year movie = Num 0 ->
      value (optionFor movie) = (typedLabel movie ++ " (0)")%string).
Proof.
  split; [split; [|apply optionFor_typedLabel]|].
  - intros Heq Hzero. rewrite optionFor_value in Heq. revert Heq.
    unfold typedLabel, buildMovieOptionValue. rewrite Hzero.
    cbn [notNull truthyValue toString Z.eqb negb truthy].
    change (trim (pretty 0)) with "0". cbn [truthy].
    apply append_longer. reflexivity.
  - intros Hzero. rewrite optionFor_value.
    unfold typedLabel, buildMovieOptionValue. rewrite Hzero. reflexivity.
Qed.

Lemma find_findEntry {A} (p : A -> bool) (l : list A) :
  List.find p l = snd <$> findEntry p l.
Proof.
  induction l as [|x l IH]; [reflexivity|]. cbn [List.find findEntry].
  destruct (p x); [reflexivity|]. rewrite IH.
  destruct (findEntry p l) as [[i y]|]; reflexivity.
Qed.

Lemma findEntry_bound {A} (p : A -> bool) (l : list A) (i : nat) (x : A) :
  findEntry p l = Some (i, x) -> (i < length l)%nat.
Proof.
  intros H. apply findEntry_Some in H as [H _]. apply lookup_lt_Some in H. exact H.
Qed.

Lemma optionFor_id (movie : Movie) : data_id (optionFor movie) = Some (movieIdOf movie).
Proof. reflexivity. Qed.

Lemma upsertMovieOption_options (movie : Movie) (st : State) (options : list MovieOption) :
  movieOptions st = Some options -> truthy (movieIdOf movie) = true ->
  let has (option : MovieOption) := isString (data_id option) (movieIdOf movie) in
  getMovieOptions (upsertMovieOption movie st)
  = match findEntry has options with
    | Some (index, _) => <[index := optionFor movie]> options
    | None => (options ++ [ optionFor movie ])%list
    end.
Proof.
  intros Ho Ht has. unfold upsertMovieOption. rewrite Ho, Ht. cbn [negb].
  fold has. destruct (findEntry has options) as [[index found]|]; reflexivity.
Qed.

Lemma omap_insert_same {A B} (f : A -> option B) (l : list A) (i : nat) (x y : A) :
  l !! i = Some x -> f x = f y -> omap f (<[i := y]> l) = omap f l.
Proof.
  revert i. induction l as [|z l IH]; intros i Hl Hf; [reflexivity|].
  destruct i as [|i].
  - injection Hl as ->.
    change (match f y with Some b => b :: omap f l | None => omap f l end
            = match f x with Some b => b :: omap f l | None => omap f l end).
    rewrite Hf. reflexivity.
  - change (match f z with Some b => b :: omap f (<[i := y]> l) | None => omap f (<[i := y]> l) end
            = match f z with Some b => b :: omap f l | None => omap f l end).
    rewrite (IH i Hl Hf). reflexivity.
Qed.

(** X11: after [upsertMovieOption] for a movie that has an id,
    the first option of the data list with that id is the option of the
    movie, with its label and its four attributes; the call rewrites that
    option in place or appends one, so the list grows by at most one and
    ids that were distinct stay distinct; and a second call for the same
    movie changes nothing. *)
Theorem upsertMovieOption_lists_movie_once (movie : Movie) (st : State)
    (options : list MovieOption) :
  movieOptions st = Some options -> truthy (movieIdOf movie) = true ->
  let st' := upsertMovieOption movie st in
  optionOf (movieIdOf movie) st' = Some (optionFor movie)
  /\ upsertMovieOption movie st' = st'
  /\ (NoDup (optionIds st) -> NoDup (optionIds st'))
  /\ length (getMovieOptions st')
     = match optionOf (movieIdOf movie) st with
       | Some _ => length options
       | None => S (length options)
       end.
Proof.
  intros Ho Ht st'.
  set (has := fun option : MovieOption => isString (data_id option) (movieIdOf movie)).
  assert (Hhas : has (optionFor movie) = true)
    by (unfold has; cbn; apply String.eqb_refl).
  pose proof (upsertMovieOption_options movie st options Ho Ht) as Hopts.
  cbv zeta in Hopts. fold has in Hopts. fold st' in Hopts.
  assert (Hfound : findEntry has (getMovieOptions st')
                   = match findEntry has options with
                     | Some (index, _) => Some (index, optionFor movie)
                     | None => Some (length options, optionFor movie)
                     end).
  { rewrite Hopts. destruct (findEntry has options) as [[index found]|] eqn:E.
    - eapply findEntry_insert; eassumption.
    - apply findEntry_app; assumption. }
  assert (Hst' : movieOptions st' = Some (getMovieOptions st')).
  { unfold st', upsertMovieOption. rewrite Ho, Ht. cbn [negb].
    destruct (findEntry _ options) as [[index found]|]; reflexivity. }
  split; [|split; [|split]].
  - unfold optionOf. fold has. rewrite find_findEntry, Hfound.
    destruct (findEntry has options) as [[index found]|]; reflexivity.
  - unfold upsertMovieOption at 1. rewrite Hst', Ht. cbn [negb]. fold has.
    rewrite Hfound.
    destruct (findEntry has options) as [[index found]|] eqn:E.
    + rewrite Hopts, list_insert_insert_eq.
      unfold st', upsertMovieOption. rewrite Ho, Ht. cbn [negb]. fold has. rewrite E.
      reflexivity.
    + rewrite Hopts.
      replace (length options) with (length options + 0)%nat by lia.
      rewrite insert_app_r. cbn.
      unfold st', upsertMovieOption. rewrite Ho, Ht. cbn [negb]. fold has. rewrite E.
      reflexivity.
  - unfold optionIds. rewrite Hopts. unfold getMovieOptions. rewrite Ho. cbn [default].
    destruct (findEntry has options) as [[index found]|] eqn:E.
    + apply findEntry_Some in E as [Hl Hp]. intros Hnd.
      rewrite (omap_insert_same data_id options index found (optionFor movie) Hl);
        [exact Hnd|].
      unfold has, isString in Hp. destruct (data_id found) as [x|]; [|discriminate].
      apply String.eqb_eq in Hp. subst x. reflexivity.
    + apply findEntry_None in E. intros Hnd. rewrite omap_app. cbn.
      apply NoDup_app. split; [exact Hnd|]. split; [|apply NoDup_singleton].
      intros x Hx Hin. apply list_elem_of_singleton in Hin. subst x.
      apply list_elem_of_omap in Hx as (o & Hin & Hid).
      rewrite Forall_forall in E. specialize (E o Hin). unfold has in E.
      rewrite Hid in E. cbn in E. rewrite String.eqb_refl in E. discriminate.
  - assert (Hbefore : optionOf (movieIdOf movie) st = snd <$> findEntry has options).
    { unfold optionOf. fold has. rewrite find_findEntry.
      unfold getMovieOptions. rewrite Ho. reflexivity. }
    rewrite Hbefore, Hopts.
    destruct (findEntry has options) as [[index found]|]; cbn.
    + apply length_insert.
    + rewrite length_app. cbn. lia.
Qed.

Lemma upsertMovieOption_lists_movie_once_witness :
  let movie := {| movie_id := Num 12; movie_tmdbId := Num 348;
                  movie_title := Some " Alien "; movie_year := Num 1979 |} in
  let st := {| movieOptions :=
                 Some [ {| value := "Aliens (1986)"; data_id := Some "3";
                           data_title := Some "Aliens"; data_year := Some "1986";
                           data_tmdb := Some "679" |};
                        {| value := "Alien"; data_id := Some "12";
                           data_title := Some "Alien"; data_year := Some "";
                           data_tmdb := Some "" |} ];
               movieNameInput := Some "";
               movieIdInput := Some ""; titleInput := Some ""; yearInput := Some "";
               tmdbInput := Some ""; movieNotFoundPrompt := Some true;
               movieFeedback := None |} in
  optionOf "12" (upsertMovieOption movie st)
  = Some {| value := "Alien (1979)"; data_id := Some "12";
            data_title := Some "Alien"; data_year := Some "1979";
            data_tmdb := Some "348" |}
  /\ length (getMovieOptions (upsertMovieOption movie st)) = 2%nat.
Proof.
  intros movie st.
  pose proof (upsertMovieOption_lists_movie_once movie st _ eq_refl eq_refl) as H.
  cbv zeta in H. destruct H as (Hfound & _ & _ & Hlength).
  exact (conj Hfound Hlength).
Defined.

Lemma trimStart_head (s : string) (c : ascii) (r : string) :
  trimStart s = String c r -> isWhiteSpace c = false.
Proof.
  induction s as [|d s IH]; [discriminate|]. cbn [trimStart].
  destruct (isWhiteSpace d) eqn:Hd; [exact IH|].
  intros H. injection H as <- _. exact Hd.
Qed.

Lemma trim_head (s : string) (c : ascii) (r : string) :
  trim s = String c r -> isWhiteSpace c = false.
Proof.
  unfold trim. destruct (trimStart s) as [|d t] eqn:E; [discriminate|].
  pose proof (trimStart_head s d t E) as Hd.
  rewrite (trimEnd_black d t Hd). intros H. injection H as <- _. exact Hd.
Qed.

Lemma trim_append_black (a b : string) :
  truthy (trim a) = true -> truthy (trim (trim a ++ b)) = true.
Proof.
  destruct (trim a) as [|c r] eqn:E; [discriminate|]. intros _.
  change (String c r ++ b)%string with (String c (r ++ b)).
  rewrite (trim_black c _ (trim_head a c r E)). reflexivity.
Qed.

Lemma append_nothing (s : string) : (s ++ "")%string = s.
Proof.
  induction s as [|c s IH]; [reflexivity|].
  change (String c (s ++ "") = String c s). rewrite IH. reflexivity.
Qed.

(** The label of a movie is never blank. *)
Lemma buildMovieOptionValue_black (title : option string) (year : Value) :
  truthy (trim (buildMovieOptionValue title year)) = true.
Proof.
  unfold buildMovieOptionValue.
  set (given := trim (if truthyOpt title then default "" title else "")).
  assert (Hshown : forall rest, truthy (trim (orElse given "Movie" ++ rest)) = true).
  { intros rest. unfold orElse. destruct (truthy given) eqn:Hg.
    - unfold given in *. apply trim_append_black. exact Hg.
    - change ("Movie" ++ rest)%string with (String "M" ("ovie" ++ rest)).
      rewrite trim_black by reflexivity. reflexivity. }
  destruct (truthy (if truthyValue year then trim (toString year) else "")).
  - apply Hshown.
  - specialize (Hshown ""). rewrite append_nothing in Hshown. exact Hshown.
Qed.

Lemma findMatchingMovieOption_listedAs (typed : string) (st : State) :
  findMatchingMovieOption (if truthy typed then trim typed else "") st = listedAs typed st.
Proof.
  unfold findMatchingMovieOption, listedAs.
  destruct (truthy typed) eqn:Ht.
  - rewrite trim_idempotent. destruct (truthy (trim typed)); reflexivity.
  - rewrite (trim_empty_iff typed Ht). reflexivity.
Qed.

Lemma listedAs_frame (typed : string) (st st' : State) :
  movieOptions st' = movieOptions st -> listedAs typed st' = listedAs typed st.
Proof. intros H. unfold listedAs, getMovieOptions. rewrite H. reflexivity. Qed.

(** What [syncMovieSelection] does, in one piece. *)
Lemma syncMovieSelection_run (typed : string) (st : State) :
  movieNameInput st = Some typed ->
  syncMovieSelection st
  = let chosen := listedAs typed st in
    let st1 := applyMovieOption chosen st in
    match movieNotFoundPrompt st with
    | Some _ =>
        set_movieNotFoundPrompt
          (Some (negb (truthy (trim typed)) || bool_decide (is_Some chosen))) st1
    | None => st1
    end.
Proof.
  intros Hn. unfold syncMovieSelection. rewrite Hn.
  rewrite findMatchingMovieOption_listedAs. cbv zeta.
  set (chosen := listedAs typed st).
  assert (Hst1 : match chosen with
                 | Some found => applyMovieOption (Some found) st
                 | None => clearMovieSelection st
                 end = applyMovieOption chosen st)
    by (destruct chosen; reflexivity).
  rewrite Hst1. set (st1 := applyMovieOption chosen st).
  assert (Hframe : movieOptions st1 = movieOptions st
                   /\ movieNameInput st1 = movieNameInput st
                   /\ movieNotFoundPrompt st1 = movieNotFoundPrompt st)
    by (unfold st1; destruct chosen; cbn; auto).
  destruct Hframe as (Ho & Hname & Hp).
  unfold updateMovieNotFoundPrompt. rewrite Hp, Hname, Hn.
  destruct (movieNotFoundPrompt st) as [hidden|]; [|reflexivity].
  rewrite findMatchingMovieOption_listedAs, (listedAs_frame typed st st1 Ho).
  fold chosen.
  assert (Hv : truthy (if truthy typed then trim typed else "") = truthy (trim typed)).
  { destruct (truthy typed) eqn:Ht; [reflexivity|].
    rewrite (trim_empty_iff typed Ht). reflexivity. }
  rewrite Hv.
  destruct (truthy (trim typed)) eqn:Ht; cbn [negb orb].
  - destruct (bool_decide (is_Some chosen)); reflexivity.
  - reflexivity.
Qed.

Lemma listedAs_Some (typed : string) (st : State) (found : MovieOption) :
  listedAs typed st = Some found ->
  truthy (trim typed) = true /\ In found (getMovieOptions st) /\ labelled typed found.
Proof.
  unfold listedAs. destruct (truthy (trim typed)); [|discriminate].
  intros H. apply List.find_some in H as [Hin Heq].
  apply String.eqb_eq in Heq. auto.
Qed.

Lemma listedAs_None (typed : string) (st : State) :
  listedAs typed st = None -> truthy (trim typed) = true ->
  forall option, In option (getMovieOptions st) -> ~ labelled typed option.
Proof.
  unfold listedAs. intros H Ht. rewrite Ht in H.
  intros option Hin Hl. pose proof (List.find_none _ _ H option Hin) as Hne.
  cbv beta in Hne. unfold labelled in Hl. rewrite Hl, String.eqb_refl in Hne.
  discriminate.
Qed.

(** X12: [syncMovieSelection] keeps the hidden fields in step with the
    typed name.  When an option of the list carries the typed name (white
    space around either apart, the name not blank), the first such option is
    selected: its id, title, year and TMDb id are written to the four hidden
    fields, a missing attribute as the empty string.  So a hidden movie id
    that is not empty afterwards is the id of an option of the list that
    carries the typed name.  When no option carries the name, or the name is
    blank, all four hidden fields are emptied; the prompt to add a movie is
    shown exactly for a name that is not blank and that no option carries;
    the list, the name and the feedback line are not touched, and a second
    call changes nothing. *)
Theorem syncMovieSelection_follows_typed_name (typed : string) (st : State) :
  movieNameInput st = Some typed ->
  let st' := syncMovieSelection st in
  (forall id, movieIdInput st' = Some id -> truthy id = true ->
     exists option, In option (getMovieOptions st) /\ labelled typed option
                    /\ data_id option = Some id)
  /\ (forall option, truthy (trim typed) = true ->
        In option (getMovieOptions st) -> labelled typed option ->
        is_Some (listedAs typed st))
  /\ (forall found, listedAs typed st = Some found ->
        In found (getMovieOptions st) /\ labelled typed found
        /\ movieIdInput st' = writeValue (movieIdInput st) (optOr (data_id found) "")
        /\ titleInput st' = writeValue (titleInput st) (optOr (data_title found) "")
        /\ yearInput st' = writeValue (yearInput st) (optOr (data_year found) "")
        /\ tmdbInput st' = writeValue (tmdbInput st) (optOr (data_tmdb found) ""))
  /\ (listedAs typed st = None -> nothingSelected st')
  /\ (forall hidden, movieNotFoundPrompt st = Some hidden ->
        (movieNotFoundPrompt st' = Some false
         <-> truthy (trim typed) = true
             /\ forall option, In option (getMovieOptions st) -> ~ labelled typed option))
  /\ movieOptions st' = movieOptions st
  /\ movieNameInput st' = Some typed
  /\ movieFeedback st' = movieFeedback st
  /\ syncMovieSelection st' = st'.
Proof.
  intros Hn st'.
  pose proof (syncMovieSelection_run typed st Hn) as Hrun. cbv zeta in Hrun.
  fold st' in Hrun.
  assert (Hfields : movieIdInput st' = movieIdInput (applyMovieOption (listedAs typed st) st)
                    /\ titleInput st' = titleInput (applyMovieOption (listedAs typed st) st)
                    /\ yearInput st' = yearInput (applyMovieOption (listedAs typed st) st)
                    /\ tmdbInput st' = tmdbInput (applyMovieOption (listedAs typed st) st)
                    /\ movieOptions st' = movieOptions st
                    /\ movieNameInput st' = movieNameInput st
                    /\ movieFeedback st' = movieFeedback st).
  { rewrite Hrun. destruct (movieNotFoundPrompt st), (listedAs typed st); cbn; auto 10. }
  destruct Hfields as (Hid & Htitle & Hyear & Htmdb & Ho & Hname & Hfb).
  split; [|split; [|split; [|split; [|split; [|split; [|split; [|split]]]]]]].
  - intros id Hwritten Hid'. rewrite Hid in Hwritten.
    destruct (listedAs typed st) as [found|] eqn:E.
    + apply listedAs_Some in E as (_ & Hin & Hl). exists found.
      split; [exact Hin|]. split; [exact Hl|].
      cbn in Hwritten. destruct (movieIdInput st); [|discriminate].
      cbn in Hwritten. injection Hwritten as <-.
      destruct (data_id found) as [x|]; [|discriminate].
      unfold optOr, orElse in *.
      destruct (truthy x); [reflexivity | discriminate].
    + cbn in Hwritten. destruct (movieIdInput st); [|discriminate].
      cbn in Hwritten. injection Hwritten as <-. discriminate.
  - intros option Ht Hin Hl.
    destruct (listedAs typed st) as [found|] eqn:E; [eauto|].
    exfalso. exact (listedAs_None typed st E Ht option Hin Hl).
  - intros found E. rewrite Hid, Htitle, Hyear, Htmdb, E.
    apply listedAs_Some in E as (_ & Hin & Hl).
    split; [exact Hin|]. split; [exact Hl|]. repeat split.
  - intros Hnone. unfold nothingSelected.
    rewrite Hid, Htitle, Hyear, Htmdb, Hnone. cbn.
    destruct (movieIdInput st), (titleInput st), (yearInput st), (tmdbInput st);
      cbn; auto.
  - intros hidden Hp. rewrite Hrun, Hp.
    assert (Hflag : movieNotFoundPrompt
                      (set_movieNotFoundPrompt
                         (Some (negb (truthy (trim typed))
                                || bool_decide (is_Some (listedAs typed st))))
                         (applyMovieOption (listedAs typed st) st))
                    = Some (negb (truthy (trim typed))
                            || bool_decide (is_Some (listedAs typed st))))
      by reflexivity.
    rewrite Hflag. clear Hflag.
    destruct (truthy (trim typed)) eqn:Ht; cbn [negb orb].
    + destruct (listedAs typed st) as [found|] eqn:E.
      * apply listedAs_Some in E as (_ & Hin & Hl).
        rewrite bool_decide_eq_true_2 by (eexists; reflexivity).
        split; [discriminate|]. intros [_ Hno]. exfalso. exact (Hno found Hin Hl).
      * rewrite bool_decide_eq_false_2 by (intros [? ?]; discriminate).
        split; [|reflexivity]. intros _. split; [reflexivity|].
        apply listedAs_None; assumption.
    + split; [discriminate|]. intros [? _]. discriminate.
  - exact Ho.
  - rewrite Hname. exact Hn.
  - exact Hfb.
  - assert (Hn' : movieNameInput st' = Some typed) by (rewrite Hname; exact Hn).
    rewrite (syncMovieSelection_run typed st' Hn'). cbv zeta.
    rewrite (listedAs_frame typed st st' Ho).
    clearbody st'. subst st'.
    destruct (listedAs typed st) as [found|];
      destruct st as [o n [i|] [t|] [y|] [m|] [p|] f]; reflexivity.
Qed.

Lemma syncMovieSelection_follows_typed_name_witness :
  let alien := {| value := "Alien (1979)"; data_id := Some "7";
                  data_title := Some "Alien"; data_year := Some "1979";
                  data_tmdb := Some "348" |} in
  let st := {| movieOptions := Some [ alien ];
               movieNameInput := Some " Alien (1979) ";
               movieIdInput := Some ""; titleInput := Some ""; yearInput := Some "";
               tmdbInput := Some ""; movieNotFoundPrompt := Some false;
               movieFeedback := None |} in
  movieIdInput (syncMovieSelection st) = Some "7"
  /\ titleInput (syncMovieSelection st) = Some "Alien"
  /\ yearInput (syncMovieSelection st) = Some "1979"
  /\ tmdbInput (syncMovieSelection st) = Some "348"
  /\ movieNotFoundPrompt (syncMovieSelection st) <> Some false
  /\ syncMovieSelection (syncMovieSelection st) = syncMovieSelection st.
Proof.
  intros alien st.
  destruct (syncMovieSelection_follows_typed_name " Alien (1979) " st eq_refl)
    as (_ & _ & Hselected & _ & Hprompt & _ & _ & _ & Htwice).
  assert (Hfound : listedAs " Alien (1979) " st = Some alien)
    by (vm_compute; reflexivity).
  destruct (Hselected alien Hfound) as (Hin & Hl & Hid & Htitle & Hyear & Htmdb).
  split; [rewrite Hid; reflexivity|]. split; [rewrite Htitle; reflexivity|].
  split; [rewrite Hyear; reflexivity|]. split; [rewrite Htmdb; reflexivity|].
  split; [|exact Htwice].
  intros Hshown. apply (Hprompt false eq_refl) in Hshown as [_ Hnone].
  exact (Hnone alien Hin Hl).
Defined.

Lemma orElse_empty (s : string) : orElse s "" = s.
Proof. destruct s; reflexivity. Qed.

(** Where the option of an added movie is found by its label: every option
    that [p] accepts is one that [has] accepts, so the first that [p]
    accepts after the upsert is the option written. *)
Lemma find_after_upsert {A} (has p : A -> bool) (l : list A) (x : A) :
  (forall o, In o l -> p o = true -> has o = true) -> p x = true ->
  List.find p (match findEntry has l with
               | Some (index, _) => <[index := x]> l
               | None => (l ++ [x])%list
               end) = Some x.
Proof.
  intros Hall Hx. induction l as [|z l IH].
  - cbn. rewrite Hx. reflexivity.
  - cbn [findEntry]. destruct (has z) eqn:Hz.
    + cbn. rewrite Hx. reflexivity.
    + assert (Hpz : p z = false).
      { destruct (p z) eqn:Hpz; [|reflexivity].
        rewrite (Hall z (or_introl eq_refl) Hpz) in Hz. discriminate. }
      assert (IH' := IH (fun o Hin => Hall o (or_intror Hin))).
      destruct (findEntry has l) as [[index found]|]; cbn; rewrite Hpz; exact IH'.
Qed.

(** The options after an upsert are the old ones and the one written. *)
Lemma In_after_upsert {A} (has : A -> bool) (l : list A) (x o : A) :
  In o (match findEntry has l with
        | Some (index, _) => <[index := x]> l
        | None => (l ++ [x])%list
        end) -> In o l \/ o = x.
Proof.
  destruct (findEntry has l) as [[index found]|].
  - revert index. induction l as [|z l IH]; intros index; [intros []|].
    destruct index as [|index]; cbn.
    + intros [<-|Hin]; auto.
    + intros [<-|Hin]; [auto|]. destruct (IH index Hin); auto.
  - rewrite in_app_iff. cbn. intros [Hin|[<-|[]]]; auto.
Qed.

Lemma trimEnd_append_black (s t : string) :
  truthy (trimEnd t) = true -> trimEnd (s ++ t) = (s ++ trimEnd t)%string.
Proof.
  intros Ht. induction s as [|c s IH]; [reflexivity|].
  change (String c s ++ t)%string with (String c (s ++ t)).
  change (String c s ++ trimEnd t)%string with (String c (s ++ trimEnd t)).
  cbn [trimEnd]. rewrite IH.
  destruct (s ++ trimEnd t)%string eqn:E; [|reflexivity].
  apply (f_equal String.length) in E. rewrite length_append in E.
  destruct (trimEnd t); [discriminate|]. cbn in E. lia.
Qed.

(** The bare label of a movie is trimmed, and so is the label with a year
    behind it. *)
Lemma shown_trimmed (given rest : string) :
  truthy (trimEnd rest) = true \/ rest = "" ->
  let shown := orElse (trim given) "Movie" in
  trim (shown ++ rest) = (shown ++ trimEnd rest)%string.
Proof.
  intros Hrest shown.
  assert (Hhead : exists c r, shown = String c r /\ isWhiteSpace c = false
                              /\ trimEnd shown = shown).
  { unfold shown, orElse. destruct (truthy (trim given)) eqn:Hg.
    - destruct (trim given) as [|c r] eqn:E; [discriminate|].
      exists c, r. split; [reflexivity|]. split; [exact (trim_head given c r E)|].
      rewrite <- E. unfold trim. apply trimEnd_idempotent.
    - exists "M"%char, "ovie". repeat split. }
  destruct Hhead as (c & r & Hs & Hc & Hend).
  destruct Hrest as [Hrest | ->].
  - unfold trim. rewrite Hs.
    change (String c r ++ rest)%string with (String c (r ++ rest)).
    cbn [trimStart]. rewrite Hc.
    change (String c (r ++ rest)) with (String c r ++ rest)%string.
    apply trimEnd_append_black, Hrest.
  - rewrite !append_nothing. unfold trim. rewrite Hs at 1. cbn [trimStart]. rewrite Hc.
    rewrite <- Hs. exact Hend.
Qed.

Lemma typedLabel_year_zero (movie : Movie) :
  movie_year movie = Num 0 ->
  ~ labelled (typedLabel movie) (optionFor movie).
Proof.
  intros Hzero. unfold labelled. rewrite optionFor_value.
  unfold typedLabel, buildMovieOptionValue. rewrite Hzero.
  set (given := if truthyOpt (movie_title movie) then default "" (movie_title movie) else "").
  change (trim (orElse (trim given) "Movie" ++ " (0)")
          <> trim (orElse (trim given) "Movie")).
  rewrite (shown_trimmed given " (0)" (or_introl eq_refl)).
  pose proof (shown_trimmed given "" (or_intror eq_refl)) as Hbare.
  cbv zeta in Hbare. rewrite !append_nothing in Hbare. rewrite Hbare.
  apply append_longer. reflexivity.
Qed.

Lemma updateMovieNotFoundPrompt_twice (st : State) :
  updateMovieNotFoundPrompt (updateMovieNotFoundPrompt st) = updateMovieNotFoundPrompt st.
Proof.
  destruct (movieNotFoundPrompt st) as [hidden|] eqn:Hp.
  2: { assert (Hsame : updateMovieNotFoundPrompt st = st)
         by (unfold updateMovieNotFoundPrompt; rewrite Hp; reflexivity).
       rewrite Hsame. exact Hsame. }
  destruct (movieNameInput st) as [typed|] eqn:Hn.
  2: { assert (Hsame : updateMovieNotFoundPrompt st = st)
         by (unfold updateMovieNotFoundPrompt; rewrite Hp, Hn; reflexivity).
       rewrite Hsame. exact Hsame. }
  set (v := if truthy typed then trim typed else "").
  remember (negb (truthy v)
            || bool_decide (is_Some (if truthy v then findMatchingMovieOption v st
                                     else None))) as flag eqn:Hflag.
  assert (Hfirst : updateMovieNotFoundPrompt st = set_movieNotFoundPrompt (Some flag) st).
  { unfold updateMovieNotFoundPrompt. rewrite Hp, Hn. cbv zeta. fold v.
    rewrite <- Hflag. destruct flag; reflexivity. }
  rewrite Hfirst. unfold updateMovieNotFoundPrompt.
  cbn [movieNotFoundPrompt movieNameInput set_movieNotFoundPrompt]. rewrite Hn.
  cbv zeta. fold v.
  change (findMatchingMovieOption v (set_movieNotFoundPrompt (Some flag) st))
    with (findMatchingMovieOption v st).
  rewrite <- Hflag. destruct flag; reflexivity.
Qed.

(** [handleMovieAdded] on a page that has the list and the field: the
    option is written, the label is typed, and the selection follows. *)
Lemma handleMovieAdded_run (movie : Movie) (st : State) (options : list MovieOption)
    (typed : string) :
  movieOptions st = Some options -> movieNameInput st = Some typed ->
  truthy (movieIdOf movie) = true ->
  let has (option : MovieOption) := isString (data_id option) (movieIdOf movie) in
  let listed := match findEntry has options with
                | Some (index, _) => <[index := optionFor movie]> options
                | None => (options ++ [ optionFor movie ])%list
                end in
  let st2 := set_movieNameInput (Some (typedLabel movie))
                                (set_movieOptions (Some listed) st) in
  fst (handleMovieAdded movie st) = syncMovieSelection st2
  /\ getMovieOptions st2 = listed.
Proof.
  intros Ho Hn Ht has listed st2.
  assert (Hup : upsertMovieOption movie st = set_movieOptions (Some listed) st).
  { unfold upsertMovieOption. rewrite Ho, Ht. cbn [negb]. fold has. unfold listed.
    destruct (findEntry has options) as [[index found]|]; reflexivity. }
  split; [|reflexivity].
  unfold handleMovieAdded. cbn [fst]. rewrite Hup.
  assert (Hname : movieNameInput (set_movieOptions (Some listed) st) = Some typed)
    by exact Hn.
  rewrite Hname. cbn [writeValue]. fold (typedLabel movie). fold st2.
  unfold syncMovieSelection.
  change (movieNameInput st2) with (Some (typedLabel movie)). cbv zeta.
  apply updateMovieNotFoundPrompt_twice.
Qed.

Lemma listedAs_after_upsert (movie : Movie) (st : State) (options : list MovieOption) :
  (forall option, In option options -> labelled (typedLabel movie) option ->
                  data_id option = Some (movieIdOf movie)) ->
  labelled (typedLabel movie) (optionFor movie) ->
  let has (option : MovieOption) := isString (data_id option) (movieIdOf movie) in
  let listed := match findEntry has options with
                | Some (index, _) => <[index := optionFor movie]> options
                | None => (options ++ [ optionFor movie ])%list
                end in
  listedAs (typedLabel movie)
           (set_movieNameInput (Some (typedLabel movie)) (set_movieOptions (Some listed) st))
  = Some (optionFor movie).
Proof.
  intros Hall Hlabel has listed. unfold listedAs.
  unfold typedLabel at 1. rewrite buildMovieOptionValue_black.
  change (getMovieOptions _) with listed. unfold listed.
  apply find_after_upsert.
  - intros option Hin Hp. apply String.eqb_eq in Hp.
    unfold has. rewrite (Hall option Hin Hp). cbn. apply String.eqb_refl.
  - apply String.eqb_eq. exact Hlabel.
Qed.

(** X13: on a page with the list and the field, [handleMovieAdded]
    for a movie with an id and a year other than the number 0 leaves the
    movie selected: the field shows its label, the first option with its id
    is the option of the movie, the four hidden fields hold its id, trimmed
    title, year and TMDb id, and the prompt to add a movie is hidden;
    provided that every option that carried this label before carried the
    id of the movie.  The console line is returned when the movie has a
    title. *)
Theorem handleMovieAdded_selects_movie (movie : Movie) (st : State)
    (options : list MovieOption) (typed : string) :
  movieOptions st = Some options -> movieNameInput st = Some typed ->
  truthy (movieIdOf movie) = true ->
  movie_year movie <> Num 0 ->
  (forall option, In option options -> labelled (typedLabel movie) option ->
                  data_id option = Some (movieIdOf movie)) ->
  let st' := fst (handleMovieAdded movie st) in
  movieNameInput st' = Some (typedLabel movie)
  /\ optionOf (movieIdOf movie) st' = Some (optionFor movie)
  /\ movieIdInput st' = writeValue (movieIdInput st) (movieIdOf movie)
  /\ titleInput st' = writeValue (titleInput st) (trim (optOr (movie_title movie) ""))
  /\ yearInput st'
     = writeValue (yearInput st)
                  (if notNull (movie_year movie) then trim (toString (movie_year movie))
                   else "")
  /\ tmdbInput st'
     = writeValue (tmdbInput st)
                  (if notNull (movie_tmdbId movie) then toString (movie_tmdbId movie)
                   else "")
  /\ movieNotFoundPrompt st' = (fun _ => true) <$> movieNotFoundPrompt st
  /\ snd (handleMovieAdded movie st)
     = if truthyOpt (movie_title movie)
       then Some ("Added movie to Radarr: " ++ typedLabel movie)%string else None.
Proof.
  intros Ho Hn Ht Hyear Hall st'.
  destruct (handleMovieAdded_run movie st options typed Ho Hn Ht) as [Hrun Hlisted].
  cbv zeta in Hrun, Hlisted. fold st' in Hrun.
  set (has := fun option : MovieOption => isString (data_id option) (movieIdOf movie)) in *.
  set (listed := match findEntry has options with
                 | Some (index, _) => <[index := optionFor movie]> options
                 | None => (options ++ [ optionFor movie ])%list
                 end) in *.
  set (st2 := set_movieNameInput (Some (typedLabel movie))
                                 (set_movieOptions (Some listed) st)) in *.
  assert (Hlabel : labelled (typedLabel movie) (optionFor movie))
    by (unfold labelled; rewrite (optionFor_typedLabel movie Hyear); reflexivity).
  pose proof (listedAs_after_upsert movie st options Hall Hlabel) as Hchosen.
  cbv zeta in Hchosen. fold has listed st2 in Hchosen.
  assert (Hn2 : movieNameInput st2 = Some (typedLabel movie)) by reflexivity.
  pose proof (syncMovieSelection_run _ st2 Hn2) as Hsync. cbv zeta in Hsync.
  rewrite Hchosen in Hsync. rewrite <- Hrun in Hsync. clear Hrun.
  assert (Hopts : getMovieOptions st' = listed).
  { rewrite Hsync. unfold st2. destruct (movieNotFoundPrompt _); reflexivity. }
  clearbody st'. subst st'.
  split; [|split; [|split; [|split; [|split; [|split; [|split]]]]]].
  - unfold st2. destruct (movieNotFoundPrompt _); reflexivity.
  - unfold optionOf. rewrite Hopts. unfold listed. apply find_after_upsert.
    + intros option _ Hp. exact Hp.
    + cbn. apply String.eqb_refl.
  - unfold st2. destruct (movieNotFoundPrompt _);
      cbn -[trim toString movieIdOf orElse]; rewrite orElse_empty; reflexivity.
  - unfold st2. destruct (movieNotFoundPrompt _);
      cbn -[trim toString movieIdOf orElse]; rewrite orElse_empty; reflexivity.
  - unfold st2. destruct (movieNotFoundPrompt _);
      cbn -[trim toString movieIdOf orElse]; rewrite orElse_empty; reflexivity.
  - unfold st2. destruct (movieNotFoundPrompt _);
      cbn -[trim toString movieIdOf orElse]; rewrite orElse_empty; reflexivity.
  - unfold st2. change (movieNotFoundPrompt (set_movieNameInput _ _))
      with (movieNotFoundPrompt st).
    destruct (movieNotFoundPrompt st) eqn:Hp; [|exact Hp].
    rewrite bool_decide_eq_true_2 by (eexists; reflexivity).
    rewrite orb_true_r. reflexivity.
  - reflexivity.
Qed.

Lemma handleMovieAdded_selects_movie_witness :
  let movie := {| movie_id := Num 12; movie_tmdbId := Num 348;
                  movie_title := Some " Alien "; movie_year := Num 1979 |} in
  let st := {| movieOptions :=
                 Some [ {| value := "Aliens (1986)"; data_id := Some "3";
                           data_title := Some "Aliens"; data_year := Some "1986";
                           data_tmdb := Some "679" |} ];
               movieNameInput := Some "ali";
               movieIdInput := Some ""; titleInput := Some ""; yearInput := Some "";
               tmdbInput := Some ""; movieNotFoundPrompt := Some false;
               movieFeedback := None |} in
  movieNameInput (fst (handleMovieAdded movie st)) = Some "Alien (1979)"
  /\ movieIdInput (fst (handleMovieAdded movie st)) = Some "12"
  /\ titleInput (fst (handleMovieAdded movie st)) = Some "Alien"
  /\ movieNotFoundPrompt (fst (handleMovieAdded movie st)) = Some true.
Proof.
  intros movie st.
  assert (Hyear : movie_year movie <> Num 0) by discriminate.
  assert (Hall : forall option,
             In option [ {| value := "Aliens (1986)"; data_id := Some "3";
                            data_title := Some "Aliens"; data_year := Some "1986";
                            data_tmdb := Some "679" |} ] ->
             labelled (typedLabel movie) option ->
             data_id option = Some (movieIdOf movie)).
  { intros option [<-|[]] Hl. vm_compute in Hl. discriminate. }
  pose proof (handleMovieAdded_selects_movie movie st _ "ali" eq_refl eq_refl eq_refl
                Hyear Hall) as H.
  cbv zeta in H. destruct H as (Hname & _ & Hid & Htitle & _ & _ & Hprompt & _).
  exact (conj Hname (conj Hid (conj Htitle Hprompt))).
Defined.

(** X14: for a movie whose year is the number 0, [handleMovieAdded]
    lists the movie but does not select it: its option is labelled
    [<title> (0)] while the field gets the bare title, so, unless an option
    carried the bare title before, the four hidden fields are emptied and
    the prompt to add a movie is shown for the movie just added. *)
Theorem handleMovieAdded_year_zero_not_selected (movie : Movie) (st : State)
    (options : list MovieOption) (typed : string) :
  movieOptions st = Some options -> movieNameInput st = Some typed ->
  truthy (movieIdOf movie) = true ->
  movie_year movie = Num 0 ->
  (forall option, In option options -> ~ labelled (typedLabel movie) option) ->
  let st' := fst (handleMovieAdded movie st) in
  optionOf (movieIdOf movie) st' = Some (optionFor movie)
  /\ value (optionFor movie) = (typedLabel movie ++ " (0)")%string
  /\ movieNameInput st' = Some (typedLabel movie)
  /\ nothingSelected st'
  /\ movieNotFoundPrompt st' = (fun _ => false) <$> movieNotFoundPrompt st.
Proof.
  intros Ho Hn Ht Hzero Hnone st'.
  destruct (handleMovieAdded_run movie st options typed Ho Hn Ht) as [Hrun Hlisted].
  cbv zeta in Hrun, Hlisted. fold st' in Hrun.
  set (has := fun option : MovieOption => isString (data_id option) (movieIdOf movie)) in *.
  set (listed := match findEntry has options with
                 | Some (index, _) => <[index := optionFor movie]> options
                 | None => (options ++ [ optionFor movie ])%list
                 end) in *.
  set (st2 := set_movieNameInput (Some (typedLabel movie))
                                 (set_movieOptions (Some listed) st)) in *.
  assert (Hchosen : listedAs (typedLabel movie) st2 = None).
  { unfold listedAs. unfold typedLabel at 1. rewrite buildMovieOptionValue_black.
    destruct (List.find _ (getMovieOptions st2)) as [found|] eqn:E; [|reflexivity].
    exfalso. apply List.find_some in E as [Hin Heq]. apply String.eqb_eq in Heq.
    rewrite Hlisted in Hin. apply In_after_upsert in Hin as [Hin | ->].
    - exact (Hnone found Hin Heq).
    - exact (typedLabel_year_zero movie Hzero Heq). }
  assert (Hn2 : movieNameInput st2 = Some (typedLabel movie)) by reflexivity.
  pose proof (syncMovieSelection_run _ st2 Hn2) as Hsync. cbv zeta in Hsync.
  rewrite Hchosen in Hsync. rewrite <- Hrun in Hsync. clear Hrun.
  assert (Hopts : getMovieOptions st' = listed).
  { rewrite Hsync. unfold st2. destruct (movieNotFoundPrompt _); reflexivity. }
  clearbody st'. subst st'.
  split; [|split; [|split; [|split]]].
  - unfold optionOf. rewrite Hopts. unfold listed. apply find_after_upsert.
    + intros option _ Hp. exact Hp.
    + cbn. apply String.eqb_refl.
  - rewrite optionFor_value. unfold typedLabel, buildMovieOptionValue.
    rewrite Hzero. reflexivity.
  - unfold st2. destruct (movieNotFoundPrompt _); reflexivity.
  - unfold nothingSelected, st2.
    destruct (movieNotFoundPrompt _);
      destruct st as [o n [i|] [t|] [y|] [m|] p f]; cbn; auto.
  - unfold st2. change (movieNotFoundPrompt (set_movieNameInput _ _))
      with (movieNotFoundPrompt st).
    destruct (movieNotFoundPrompt st) eqn:Hp; [|exact Hp].
    rewrite bool_decide_eq_false_2 by (intros [? ?]; discriminate).
    unfold typedLabel. rewrite buildMovieOptionValue_black. reflexivity.
Qed.

Lemma handleMovieAdded_year_zero_not_selected_witness :
  let movie := {| movie_id := Num 12; movie_tmdbId := Num 348;
                  movie_title := Some "Untitled Project"; movie_year := Num 0 |} in
  let st := {| movieOptions := Some [];
               movieNameInput := Some "";
               movieIdInput := Some "3"; titleInput := Some "Aliens";
               yearInput := Some "1986"; tmdbInput := Some "679";
               movieNotFoundPrompt := Some true;
               movieFeedback := None |} in
  value (optionFor movie) = "Untitled Project (0)"
  /\ movieNameInput (fst (handleMovieAdded movie st)) = Some "Untitled Project"
  /\ movieIdInput (fst (handleMovieAdded movie st)) = Some ""
  /\ movieNotFoundPrompt (fst (handleMovieAdded movie st)) = Some false.
Proof.
  intros movie st.
  assert (Hnone : forall option, In option [] -> ~ labelled (typedLabel movie) option)
    by (intros option []).
  pose proof (handleMovieAdded_year_zero_not_selected movie st [] "" eq_refl eq_refl
                eq_refl eq_refl Hnone) as H.
  cbv zeta in H. destruct H as (_ & Hvalue & Hname & (Hid & _) & Hprompt).
  exact (conj Hvalue (conj Hname (conj Hid Hprompt))).
Defined.

End MovieList.
